(** * docscraper: crawl admission, duplicate index, quality scoring, tree builder

    A shallow embedding of the Go sources
      - scraper/deduplicator.go  (URLNormalizer, LinkDeduplicator)
      - scraper/quality.go       (ContentQualityAnalyzer, QualityScorer)
      - scraper/tree.go          (TreeBuilder, DocumentTree)
      - scraper/scraper.go       (Scraper.shouldFollowLink, Scraper.checkRobotsTxt)
      - config/config.go         (Config)
    together with the parts of Go's [strings], [path], [net/url] and [regexp]
    packages that these functions call.

    Conventions.
      - A Go [string] is a Rocq [string] (a sequence of bytes).  Case mapping
        and white space are the ASCII ones.
      - A Go [int] is a [Z]; the one counter that is incremented without a
        bound ([duplicateCount]) wraps around at 64 bits.
      - A Go [float64] is an exact rational [Q]; every comparison proved
        for C1 to C10 has a margin far above binary64 rounding; the
        properties X12 to X14 are about the exact sums.
      - A pointer [*DocumentNode] is an index into a node store.
      - [range] over a Go map visits the entries in an unspecified order; the
        functions that range over [NodeMap] take that order as a parameter. *)

From Stdlib Require Import ZArith QArith Lqa Lia Bool Ascii String List.
From stdpp Require Import base option list sorting gmap strings.

Local Open Scope Z_scope.

(** ** Go's [strings] package (byte strings, ASCII case and space) *)

Module GoStrings.

Fixpoint HasPrefix (s pre : string) {struct pre} : bool :=
  match pre, s with
  | EmptyString, _ => true
  | String _ _, EmptyString => false
  | String a pre', String b s' => if Ascii.eqb a b then HasPrefix s' pre' else false
  end.

Fixpoint Contains (s sub : string) : bool :=
  if HasPrefix s sub then true
  else match s with
       | EmptyString => false
       | String _ s' => Contains s' sub
       end.

Fixpoint drop (n : nat) (s : string) : string :=
  match n, s with
  | O, _ => s
  | S _, EmptyString => EmptyString
  | S n', String _ s' => drop n' s'
  end.

Fixpoint take (n : nat) (s : string) : string :=
  match n, s with
  | O, _ => EmptyString
  | S _, EmptyString => EmptyString
  | S n', String c s' => String c (take n' s')
  end.

(** [strings.Cut]: the text before and after the first occurrence of
    [sep], and whether [sep] occurs. *)
Fixpoint Cut (s sep : string) : string * string * bool :=
  if HasPrefix s sep then (EmptyString, drop (String.length sep) s, true)
  else match s with
       | EmptyString => (EmptyString, EmptyString, false)
       | String c s' =>
           match Cut s' sep with
           | (before, after, found) => (String c before, after, found)
           end
       end.

Fixpoint HasSuffix (s suf : string) : bool :=
  if String.eqb s suf then true
  else match s with
       | EmptyString => false
       | String _ s' => HasSuffix s' suf
       end.

Definition TrimSuffix (s suf : string) : string :=
  if HasSuffix s suf then take (String.length s - String.length suf) s else s.

Definition is_upper (c : ascii) : bool :=
  let n := N_of_ascii c in ((65 <=? n) && (n <=? 90))%N.

Definition is_lower (c : ascii) : bool :=
  let n := N_of_ascii c in ((97 <=? n) && (n <=? 122))%N.

Definition is_digit (c : ascii) : bool :=
  let n := N_of_ascii c in ((48 <=? n) && (n <=? 57))%N.

Definition is_alpha (c : ascii) : bool := is_upper c || is_lower c.

Definition lower_byte (c : ascii) : ascii :=
  if is_upper c then ascii_of_N (N_of_ascii c + 32) else c.

Fixpoint ToLower (s : string) : string :=
  match s with
  | EmptyString => EmptyString
  | String c s' => String (lower_byte c) (ToLower s')
  end.

(** White space of [strings.Fields] and [strings.TrimSpace] on ASCII:
    tab, line feed, vertical tab, form feed, carriage return, space. *)
Definition is_space (c : ascii) : bool :=
  let n := N_of_ascii c in (((9 <=? n) && (n <=? 13)) || (n =? 32))%N.

(** [strings.Fields]: maximal runs of non-space bytes.  [cur] holds the
    bytes of the field being read, in reverse. *)
Fixpoint rev_string (acc s : string) : string :=
  match s with
  | EmptyString => acc
  | String c s' => rev_string (String c acc) s'
  end.

Fixpoint fields_from (cur : string) (s : string) : list string :=
  match s with
  | EmptyString =>
      match cur with
      | EmptyString => []
      | _ => [rev_string EmptyString cur]
      end
  | String c s' =>
      if is_space c then
        match cur with
        | EmptyString => fields_from EmptyString s'
        | _ => rev_string EmptyString cur :: fields_from EmptyString s'
        end
      else fields_from (String c cur) s'
  end.

Definition Fields (s : string) : list string := fields_from EmptyString s.

Fixpoint trim_left (s : string) : string :=
  match s with
  | String c s' => if is_space c then trim_left s' else s
  | EmptyString => EmptyString
  end.

Definition TrimSpace (s : string) : string :=
  rev_string EmptyString (trim_left (rev_string EmptyString (trim_left s))).

(** [strings.Split(s, sep)] for a one-byte separator. *)
Fixpoint Split (s : string) (sep : ascii) : list string :=
  match s with
  | EmptyString => [EmptyString]
  | String c s' =>
      if Ascii.eqb c sep then EmptyString :: Split s' sep
      else match Split s' sep with
           | first :: rest => String c first :: rest
           | [] => [String c EmptyString]
           end
  end.

Fixpoint Join (l : list string) (sep : string) : string :=
  match l with
  | [] => EmptyString
  | [x] => x
  | x :: l' => x +:+ sep +:+ Join l' sep
  end.

(** [strings.Count] for a one-byte pattern. *)
Fixpoint CountByte (s : string) (c : ascii) : nat :=
  match s with
  | EmptyString => O
  | String d s' => (if Ascii.eqb d c then 1 else 0) + CountByte s' c
  end.

(** [strings.LastIndex] for a one-byte pattern: the text up to and
    including the last occurrence, [None] when there is none. *)
Fixpoint through_last (s : string) (c : ascii) : option string :=
  match s with
  | EmptyString => None
  | String d s' =>
      match through_last s' c with
      | Some p => Some (String d p)
      | None => if Ascii.eqb d c then Some (String d EmptyString) else None
      end
  end.

(** The text after the last occurrence of [c]; the whole of [s] when
    there is none. *)
Fixpoint after_last (s : string) (c : ascii) : string :=
  match s with
  | EmptyString => EmptyString
  | String d s' =>
      if (0 <? CountByte s' c)%nat then after_last s' c
      else if Ascii.eqb d c then s' else s
  end.

Fixpoint Repeat (s : string) (n : nat) : string :=
  match n with
  | O => EmptyString
  | S n' => s +:+ Repeat s n'
  end.

End GoStrings.

(** ** Go's [net/url] package

    The model follows [url.Parse], [URL.String], [URL.Query],
    [Values.Encode] and [URL.ResolveReference] on URLs written with
    letters, digits and the bytes [- _ . ~ / : & = + ? #] (and [%] inside
    the query).  On these [net/url] neither escapes nor unescapes a byte of
    the scheme, host, path or fragment, and there is no user-info part.
    [Parse] answers [None] both where Go reports an error and where the
    text lies outside this fragment. *)

Module NetURL.
Import GoStrings.

Record URL := mkURL {
  Scheme : string;
  Opaque : string;
  Host : string;
  Path : string;
  RawQuery : string;
  Fragment : string;
  ForceQuery : bool;
  OmitHost : bool
}.

Definition set_Host (u : URL) (h : string) : URL :=
  mkURL (Scheme u) (Opaque u) h (Path u) (RawQuery u) (Fragment u) (ForceQuery u) (OmitHost u).
Definition set_Path (u : URL) (p : string) : URL :=
  mkURL (Scheme u) (Opaque u) (Host u) p (RawQuery u) (Fragment u) (ForceQuery u) (OmitHost u).
Definition set_RawQuery (u : URL) (q : string) : URL :=
  mkURL (Scheme u) (Opaque u) (Host u) (Path u) q (Fragment u) (ForceQuery u) (OmitHost u).
Definition set_Fragment (u : URL) (f : string) : URL :=
  mkURL (Scheme u) (Opaque u) (Host u) (Path u) (RawQuery u) f (ForceQuery u) (OmitHost u).
Definition set_Scheme (u : URL) (s : string) : URL :=
  mkURL s (Opaque u) (Host u) (Path u) (RawQuery u) (Fragment u) (ForceQuery u) (OmitHost u).

Definition nonempty (s : string) : bool := negb (String.eqb s "").

Fixpoint all_bytes (p : ascii -> bool) (s : string) : bool :=
  match s with
  | EmptyString => true
  | String c s' => p c && all_bytes p s'
  end.

Definition byte_in (set : string) (c : ascii) : bool :=
  negb (all_bytes (fun d => negb (Ascii.eqb c d)) set).

Definition is_unreserved (c : ascii) : bool :=
  is_alpha c || is_digit c || byte_in "-_.~" c.

(** Bytes that are neither escaped nor given a meaning by the splitting
    into components. *)
Definition is_pchar (c : ascii) : bool := is_unreserved c || byte_in "/:&=+" c.

(** The scan of [getScheme]: no scheme, a colon in the first place
    ("missing protocol scheme"), or a scheme and the text after its colon. *)
Inductive scheme_scan :=
| NoScheme
| MissingScheme
| FoundScheme (scheme rest : string).

Definition scheme_cons (c : ascii) (r : scheme_scan) : scheme_scan :=
  match r with
  | FoundScheme scheme rest => FoundScheme (String c scheme) rest
  | _ => r
  end.

Fixpoint scanScheme (first : bool) (s : string) : scheme_scan :=
  match s with
  | EmptyString => NoScheme
  | String c s' =>
      if is_alpha c then scheme_cons c (scanScheme false s')
      else if is_digit c || byte_in "+-." c then
        if first then NoScheme else scheme_cons c (scanScheme false s')
      else if Ascii.eqb c ":" then
        if first then MissingScheme else FoundScheme EmptyString s'
      else NoScheme
  end.

(** [getScheme]: [Some (scheme, rest)], or [None] for the error. *)
Definition getScheme (rawURL : string) : option (string * string) :=
  match scanScheme true rawURL with
  | NoScheme => Some (EmptyString, rawURL)
  | MissingScheme => None
  | FoundScheme scheme rest => Some (scheme, rest)
  end.

Definition validOptionalPort (port : string) : bool :=
  match port with
  | EmptyString => true
  | String c digits => Ascii.eqb c ":" && all_bytes is_digit digits
  end.

(** [parseHost] without brackets and escapes: only the port is checked. *)
Definition parseHost (host : string) : option string :=
  if (0 <? CountByte host ":")%nat then
    if all_bytes is_digit (after_last host ":") then Some host else None
  else Some host.

(** [parse(rawURL, viaRequest = false)] on the text before the fragment. *)
Definition parse (rawURL : string) : option URL :=
  match getScheme rawURL with
  | None => None
  | Some (scheme, rest) =>
      let scheme := ToLower scheme in
      let '(rest, rawQuery, forceQuery) :=
        if HasSuffix rest "?" && (CountByte rest "?" =? 1)%nat
        then (take (String.length rest - 1) rest, EmptyString, true)
        else let '(r, q, _) := Cut rest "?" in (r, q, false) in
      if negb (all_bytes is_pchar rest) then None
      else if negb (HasPrefix rest "/") && nonempty scheme then
        Some (mkURL scheme rest "" "" rawQuery "" forceQuery false)
      else if negb (HasPrefix rest "/")
              && Contains (fst (fst (Cut rest "/"))) ":" then None
      else if (nonempty scheme || negb (HasPrefix rest "///")) && HasPrefix rest "//" then
        let authority := drop 2 rest in
        let '(authority, tail, found) := Cut authority "/" in
        let rest := if found then String "/" tail else EmptyString in
        match parseHost authority with
        | None => None
        | Some host => Some (mkURL scheme "" host rest rawQuery "" forceQuery false)
        end
      else
        Some (mkURL scheme "" "" rest rawQuery "" forceQuery
                (nonempty scheme && HasPrefix rest "/"))
  end.

Definition is_query_byte (c : ascii) : bool :=
  is_pchar c || byte_in "?%" c.

Definition is_fragment_byte (c : ascii) : bool :=
  is_pchar c || byte_in "?" c.

(** [url.Parse]. *)
Definition Parse (rawURL : string) : option URL :=
  let '(u, frag, _) := Cut rawURL "#" in
  if negb (all_bytes is_query_byte u && all_bytes is_fragment_byte frag) then None
  else match parse u with
       | None => None
       | Some url => Some (set_Fragment url frag)
       end.

Definition IsAbs (u : URL) : bool := nonempty (Scheme u).

(** [URL.String]. *)
Definition String_ (u : URL) : string :=
  (if nonempty (Scheme u) then Scheme u +:+ ":" else "")
  +:+ (if nonempty (Opaque u) then Opaque u
       else
         (if nonempty (Scheme u) || nonempty (Host u) then
            if OmitHost u && negb (nonempty (Host u)) then ""
            else (if nonempty (Host u) || nonempty (Path u) then "//" else "") +:+ Host u
          else "")
         +:+ (if nonempty (Path u) && negb (HasPrefix (Path u) "/") && nonempty (Host u)
              then "/" else "")
         +:+ (if negb (nonempty (Scheme u)) && negb (nonempty (Host u))
                 && Contains (fst (fst (Cut (Path u) "/"))) ":"
              then "./" else "")
         +:+ Path u)
  +:+ (if ForceQuery u || nonempty (RawQuery u) then "?" +:+ RawQuery u else "")
  +:+ (if nonempty (Fragment u) then "#" +:+ Fragment u else "").

(** *** Query strings *)

Definition ishex (c : ascii) : bool :=
  is_digit c || byte_in "abcdefABCDEF" c.

Definition unhex (c : ascii) : N :=
  let n := N_of_ascii c in
  if is_digit c then (n - 48)%N
  else if is_lower c then (n - 97 + 10)%N
  else (n - 65 + 10)%N.

Definition upperhex (n : N) : ascii :=
  if (n <? 10)%N then ascii_of_N (48 + n) else ascii_of_N (65 + (n - 10)).

Definition shouldEscape_query (c : ascii) : bool := negb (is_unreserved c).

(** [QueryEscape]. *)
Fixpoint QueryEscape (s : string) : string :=
  match s with
  | EmptyString => EmptyString
  | String c s' =>
      if shouldEscape_query c then
        if Ascii.eqb c " " then String "+" (QueryEscape s')
        else String "%" (String (upperhex (N_of_ascii c / 16))
               (String (upperhex (N_of_ascii c mod 16)) (QueryEscape s')))
      else String c (QueryEscape s')
  end.

(** [QueryUnescape]; [None] for a malformed [%] escape. *)
Fixpoint QueryUnescape (s : string) : option string :=
  match s with
  | EmptyString => Some EmptyString
  | String "%" (String a (String b s')) =>
      if ishex a && ishex b then
        match QueryUnescape s' with
        | Some r => Some (String (ascii_of_N (unhex a * 16 + unhex b)) r)
        | None => None
        end
      else None
  | String "%" _ => None
  | String "+" s' =>
      match QueryUnescape s' with
      | Some r => Some (String " " r)
      | None => None
      end
  | String c s' =>
      match QueryUnescape s' with
      | Some r => Some (String c r)
      | None => None
      end
  end.

(** [url.Values]: a map from a key to the list of its values. *)
Abbreviation Values := (gmap string (list string)).

Definition Values_Add (m : Values) (key value : string) : Values :=
  <[key := default [] (m !! key) ++ [value]]> m.

(** [parseQuery]: the pairs are the [&]-separated pieces; a piece with a
    semicolon, an empty piece and a piece with a bad escape are skipped. *)
Definition parseQuery_pair (m : Values) (pair : string) : Values :=
  if Contains pair ";" then m
  else if String.eqb pair "" then m
  else let '(key, value, _) := Cut pair "=" in
       match QueryUnescape key, QueryUnescape value with
       | Some key, Some value => Values_Add m key value
       | _, _ => m
       end.

Definition ParseQuery (query : string) : Values :=
  if String.eqb query "" then ∅
  else fold_left parseQuery_pair (Split query "&") ∅.

(** [URL.Query]. *)
Definition Query (u : URL) : Values := ParseQuery (RawQuery u).

(** The keys of a map in the order [sort.Strings] gives them. *)
Definition sorted_keys (v : Values) : list string :=
  merge_sort String.le (map fst (map_to_list v)).

(** [Values.Encode]. *)
Definition Encode (v : Values) : string :=
  Join (flat_map (fun k =>
          map (fun x => QueryEscape k +:+ "=" +:+ QueryEscape x)
              (default [] (v !! k)))
        (sorted_keys v)) "&".

(** *** Reference resolution *)

Definition resolvePath_step (st : string * bool) (elem : string) : string * bool :=
  let '(dst, first) := st in
  if String.eqb elem "." then (dst, false)
  else if String.eqb elem ".." then
    let str := drop 1 dst in
    match through_last str "/" with
    | None => ("/", true)
    | Some p => ("/" +:+ take (String.length p - 1) p, first)
    end
  else ((if first then dst else dst +:+ "/") +:+ elem, false).

(** [resolvePath(base, ref)]. *)
Definition resolvePath (base ref : string) : string :=
  let full :=
    if String.eqb ref "" then base
    else if negb (HasPrefix ref "/") then
      default EmptyString (through_last base "/") +:+ ref
    else ref in
  if String.eqb full "" then ""
  else
    let elems := Split full "/" in
    let '(dst, _) := fold_left resolvePath_step elems ("/", true) in
    let last_elem := List.last elems EmptyString in
    let dst := if String.eqb last_elem "." || String.eqb last_elem ".."
               then dst +:+ "/" else dst in
    if (1 <? String.length dst)%nat && HasPrefix (drop 1 dst) "/" then drop 1 dst else dst.

(** [URL.ResolveReference]. *)
Definition ResolveReference (u ref : URL) : URL :=
  let url := if nonempty (Scheme ref) then ref else set_Scheme ref (Scheme u) in
  if nonempty (Scheme ref) || nonempty (Host ref) then
    set_Path url (resolvePath (Path ref) "")
  else if nonempty (Opaque ref) then
    set_Path (set_Host url "") ""
  else
    let url :=
      if negb (nonempty (Path ref)) && negb (ForceQuery ref) && negb (nonempty (RawQuery ref))
      then let url := set_RawQuery url (RawQuery u) in
           if negb (nonempty (Fragment ref)) then set_Fragment url (Fragment u) else url
      else url in
    if negb (nonempty (Path ref)) && nonempty (Opaque u) then
      mkURL (Scheme url) (Opaque u) "" "" (RawQuery url) (Fragment url)
            (ForceQuery url) (OmitHost url)
    else
      set_Path (set_Host url (Host u)) (resolvePath (Path u) (Path ref)).

End NetURL.

Import GoStrings NetURL.

(** ** scraper/deduplicator.go *)

(** [URLNormalizer]: the options of URL normalization. *)
Record URLNormalizer := mkURLNormalizer {
  RemoveFragment : bool;
  RemoveQuery : bool;
  RemoveTrailing : bool;
  LowerCase : bool;
  RemoveWWW : bool;
  SortQueryParams : bool
}.

(** [LinkDeduplicator].  The field [normalizeFunc] is never assigned nor
    called and is left out. *)
Record LinkDeduplicator := mkLinkDeduplicator {
  seenURLs : gmap string bool;
  canonicalMap : gmap string string;
  duplicateCount : Z;
  normalizer : URLNormalizer
}.

(** Two's complement wrap-around of a Go [int] (64 bits). *)
Definition wrap64 (z : Z) : Z := (z + 2 ^ 63) mod 2 ^ 64 - 2 ^ 63.

Definition NewLinkDeduplicator (config : URLNormalizer) : LinkDeduplicator :=
  mkLinkDeduplicator ∅ ∅ 0 config.

(** The query rebuilt by the "sort query parameters" block. *)
Definition sortedQuery (u : URL) : Values :=
  let values := Query u in
  fold_left (fun acc k =>
               fold_left (fun acc v => Values_Add acc k v) (default [] (values !! k)) acc)
            (sorted_keys values) ∅.

(** The assignments [NormalizeURL] makes to the parsed URL, in the order of
    the source, before the URL is written back as a string. *)
Definition normalizeFields (n : URLNormalizer) (parsedURL : URL) : URL :=
  let parsedURL := if RemoveFragment n then set_Fragment parsedURL "" else parsedURL in
  let parsedURL := if RemoveQuery n then set_RawQuery parsedURL "" else parsedURL in
  let parsedURL :=
    if SortQueryParams n && negb (RemoveQuery n)
    then set_RawQuery parsedURL (Encode (sortedQuery parsedURL))
    else parsedURL in
  let parsedURL :=
    if RemoveWWW n then
      let host := Host parsedURL in
      if HasPrefix (ToLower host) "www." then set_Host parsedURL (drop 4 host)
      else parsedURL
    else parsedURL in
  if RemoveTrailing n && negb (String.eqb (Path parsedURL) "/")
  then set_Path parsedURL (TrimSuffix (Path parsedURL) "/")
  else parsedURL.

(** [LinkDeduplicator.NormalizeURL]; [None] is the error result. *)
Definition NormalizeURL (ld : LinkDeduplicator) (rawURL : string) : option string :=
  match Parse rawURL with
  | None => None
  | Some parsedURL =>
      let normalizedURL := String_ (normalizeFields (normalizer ld) parsedURL) in
      Some (if LowerCase (normalizer ld) then ToLower normalizedURL else normalizedURL)
  end.

(** [seenURLs[key]]: a missing key reads as [false]. *)
Definition seen (ld : LinkDeduplicator) (key : string) : bool :=
  default false (seenURLs ld !! key).

(** [LinkDeduplicator.IsDuplicate]. *)
Definition IsDuplicate (ld : LinkDeduplicator) (rawURL : string) : bool :=
  match NormalizeURL ld rawURL with
  | None => true
  | Some normalized => seen ld normalized
  end.

(** [LinkDeduplicator.AddURL]: the result and the deduplicator after the
    call. *)
Definition AddURL (ld : LinkDeduplicator) (rawURL : string) : bool * LinkDeduplicator :=
  match NormalizeURL ld rawURL with
  | None =>
      (false, mkLinkDeduplicator (seenURLs ld) (canonicalMap ld)
                (wrap64 (duplicateCount ld + 1)) (normalizer ld))
  | Some normalized =>
      if seen ld normalized then
        (false, mkLinkDeduplicator (seenURLs ld) (canonicalMap ld)
                  (wrap64 (duplicateCount ld + 1)) (normalizer ld))
      else
        (true, mkLinkDeduplicator (<[normalized := true]> (seenURLs ld))
                 (<[rawURL := normalized]> (canonicalMap ld))
                 (duplicateCount ld) (normalizer ld))
  end.

Definition GetDuplicateCount (ld : LinkDeduplicator) : Z := duplicateCount ld.

(** [LinkDeduplicator.GetCanonicalURL]. *)
Definition GetCanonicalURL (ld : LinkDeduplicator) (rawURL : string) : string :=
  match canonicalMap ld !! rawURL with
  | Some canonical => canonical
  | None =>
      match NormalizeURL ld rawURL with
      | Some normalized => normalized
      | None => rawURL
      end
  end.

Definition GetSeenURLsCount (ld : LinkDeduplicator) : Z := Z.of_nat (size (seenURLs ld)).

Definition Reset (ld : LinkDeduplicator) : LinkDeduplicator :=
  mkLinkDeduplicator ∅ ∅ 0 (normalizer ld).

(** A sequence of [AddURL] calls on one deduplicator: the results, oldest
    first, and the deduplicator after the last call. *)
Fixpoint AddURLs (ld : LinkDeduplicator) (rawURLs : list string)
  : list bool * LinkDeduplicator :=
  match rawURLs with
  | [] => ([], ld)
  | u :: rest =>
      let '(r, ld') := AddURL ld u in
      let '(rs, ld'') := AddURLs ld' rest in
      (r :: rs, ld'')
  end.

(** *** [AddURL] as it runs next to another call

    [LinkDeduplicator] holds no lock, so another goroutine can run between
    the test [if ld.seenURLs[normalized]] and the assignment
    [ld.seenURLs[normalized] = true].  A call is therefore two steps: the
    test (with the early returns), then the two assignments. *)

Inductive call :=
| Calling (rawURL : string)
| Inserting (rawURL normalized : string)
| Returned (result : bool).

Definition AddURL_step (ld : LinkDeduplicator) (c : call) : LinkDeduplicator * call :=
  match c with
  | Calling rawURL =>
      match NormalizeURL ld rawURL with
      | None =>
          (mkLinkDeduplicator (seenURLs ld) (canonicalMap ld)
             (wrap64 (duplicateCount ld + 1)) (normalizer ld), Returned false)
      | Some normalized =>
          if seen ld normalized then
            (mkLinkDeduplicator (seenURLs ld) (canonicalMap ld)
               (wrap64 (duplicateCount ld + 1)) (normalizer ld), Returned false)
          else (ld, Inserting rawURL normalized)
      end
  | Inserting rawURL normalized =>
      (mkLinkDeduplicator (<[normalized := true]> (seenURLs ld))
         (<[rawURL := normalized]> (canonicalMap ld))
         (duplicateCount ld) (normalizer ld), Returned true)
  | Returned result => (ld, Returned result)
  end.

(** Two calls on one deduplicator; a schedule names, step by step, the call
    that moves ([false] the first, [true] the second). *)
Fixpoint run_two (schedule : list bool) (ld : LinkDeduplicator) (c1 c2 : call)
  : LinkDeduplicator * call * call :=
  match schedule with
  | [] => (ld, c1, c2)
  | false :: rest => let '(ld', c1') := AddURL_step ld c1 in run_two rest ld' c1' c2
  | true :: rest => let '(ld', c2') := AddURL_step ld c2 in run_two rest ld' c1 c2'
  end.

(** ** Go's [regexp] package, for the patterns the analyzer compiles

    Each function returns what [FindAllString(text, -1)] needs for the one
    pattern it is written for: leftmost matches, not overlapping, greedy or
    lazy as the pattern says. *)

Module GoRegexp.
Import GoStrings.

Definition is_newline (c : ascii) : bool := Ascii.eqb c "010".
Definition is_backtick (c : ascii) : bool := Ascii.eqb c "`".

(** The class [\s] of RE2: tab, line feed, form feed, carriage return,
    space. *)
Definition is_re_space (c : ascii) : bool :=
  let n := N_of_ascii c in
  ((n =? 9) || (n =? 10) || (n =? 12) || (n =? 13) || (n =? 32))%N.

(** Number of matches of the fenced-block pattern: an opening fence and
    the nearest closing fence after it.  [skip] counts bytes of a fence
    that are still to be passed over. *)
Fixpoint count_fenced (inside : bool) (skip : nat) (s : string) : nat :=
  match s with
  | EmptyString => O
  | String _ s' =>
      match skip with
      | S k => count_fenced inside k s'
      | O =>
          if HasPrefix s "```" then
            if inside then S (count_fenced false 2 s') else count_fenced true 2 s'
          else count_fenced inside 0 s'
      end
  end.

(** [ReplaceAllString(text, "")] for the fenced-block pattern.  [pending]
    holds, in reverse, the bytes read since an opening fence: they are
    dropped at the closing fence and kept when the text ends first. *)
Fixpoint remove_fenced (inside : bool) (skip : nat) (pending : string) (s : string)
  : string :=
  match s with
  | EmptyString => rev_string EmptyString pending
  | String c s' =>
      match skip with
      | S k =>
          if inside then remove_fenced inside k (String c pending) s'
          else remove_fenced inside k EmptyString s'
      | O =>
          if HasPrefix s "```" then
            if inside then remove_fenced false 2 EmptyString s'
            else remove_fenced true 2 (String c EmptyString) s'
          else if inside then remove_fenced inside 0 (String c pending) s'
          else String c (remove_fenced inside 0 EmptyString s')
      end
  end.

(** Number of matches of the inline-code pattern: a backtick, one or more
    bytes that are not backticks, a backtick.  [opened] is [Some n] after
    an opening backtick followed by [n] other bytes. *)
Fixpoint count_inline (opened : option nat) (s : string) : nat :=
  match s with
  | EmptyString => O
  | String c s' =>
      match opened with
      | None => count_inline (if is_backtick c then Some O else None) s'
      | Some n =>
          if is_backtick c then
            match n with
            | O => count_inline (Some O) s'
            | S _ => S (count_inline None s')
            end
          else count_inline (Some (S n)) s'
      end
  end.

Fixpoint leading (p : ascii -> bool) (s : string) : nat :=
  match s with
  | String c s' => if p c then S (leading p s') else O
  | EmptyString => O
  end.

(** After the white space [w] ends the text: the longest proper prefix of
    [w] that is followed by a byte other than a line feed. *)
Fixpoint last_non_newline (w : string) (i : nat) : option nat :=
  match w with
  | EmptyString => None
  | String c w' =>
      match last_non_newline w' (S i) with
      | Some k => Some k
      | None => if is_newline c then None else Some i
      end
  end.

(** Length of the match of the header pattern at the start of a line:
    one to six [#], white space, then the rest of a line (not empty). *)
Definition header_len (s : string) : option nat :=
  let h := leading (fun c => Ascii.eqb c "#") s in
  if ((h =? 0) || (6 <? h))%nat then None
  else
    let t := drop h s in
    let w := leading is_re_space t in
    if (w =? 0)%nat then None
    else
      let rest := drop w t in
      match rest with
      | String _ _ => Some (h + w + leading (fun c => negb (is_newline c)) rest)%nat
      | EmptyString =>
          match last_non_newline (drop 1 t) 1 with
          | Some k => Some (h + k + 1)%nat
          | None => None
          end
      end.

(** Number of matches of the header pattern. *)
Fixpoint count_headers_from (line_start : bool) (skip : nat) (s : string) : nat :=
  match s with
  | EmptyString => O
  | String c s' =>
      match skip with
      | S k => count_headers_from (is_newline c) k s'
      | O =>
          if line_start then
            match header_len s with
            | Some n => S (count_headers_from (is_newline c) (n - 1) s')
            | None => count_headers_from (is_newline c) 0 s'
            end
          else count_headers_from (is_newline c) 0 s'
      end
  end.

(** Whether [s] starts with [pat] when upper and lower case are not told
    apart; [pat] is in lower case. *)
Fixpoint HasPrefixFold (s pat : string) {struct pat} : bool :=
  match pat, s with
  | EmptyString, _ => true
  | String _ _, EmptyString => false
  | String a pat', String b s' =>
      if Ascii.eqb a (lower_byte b) then HasPrefixFold s' pat' else false
  end.

(** Number of matches of a literal pattern under [(?i)]; [pat] is in
    lower case. *)
Fixpoint count_literal_from (skip : nat) (pat : string) (s : string) : nat :=
  match s with
  | EmptyString => O
  | String _ s' =>
      match skip with
      | S k => count_literal_from k pat s'
      | O =>
          if HasPrefixFold s pat
          then S (count_literal_from (String.length pat - 1) pat s')
          else count_literal_from 0 pat s'
      end
  end.

(** Length of the match of the markdown-link pattern at [s]. *)
Definition link_len (s : string) : option nat :=
  match s with
  | String "[" t =>
      let '(label, after, found) := Cut t "]" in
      if found && negb (String.eqb label "") then
        match after with
        | String "(" t2 =>
            let '(target, _, found2) := Cut t2 ")" in
            if found2 && negb (String.eqb target "")
            then Some (String.length label + String.length target + 4)%nat
            else None
        | _ => None
        end
      else None
  | _ => None
  end.

Fixpoint count_links_from (skip : nat) (s : string) : nat :=
  match s with
  | EmptyString => O
  | String _ s' =>
      match skip with
      | S k => count_links_from k s'
      | O =>
          match link_len s with
          | Some n => S (count_links_from (n - 1) s')
          | None => count_links_from 0 s'
          end
      end
  end.

End GoRegexp.

Import GoRegexp.

(** ** scraper/quality.go *)

Local Open Scope Q_scope.

Record QualityIssue := mkQualityIssue {
  Type_ : string;
  Severity : string;
  Description : string
}.

Record ContentQuality := mkContentQuality {
  Score : Q;
  WordCount : Z;
  CodeBlockCount : Z;
  ImageCount : Z;
  LinkCount : Z;
  EmptyLineRatio : Q;
  ContentRatio : Q;
  HasTitle : bool;
  HasHeaders : bool;
  IsNavigationPage_ : bool;
  Language : string;
  Issues : list QualityIssue;
  Tags : list string
}.

(** [NodeMetadata]; [LastModified] is a time stamp, kept as a number. *)
Record NodeMetadata := mkNodeMetadata {
  md_WordCount : Z;
  md_LastModified : Z;
  md_ContentType : string;
  md_HasCodeBlocks : bool;
  md_HasImages : bool
}.

Record ScrapedContent := mkScrapedContent {
  sc_URL : string;
  sc_Title : string;
  sc_Content : string;
  sc_Metadata : NodeMetadata
}.

Record QualityConfig := mkQualityConfig {
  MinWordCount : Z;
  MinCodeBlockCount : Z;
  MaxEmptyLineRatio : Q;
  RequireTitle : bool;
  RequireContent : bool;
  SkipNavigationPages : bool;
  MinContentRatio : Q;
  BlacklistPatterns : list string;
  WhitelistPatterns : list string
}.

Record QualityWeights := mkQualityWeights {
  w_WordCount : Q;
  w_CodeBlocks : Q;
  w_Images : Q;
  w_Headers : Q;
  w_ContentRatio : Q;
  w_TitlePresence : Q
}.

Record ContentMetrics := mkContentMetrics {
  m_WordCount : Z;
  m_CodeBlockCount : Z;
  m_ImageCount : Z;
  m_LinkCount : Z;
  m_HeaderCount : Z;
  m_EmptyLineRatio : Q;
  m_ContentRatio : Q;
  m_HasTitle : bool;
  m_HasHeaders : bool;
  m_TotalLines : Z;
  m_EmptyLines : Z
}.

Record QualityScorer := mkQualityScorer { weights : QualityWeights }.

Record QualityStats := mkQualityStats {
  TotalPages : Z;
  PassedPages : Z;
  FailedPages : Z;
  AverageScore : Q;
  AverageWordCount : Z
}.

Record ContentQualityAnalyzer := mkContentQualityAnalyzer {
  config : QualityConfig;
  scorer : QualityScorer;
  stats : QualityStats
}.

(** [NewContentQualityAnalyzer]: the default weights. *)
Definition NewContentQualityAnalyzer (config : QualityConfig) : ContentQualityAnalyzer :=
  let weights := mkQualityWeights (3 # 10) (2 # 10) (1 # 10) (15 # 100) (15 # 100) (1 # 10) in
  mkContentQualityAnalyzer config (mkQualityScorer weights) (mkQualityStats 0 0 0 0 0).

Definition len (s : string) : Z := Z.of_nat (String.length s).

Definition countWords (text : string) : Z := Z.of_nat (length (Fields text)).

Definition countCodeBlocks (text : string) : Z :=
  let count := Z.of_nat (count_fenced false 0 text) in
  let textWithoutBlocks := remove_fenced false 0 EmptyString text in
  let inlineMatches := Z.of_nat (count_inline None textWithoutBlocks) in
  (count + inlineMatches / 3)%Z.

Definition countHeaders (text : string) : Z :=
  Z.of_nat (count_headers_from true 0 text).

Definition boilerplatePatterns : list string :=
  [ "copyright"; "all rights reserved"; "privacy policy"; "terms of service";
    "cookie policy"; "newsletter"; "subscribe"; "follow us"; "social media";
    "navigation"; "menu"; "footer"; "header" ].

(** The sum of the lengths of all matches of all boilerplate patterns. *)
Definition boilerplateLength (text : string) : Z :=
  fold_left (fun acc pattern =>
               (acc + Z.of_nat (count_literal_from 0 pattern text) * len pattern)%Z)
            boilerplatePatterns 0%Z.

Definition estimateContentRatio (text : string) : Q :=
  if (len text =? 0)%Z then 0
  else
    let totalLength := len text in
    let contentLength := (totalLength - boilerplateLength text)%Z in
    let contentLength := if (contentLength <? 0)%Z then 0%Z else contentLength in
    inject_Z contentLength / inject_Z totalLength.

(** [ContentQualityAnalyzer.extractMetrics]. *)
Definition extractMetrics (cqa : ContentQualityAnalyzer) (content : ScrapedContent)
  : ContentMetrics :=
  let text := sc_Content content in
  let lines := Split text "010" in
  let totalLines := Z.of_nat (length lines) in
  let emptyLines :=
    Z.of_nat (length (filter (fun line => TrimSpace line = EmptyString) lines)) in
  let emptyLineRatio :=
    if (0 <? totalLines)%Z then inject_Z emptyLines / inject_Z totalLines else 0 in
  let headerCount := countHeaders text in
  mkContentMetrics
    (countWords text)
    (countCodeBlocks text)
    0 0
    headerCount
    emptyLineRatio
    (estimateContentRatio text)
    (negb (String.eqb (sc_Title content) "") && negb (String.eqb (sc_Title content) "Untitled"))
    (0 <? headerCount)%Z
    totalLines
    emptyLines.

Definition Qltb (x y : Q) : bool := negb (Qle_bool y x).

(** The sub-scores of [QualityScorer.CalculateScore], each before its
    weight is applied. *)
Definition wordScore (metrics : ContentMetrics) : Q :=
  if (500 <=? m_WordCount metrics)%Z then 1
  else if (100 <=? m_WordCount metrics)%Z then inject_Z (m_WordCount metrics) / 500
  else 0.

Definition codeScore (metrics : ContentMetrics) : Q :=
  if (3 <=? m_CodeBlockCount metrics)%Z then 1
  else if (0 <? m_CodeBlockCount metrics)%Z then inject_Z (m_CodeBlockCount metrics) / 3
  else 0.

Definition headerScore (metrics : ContentMetrics) : Q :=
  if (3 <=? m_HeaderCount metrics)%Z then 1
  else if (0 <? m_HeaderCount metrics)%Z then inject_Z (m_HeaderCount metrics) / 3
  else 0.

Definition contentRatioScore (metrics : ContentMetrics) : Q :=
  if Qltb 1 (m_ContentRatio metrics) then 1 else m_ContentRatio metrics.

Definition titleScore (metrics : ContentMetrics) : Q :=
  if m_HasTitle metrics then 1 else 0.

(** [QualityScorer.CalculateScore]. *)
Definition CalculateScore (qs : QualityScorer) (metrics : ContentMetrics) : Q :=
  let score := 0 in
  let score := score + wordScore metrics * w_WordCount (weights qs) in
  let score := score + codeScore metrics * w_CodeBlocks (weights qs) in
  let score := score + headerScore metrics * w_Headers (weights qs) in
  let score := score + contentRatioScore metrics * w_ContentRatio (weights qs) in
  let score := score + titleScore metrics * w_TitlePresence (weights qs) in
  score.

Definition englishWords : list string :=
  [ "the"; "and"; "or"; "but"; "in"; "on"; "at"; "to"; "for"; "of"; "with"; "by" ].

(** [ContentQualityAnalyzer.DetectLanguage]. *)
Definition DetectLanguage (content : string) : string :=
  let words := Fields (ToLower content) in
  let wordMap (w : string) := Z.of_nat (length (filter (fun x => x = w) words)) in
  let englishCount := fold_left (fun acc w => (acc + wordMap w)%Z) englishWords 0%Z in
  if (Z.of_nat (length words) / 20 <? englishCount)%Z then "en" else "unknown".

Definition navIndicators : list string :=
  [ "table of contents"; "navigation"; "site map"; "index"; "directory"; "menu"; "links" ].

(** [ContentQualityAnalyzer.IsNavigationPage]. *)
Definition IsNavigationPage (cqa : ContentQualityAnalyzer) (content : ScrapedContent) : bool :=
  let text := ToLower (sc_Content content) in
  let indicatorCount :=
    fold_left (fun acc indicator => if Contains text indicator then (acc + 1)%Z else acc)
              navIndicators 0%Z in
  let title := ToLower (sc_Title content) in
  let indicatorCount :=
    fold_left (fun acc indicator => if Contains title indicator then (acc + 2)%Z else acc)
              navIndicators indicatorCount in
  let linkCount := Z.of_nat (count_links_from 0 (sc_Content content)) in
  let wordCount := Z.of_nat (length (Fields (sc_Content content))) in
  let indicatorCount :=
    if (0 <? wordCount)%Z && Qltb (3 # 10) (inject_Z linkCount / inject_Z wordCount)
    then (indicatorCount + 1)%Z else indicatorCount in
  (2 <=? indicatorCount)%Z.

(** [ContentQualityAnalyzer.DetectIssues]. *)
Definition DetectIssues (cqa : ContentQualityAnalyzer) (content : ScrapedContent)
  : list QualityIssue :=
  let issues := [] in
  let wordCount := Z.of_nat (length (Fields (sc_Content content))) in
  let issues :=
    if (wordCount <? MinWordCount (config cqa))%Z
    then issues ++ [mkQualityIssue "word_count" "warning"
                      "Content has fewer words than recommended minimum"]
    else issues in
  let issues :=
    if RequireTitle (config cqa)
       && (String.eqb (sc_Title content) "" || String.eqb (sc_Title content) "Untitled")
    then issues ++ [mkQualityIssue "missing_title" "error" "Page is missing a title"]
    else issues in
  let issues :=
    if RequireContent (config cqa) && (len (TrimSpace (sc_Content content)) =? 0)%Z
    then issues ++ [mkQualityIssue "empty_content" "error" "Page has no content"]
    else issues in
  let text := ToLower (sc_Content content) in
  let foundPatterns :=
    filter (fun pattern => Contains text (ToLower pattern) = true)
           (BlacklistPatterns (config cqa)) in
  match foundPatterns with
  | [] => issues
  | first :: others =>
      let description := "Content contains blacklisted pattern" in
      let description :=
        match others with
        | _ :: _ => description +:+ "s: " +:+ Join foundPatterns ", "
        | [] => description +:+ ": " +:+ first
        end in
      issues ++ [mkQualityIssue "blacklisted_content" "warning" description]
  end.

(** [ContentQualityAnalyzer.ShouldSkip]. *)
Definition ShouldSkip (cqa : ContentQualityAnalyzer) (quality : ContentQuality) : bool :=
  if Qltb (Score quality) (3 # 10) then true
  else if SkipNavigationPages (config cqa) && IsNavigationPage_ quality then true
  else existsb (fun issue => String.eqb (Severity issue) "error") (Issues quality).

(** [ContentQualityAnalyzer.generateTags]. *)
Definition generateTags (cqa : ContentQualityAnalyzer) (content : ScrapedContent)
    (metrics : ContentMetrics) : list string :=
  let tags := [] in
  let tags := if (0 <? m_CodeBlockCount metrics)%Z then tags ++ ["technical"] else tags in
  let tags :=
    if (1000 <? m_WordCount metrics)%Z then tags ++ ["long-form"]
    else if (m_WordCount metrics <? 200)%Z then tags ++ ["short-form"]
    else tags in
  let tags := if m_HasHeaders metrics then tags ++ ["structured"] else tags in
  let tags :=
    if (500 <=? m_WordCount metrics)%Z && (2 <=? m_CodeBlockCount metrics)%Z
    then tags ++ ["comprehensive"] else tags in
  if Qltb (m_ContentRatio metrics) (3 # 10) then tags ++ ["low-content"] else tags.

(** [ContentQualityAnalyzer.updateStats]. *)
Definition updateStats (st : QualityStats) (quality : ContentQuality) : QualityStats :=
  let total := (TotalPages st + 1)%Z in
  let passed := if Qle_bool (4 # 10) (Score quality) then (PassedPages st + 1)%Z
                else PassedPages st in
  let failed := if Qle_bool (4 # 10) (Score quality) then FailedPages st
                else (FailedPages st + 1)%Z in
  let totalScore := AverageScore st * inject_Z (total - 1) in
  let totalWords := (AverageWordCount st * (total - 1))%Z in
  mkQualityStats total passed failed
    ((totalScore + Score quality) / inject_Z total)
    (Z.quot (totalWords + WordCount quality) total).

(** [ContentQualityAnalyzer.AnalyzeContent]: the quality record and the
    analyzer with its statistics updated. *)
Definition AnalyzeContent (cqa : ContentQualityAnalyzer) (content : ScrapedContent)
  : ContentQuality * ContentQualityAnalyzer :=
  let metrics := extractMetrics cqa content in
  let score := CalculateScore (scorer cqa) metrics in
  let language := DetectLanguage (sc_Content content) in
  let issues := DetectIssues cqa content in
  let tags := generateTags cqa content metrics in
  let quality :=
    mkContentQuality score (m_WordCount metrics) (m_CodeBlockCount metrics)
      (m_ImageCount metrics) (m_LinkCount metrics) (m_EmptyLineRatio metrics)
      (m_ContentRatio metrics) (m_HasTitle metrics) (m_HasHeaders metrics)
      (IsNavigationPage cqa content) language issues tags in
  (quality, mkContentQualityAnalyzer (config cqa) (scorer cqa) (updateStats (stats cqa) quality)).

Local Close Scope Q_scope.

(** ** scraper/scraper.go: the link admission policy *)

Definition skipExtensions : list string :=
  [ ".pdf"; ".jpg"; ".jpeg"; ".png"; ".gif"; ".zip"; ".tar"; ".gz"; ".mp4"; ".avi"; ".mov" ].

Definition skipPaths : list string :=
  [ "/login"; "/register"; "/api/"; "/admin/"; "/search" ].

(** The test for "invalid formats that look like malformed absolute URLs". *)
Definition looksMalformed (link : string) (linkURL : URL) : bool :=
  negb (IsAbs linkURL)
  && (Contains link "://"
      || ((0 <? String.length link)%nat
          && negb (HasPrefix link "/") && negb (HasPrefix link "#")
          && negb (HasPrefix link "?") && negb (Contains link ".")
          && negb (Contains link "/") && (10 <? String.length link)%nat)).

(** The test for an "invalid absolute URL". *)
Definition absoluteWithoutHost (linkURL : URL) : bool :=
  IsAbs linkURL && (String.eqb (Scheme linkURL) "" || String.eqb (Host linkURL) "").

(** [Scraper.shouldFollowLink]; the calls to the logger are left out. *)
Definition shouldFollowLink (link : string) (baseURL : URL) : bool :=
  match Parse link with
  | None => false
  | Some linkURL =>
      if looksMalformed link linkURL then false
      else
        let resolvedURL := ResolveReference baseURL linkURL in
        if absoluteWithoutHost linkURL then false
        else if negb (String.eqb (Host resolvedURL) (Host baseURL)) then false
        else if existsb (fun ext => HasSuffix (ToLower (Path resolvedURL)) ext) skipExtensions
        then false
        else if String.eqb (Path resolvedURL) (Path baseURL) && nonempty (Fragment resolvedURL)
        then false
        else if existsb (fun path => Contains (Path resolvedURL) path) skipPaths then false
        else true
  end.

(** ** Go's [path] package *)

Module GoPath.
Import GoStrings.

Definition clean_step (rooted : bool) (stack : list string) (elem : string) : list string :=
  if String.eqb elem "" || String.eqb elem "." then stack
  else if String.eqb elem ".." then
    match stack with
    | top :: below =>
        if String.eqb top ".." then (if rooted then stack else elem :: stack) else below
    | [] => if rooted then [] else [elem]
    end
  else elem :: stack.

(** [path.Clean]; [stack] holds the elements kept so far, last first. *)
Definition Clean (p : string) : string :=
  if String.eqb p "" then "."
  else
    let rooted := HasPrefix p "/" in
    let stack := fold_left (clean_step rooted) (Split p "/") [] in
    let body := Join (rev stack) "/" in
    if rooted then "/" +:+ body
    else if String.eqb body "" then "." else body.

(** [path.Dir]. *)
Definition Dir (p : string) : string :=
  Clean (default EmptyString (through_last p "/")).

End GoPath.

Import GoPath.

(** ** scraper/tree.go *)

(** A [*DocumentNode]: an index into the node store of the tree. *)
Definition ptr := nat.

Record DocumentNode := mkDocumentNode {
  n_URL : string;
  n_Path : string;
  n_Title : string;
  n_Content : string;
  n_Depth : Z;
  n_Level : Z;
  n_Parent : option ptr;
  n_Children : list ptr;
  n_Metadata : NodeMetadata;
  n_Index : Z
}.

(** [DocumentTree], with the store of the nodes its pointers refer to.
    [BuildTime] is left out. *)
Record DocumentTree := mkDocumentTree {
  t_nodes : list DocumentNode;
  Root : option ptr;
  NodeMap : gmap string ptr;
  MaxDepth : Z;
  TotalNodes : Z
}.

Definition SortByIndex : string := "index".
Definition SortByTitle : string := "title".
Definition SortByURL : string := "url".
Definition SortByDate : string := "date".

Record TreeConfig := mkTreeConfig {
  BuildingStrategy : string;
  UseURLHierarchy : bool;
  UseBreadcrumbs : bool;
  UseNavigation : bool;
  FallbackToRoot : bool;
  SortChildren_ : bool;
  SortBy : string;
  SortOrder : string;
  AutoIndex : bool;
  PreserveOriginalOrder : bool
}.

Record TreeBuilder := mkTreeBuilder { tb_config : TreeConfig }.

Definition NewTreeBuilder (config : TreeConfig) : TreeBuilder := mkTreeBuilder config.

(** The order in which one [range] loop visits the entries of a map. *)
Definition MapOrder := gmap string ptr -> list (string * ptr).

(** What a call can come to: a result, a nil dereference, or a traversal
    cut short by the bound on its depth. *)
Inductive outcome (A : Type) :=
| Done (a : A)
| Panic
| OutOfFuel.
Arguments Done {A} a.
Arguments Panic {A}.
Arguments OutOfFuel {A}.

Definition bind {A B : Type} (x : outcome A) (f : A -> outcome B) : outcome B :=
  match x with
  | Done a => f a
  | Panic => Panic
  | OutOfFuel => OutOfFuel
  end.

Definition set_node (nodes : list DocumentNode) (p : ptr) (n : DocumentNode)
  : list DocumentNode := <[p := n]> nodes.

Definition with_children (n : DocumentNode) (children : list ptr) : DocumentNode :=
  mkDocumentNode (n_URL n) (n_Path n) (n_Title n) (n_Content n) (n_Depth n) (n_Level n)
    (n_Parent n) children (n_Metadata n) (n_Index n).

Definition with_parent (n : DocumentNode) (parent : option ptr) : DocumentNode :=
  mkDocumentNode (n_URL n) (n_Path n) (n_Title n) (n_Content n) (n_Depth n) (n_Level n)
    parent (n_Children n) (n_Metadata n) (n_Index n).

Definition with_depth_level (n : DocumentNode) (depth level : Z) : DocumentNode :=
  mkDocumentNode (n_URL n) (n_Path n) (n_Title n) (n_Content n) depth level
    (n_Parent n) (n_Children n) (n_Metadata n) (n_Index n).

Definition with_index (n : DocumentNode) (index : Z) : DocumentNode :=
  mkDocumentNode (n_URL n) (n_Path n) (n_Title n) (n_Content n) (n_Depth n) (n_Level n)
    (n_Parent n) (n_Children n) (n_Metadata n) index.

(** [TreeBuilder.extractPath]. *)
Definition extractPath (tb : TreeBuilder) (rawURL : string) : string :=
  match Parse rawURL with
  | None => rawURL
  | Some parsedURL => Path parsedURL
  end.

(** The test of the loop of [findParentByURLHierarchy] on one entry. *)
Definition couldBeParent (parsedURL : URL) (parentPath : string) (existingURL : string) : bool :=
  match Parse existingURL with
  | None => false
  | Some existingParsed =>
      String.eqb (Host existingParsed) (Host parsedURL)
      && (String.eqb (Path existingParsed) parentPath
          || (negb (String.eqb parentPath "/")
              && HasPrefix (Path parsedURL) (Path existingParsed +:+ "/")))
  end.

Fixpoint first_entry (test : string -> bool) (entries : list (string * ptr)) : option ptr :=
  match entries with
  | [] => None
  | (existingURL, existingNode) :: rest =>
      if test existingURL then Some existingNode else first_entry test rest
  end.

(** [TreeBuilder.findParentByURLHierarchy]. *)
Definition findParentByURLHierarchy (range : MapOrder) (tb : TreeBuilder)
    (node : DocumentNode) (tree : DocumentTree) : option ptr :=
  match Parse (n_URL node) with
  | None => None
  | Some parsedURL =>
      let urlPath := Path parsedURL in
      if String.eqb urlPath "/" || String.eqb urlPath "" then Root tree
      else
        let parentPath := Dir urlPath in
        let parentPath := if String.eqb parentPath "." then "/" else parentPath in
        first_entry (couldBeParent parsedURL parentPath) (range (NodeMap tree))
  end.

(** [TreeBuilder.DetermineParent]. *)
Definition DetermineParent (range : MapOrder) (tb : TreeBuilder)
    (node : DocumentNode) (tree : DocumentTree) : option ptr :=
  if UseURLHierarchy (tb_config tb) then findParentByURLHierarchy range tb node tree
  else None.

(** [parent.Children = append(parent.Children, node)]. *)
Definition append_child (nodes : list DocumentNode) (parent child : ptr)
  : list DocumentNode :=
  match nodes !! parent with
  | Some p => set_node nodes parent (with_children p (n_Children p ++ [child]))
  | None => nodes
  end.

(** [TreeBuilder.AddNode]: whether an error is returned, and the tree after
    the call. *)
Definition AddNode (range : MapOrder) (tb : TreeBuilder) (tree : DocumentTree)
    (url : string) (content : ScrapedContent) : bool * DocumentTree :=
  match NodeMap tree !! url with
  | Some _ => (true, tree)
  | None =>
      let node :=
        mkDocumentNode url (extractPath tb url) (sc_Title content) (sc_Content content)
          0 0 None [] (sc_Metadata content) 0 in
      let self := length (t_nodes tree) in
      let parent := DetermineParent range tb node tree in
      let attach_to :=
        match parent with
        | Some p => Some p
        | None => if FallbackToRoot (tb_config tb) then Root tree else None
        end in
      let nodes :=
        match attach_to with
        | Some p => append_child (t_nodes tree ++ [with_parent node (Some p)]) p self
        | None => t_nodes tree ++ [node]
        end in
      (false, mkDocumentTree nodes (Root tree) (<[url := self]> (NodeMap tree))
                (MaxDepth tree) (TotalNodes tree))
  end.

(** [TreeBuilder.calculateNodeDepthAndLevel]; [fuel] bounds the depth of
    the recursion. *)
Fixpoint calculateNodeDepthAndLevel (fuel : nat) (nodes : list DocumentNode)
    (node : ptr) (depth level : Z) : outcome (list DocumentNode) :=
  match fuel with
  | O => OutOfFuel
  | S fuel' =>
      match nodes !! node with
      | None => Panic
      | Some n =>
          fold_left (fun acc child =>
                       bind acc (fun nodes =>
                         calculateNodeDepthAndLevel fuel' nodes child (depth + 1) (level + 1)))
                    (n_Children n)
                    (Done (set_node nodes node (with_depth_level n depth level)))
      end
  end.

(** [TreeBuilder.CalculateDepthAndLevel]. *)
Definition CalculateDepthAndLevel (fuel : nat) (tree : DocumentTree)
  : outcome (list DocumentNode) :=
  match Root tree with
  | Some root => calculateNodeDepthAndLevel fuel (t_nodes tree) root 0 0
  | None => Done (t_nodes tree)
  end.

(** [sort.Slice] is not stable; this is the outcome that keeps equal
    elements in their order. *)
Fixpoint insert_by {A : Type} (less : A -> A -> bool) (x : A) (l : list A) : list A :=
  match l with
  | [] => [x]
  | y :: l' => if less x y then x :: l else y :: insert_by less x l'
  end.

Definition sort_by {A : Type} (less : A -> A -> bool) (l : list A) : list A :=
  fold_right (insert_by less) [] l.

Definition node_less (nodes : list DocumentNode) (sortBy : string) (i j : ptr) : bool :=
  match nodes !! i, nodes !! j with
  | Some a, Some b =>
      if String.eqb sortBy SortByIndex then (n_Index a <? n_Index b)%Z
      else if String.eqb sortBy SortByTitle then String.ltb (n_Title a) (n_Title b)
      else if String.eqb sortBy SortByURL then String.ltb (n_URL a) (n_URL b)
      else if String.eqb sortBy SortByDate
      then (md_LastModified (n_Metadata a) <? md_LastModified (n_Metadata b))%Z
      else false
  | _, _ => false
  end.

Definition is_sort_criterion (sortBy : string) : bool :=
  String.eqb sortBy SortByIndex || String.eqb sortBy SortByTitle
  || String.eqb sortBy SortByURL || String.eqb sortBy SortByDate.

(** [TreeBuilder.SortChildren]. *)
Fixpoint SortChildren (fuel : nat) (nodes : list DocumentNode) (node : option ptr)
    (sortBy : string) : outcome (list DocumentNode) :=
  match fuel with
  | O => OutOfFuel
  | S fuel' =>
      match node with
      | None => Panic
      | Some p =>
          match nodes !! p with
          | None => Panic
          | Some n =>
              if (length (n_Children n) <=? 1)%nat then Done nodes
              else
                let children :=
                  if is_sort_criterion sortBy
                  then sort_by (node_less nodes sortBy) (n_Children n)
                  else n_Children n in
                fold_left (fun acc child =>
                             bind acc (fun nodes => SortChildren fuel' nodes (Some child) sortBy))
                          children
                          (Done (set_node nodes p (with_children n children)))
          end
      end
  end.

(** [TreeBuilder.sortTreeChildren]. *)
Definition sortTreeChildren (fuel : nat) (tb : TreeBuilder) (nodes : list DocumentNode)
    (root : option ptr) : outcome (list DocumentNode) :=
  SortChildren fuel nodes root (SortBy (tb_config tb)).

(** [TreeBuilder.autoIndexNodes]: the store and the next free index. *)
Fixpoint autoIndexNodes (fuel : nat) (nodes : list DocumentNode) (node : option ptr)
    (startIndex : Z) : outcome (list DocumentNode * Z) :=
  match fuel with
  | O => OutOfFuel
  | S fuel' =>
      match node with
      | None => Panic
      | Some p =>
          match nodes !! p with
          | None => Panic
          | Some n =>
              fold_left (fun acc child =>
                           bind acc (fun st =>
                             autoIndexNodes fuel' (fst st) (Some child) (snd st)))
                        (n_Children n)
                        (Done (set_node nodes p (with_index n startIndex), startIndex + 1)%Z)
          end
      end
  end.

(** [TreeBuilder.calculateMaxDepth]. *)
Fixpoint calculateMaxDepth (fuel : nat) (nodes : list DocumentNode) (node : option ptr)
  : outcome Z :=
  match fuel with
  | O => OutOfFuel
  | S fuel' =>
      match node with
      | None => Done 0%Z
      | Some p =>
          match nodes !! p with
          | None => Panic
          | Some n =>
              bind (fold_left (fun acc child =>
                                 bind acc (fun maxChildDepth =>
                                   bind (calculateMaxDepth fuel' nodes (Some child))
                                        (fun childDepth =>
                                           Done (if (maxChildDepth <? childDepth)%Z
                                                 then childDepth else maxChildDepth))))
                              (n_Children n) (Done 0%Z))
                   (fun maxChildDepth => Done (n_Depth n + maxChildDepth)%Z)
          end
      end
  end.

(** The loop "add all other nodes" of [BuildTree]; [i] is the index of the
    first URL of [urls]. *)
Fixpoint addAll (range : MapOrder) (tb : TreeBuilder) (contents : gmap string ScrapedContent)
    (i : nat) (urls : list string) (tree : DocumentTree) : DocumentTree :=
  match urls with
  | [] => tree
  | url :: rest =>
      let tree :=
        if (i =? 0)%nat && bool_decide (is_Some (Root tree)) then tree
        else match contents !! url with
             | Some content => snd (AddNode range tb tree url content)
             | None => tree
             end in
      addAll range tb contents (S i) rest tree
  end.

(** The block "create root node" of [BuildTree]. *)
Definition createRoot (tb : TreeBuilder) (urls : list string)
    (contents : gmap string ScrapedContent) : DocumentTree :=
  let tree := mkDocumentTree [] None ∅ 0 0 in
  match urls with
  | rootURL :: _ =>
      match contents !! rootURL with
      | Some content =>
          mkDocumentTree
            [mkDocumentNode rootURL (extractPath tb rootURL) (sc_Title content)
               (sc_Content content) 0 0 None [] (sc_Metadata content) 0]
            (Some O) (<[rootURL := O]> (NodeMap tree)) 0 0
      | None => tree
      end
  | [] => tree
  end.

(** [TreeBuilder.BuildTree]. *)
Definition BuildTree (range : MapOrder) (tb : TreeBuilder) (urls : list string)
    (contents : gmap string ScrapedContent) : outcome DocumentTree :=
  let tree := createRoot tb urls contents in
  let tree := addAll range tb contents 0 urls tree in
  let fuel := S (length (t_nodes tree)) in
  bind (CalculateDepthAndLevel fuel tree) (fun nodes =>
  bind (if SortChildren_ (tb_config tb) then sortTreeChildren fuel tb nodes (Root tree)
        else Done nodes) (fun nodes =>
  bind (if AutoIndex (tb_config tb)
        then bind (autoIndexNodes fuel nodes (Root tree) 0) (fun st => Done (fst st))
        else Done nodes) (fun nodes =>
  bind (calculateMaxDepth fuel nodes (Root tree)) (fun maxDepth =>
  Done (mkDocumentTree nodes (Root tree) (NodeMap tree) maxDepth
          (Z.of_nat (size (NodeMap tree)))))))).

(** [DocumentTree.FindNode]. *)
Definition FindNode (dt : DocumentTree) (url : string) : option ptr := NodeMap dt !! url.

(** *** The order of [range] and the choice of a parent

    Another order of the entries gives the same parent when all entries that
    pass the test of the loop hold the same node. *)

Definition unambiguous (test : string -> bool) (entries : list (string * ptr)) : bool :=
  match first_entry test entries with
  | None => true
  | Some p => forallb (fun e => negb (test (fst e)) || (snd e =? p)%nat) entries
  end.

Definition unambiguous_parent (tb : TreeBuilder) (url : string) (tree : DocumentTree) : bool :=
  if UseURLHierarchy (tb_config tb) then
    match Parse url with
    | None => true
    | Some parsedURL =>
        let urlPath := Path parsedURL in
        if String.eqb urlPath "/" || String.eqb urlPath "" then true
        else
          let parentPath := Dir urlPath in
          let parentPath := if String.eqb parentPath "." then "/" else parentPath in
          unambiguous (couldBeParent parsedURL parentPath) (map_to_list (NodeMap tree))
    end
  else true.

(** Whether every parent chosen by the loop of [BuildTree] is unambiguous. *)
Fixpoint addAll_unambiguous (tb : TreeBuilder) (contents : gmap string ScrapedContent)
    (i : nat) (urls : list string) (tree : DocumentTree) : bool :=
  match urls with
  | [] => true
  | url :: rest =>
      let '(ok, tree) :=
        if (i =? 0)%nat && bool_decide (is_Some (Root tree)) then (true, tree)
        else match contents !! url with
             | Some content =>
                 (unambiguous_parent tb url tree,
                  snd (AddNode map_to_list tb tree url content))
             | None => (true, tree)
             end in
      ok && addAll_unambiguous tb contents (S i) rest tree
  end.

(** The node a URL is mapped to, and the URL of the parent of that node. *)
Definition node_at (tree : DocumentTree) (url : string) : option DocumentNode :=
  match NodeMap tree !! url with
  | Some p => t_nodes tree !! p
  | None => None
  end.

Definition parent_of (tree : DocumentTree) (url : string) : option DocumentNode :=
  match node_at tree url with
  | Some n =>
      match n_Parent n with
      | Some p => t_nodes tree !! p
      | None => None
      end
  | None => None
  end.

Definition root_of (tree : DocumentTree) : option DocumentNode :=
  match Root tree with
  | Some p => t_nodes tree !! p
  | None => None
  end.

(** * Scenarios and predicates of the properties *)

(** Every value stored in [seenURLs] is [true]. *)
Definition seen_values_true (ld : LinkDeduplicator) : Prop :=
  forall k v, seenURLs ld !! k = Some v -> v = true.

(** The page and the configuration of the "Error 404" scenario. *)
Definition scenario_config : QualityConfig :=
  mkQualityConfig 50 0 0 true false false 0 ["404"] [].

Definition scenario_page : ScrapedContent :=
  mkScrapedContent "https://example.com/missing" "" "Error 404"
    (mkNodeMetadata 2 0 "text/html" false false).

(** A page of 50 words. *)
Definition fifty_words : ScrapedContent :=
  mkScrapedContent "https://example.com/short" "Short" (Repeat "word " 50)
    (mkNodeMetadata 50 0 "text/html" false false).

(** A long, structured page whose title is the place holder [Untitled]. *)
Definition untitled_page : ScrapedContent :=
  mkScrapedContent "https://example.com/long" "Untitled"
    ("# a" +:+ String "010" "# b" +:+ String "010" "# c" +:+ String "010"
       "```x``` ```y``` ```z``` menu " +:+ Repeat "word " 500)
    (mkNodeMetadata 510 0 "text/html" true false).

(** The rejection conditions (d), (e), (f) and (g) of the admission policy,
    on the resolved URL and the origin.  (f), the anchor on the same page,
    is the test the code makes: the same path and a fragment that is not
    empty. *)
Definition host_differs (resolved origin : URL) : bool :=
  negb (String.eqb (Host resolved) (Host origin)).

Definition denied_extensions : list string :=
  [ "pdf"; "jpg"; "jpeg"; "png"; "gif"; "zip"; "tar"; "gz"; "mp4"; "avi"; "mov" ].

Definition has_denied_extension (resolved : URL) : bool :=
  existsb (fun ext => HasSuffix (ToLower (Path resolved)) ("." +:+ ext)) denied_extensions.

Definition same_page_anchor (resolved origin : URL) : bool :=
  String.eqb (Path resolved) (Path origin) && nonempty (Fragment resolved).

Definition has_non_content_path (resolved : URL) : bool :=
  existsb (fun part => Contains (Path resolved) part)
          [ "/login"; "/register"; "/api/"; "/admin/"; "/search" ].

Definition page (url title : string) : string * ScrapedContent :=
  (url, mkScrapedContent url title "text" (mkNodeMetadata 1 0 "text/html" false false)).

(** The four pages of the scenario of C4, with URL-hierarchy parent
    inference and fallback to the root switched on. *)
Definition scenario_urls : list string :=
  [ "https://example.com/"; "https://example.com/docs/";
    "https://example.com/docs/guide/"; "https://example.com/docs/guide/start" ].

Definition scenario_contents : gmap string ScrapedContent :=
  list_to_map
    [ page "https://example.com/" "Home"; page "https://example.com/docs/" "Docs";
      page "https://example.com/docs/guide/" "Guide";
      page "https://example.com/docs/guide/start" "Start" ].

Definition hierarchy_with_fallback : TreeConfig :=
  mkTreeConfig "" true false false true false "" "" false false.

(** Three pages, the second without a page for its directory, with
    URL-hierarchy parent inference on and fallback to the root off. *)
Definition orphan_urls : list string :=
  [ "https://example.com/"; "https://example.com/a/b"; "https://example.com/a/b/c" ].

Definition orphan_contents : gmap string ScrapedContent :=
  list_to_map
    [ page "https://example.com/" "Home"; page "https://example.com/a/b" "B";
      page "https://example.com/a/b/c" "C" ].

Definition hierarchy_without_fallback : TreeConfig :=
  mkTreeConfig "" true false false false false "" "" false false.

(** The bytes that split a URL are not letters: lower case keeps them, and
    makes none. *)
Definition is_delimiter (d : ascii) : bool := byte_in "/:?#.&=" d.

Definition scheme_byte (c : ascii) : bool := is_alpha c || is_digit c || byte_in "+-." c.

(** A scheme as [Parse] stores it: empty, or a letter followed by letters,
    digits and [+ - .], all in lower case. *)
Definition scheme_wf (s : string) : bool :=
  match s with
  | EmptyString => true
  | String c t => is_alpha c && all_bytes scheme_byte t
  end && String.eqb (ToLower s) s.

(** The step of [parse] that splits off the query, on a text written as
    [URL.String] writes it. *)
Definition query_part (forceQuery : bool) (rawQuery : string) : string :=
  if forceQuery || nonempty rawQuery then "?" +:+ rawQuery else "".

Definition no_slash (s : string) : bool := all_bytes (fun c => negb (Ascii.eqb "/" c)) s.

Definition host_wf (h : string) : Prop :=
  all_bytes is_pchar h = true /\ no_slash h = true /\ parseHost h = Some h /\ h <> "".

Definition path_wf (p : string) : Prop :=
  all_bytes is_pchar p = true /\ (p = "" \/ exists t, p = String "/" t).

(** What [Parse] returns for a URL with a host, and what [normalizeFields]
    keeps. *)
Definition hosted (u : URL) : Prop :=
  Opaque u = "" /\ OmitHost u = false
  /\ scheme_wf (Scheme u) = true
  /\ host_wf (Host u)
  /\ path_wf (Path u)
  /\ all_bytes is_query_byte (RawQuery u) = true
  /\ (ForceQuery u = true -> RawQuery u = "")
  /\ all_bytes is_fragment_byte (Fragment u) = true.

Definition scheme_part (scheme : string) : string :=
  if nonempty scheme then scheme +:+ ":" else "".

Definition fragment_part (fragment : string) : string :=
  if nonempty fragment then "#" +:+ fragment else "".

Definition lowerURL (u : URL) : URL :=
  mkURL (ToLower (Scheme u)) (ToLower (Opaque u)) (ToLower (Host u)) (ToLower (Path u))
    (ToLower (RawQuery u)) (ToLower (Fragment u)) (ForceQuery u) (OmitHost u).

(** All of [hosted] but that the host is not empty. *)
Definition fields_wf (u : URL) : Prop :=
  Opaque u = "" /\ OmitHost u = false
  /\ scheme_wf (Scheme u) = true
  /\ (all_bytes is_pchar (Host u) = true /\ no_slash (Host u) = true
      /\ parseHost (Host u) = Some (Host u))
  /\ path_wf (Path u)
  /\ all_bytes is_query_byte (RawQuery u) = true
  /\ (ForceQuery u = true -> RawQuery u = "")
  /\ all_bytes is_fragment_byte (Fragment u) = true.

(** A map of query values as [ParseQuery] builds it: no key with an empty
    list of values. *)
Definition proper (v : Values) : Prop := forall k l, v !! k = Some l -> l <> [].

(** The loop of the "sort query parameters" block over the keys [keys]. *)
Definition rebuild (v : Values) (keys : list string) (acc : Values) : Values :=
  fold_left (fun acc k =>
               fold_left (fun acc x => Values_Add acc k x) (default [] (v !! k)) acc)
            keys acc.





(** * More of the sources *)

(** ** scraper/tree.go: traversals and queries *)

Section TreeTraversals.

Local Open Scope Z_scope.

(** A visitor: the state of its closure after the call, and the error it
    returns, if any.  It reads the node and leaves the tree as it is. *)
Definition Visitor (St E : Type) : Type := St -> ptr -> DocumentNode -> St * option E.

(** [DocumentTree.traverseDepthFirstNode]; [fuel] bounds the depth of the
    recursion. *)
Fixpoint traverseDepthFirstNode {St E : Type} (fuel : nat) (nodes : list DocumentNode)
    (node : ptr) (visitor : Visitor St E) (st : St) : outcome (St * option E) :=
  match fuel with
  | O => OutOfFuel
  | S fuel' =>
      match nodes !! node with
      | None => Panic
      | Some n =>
          match visitor st node n with
          | (st, Some err) => Done (st, Some err)
          | (st, None) =>
              fold_left (fun acc child =>
                           bind acc (fun r =>
                             match r with
                             | (st, Some err) => Done (st, Some err)
                             | (st, None) => traverseDepthFirstNode fuel' nodes child visitor st
                             end))
                        (n_Children n) (Done (st, None))
          end
      end
  end.

(** [DocumentTree.TraverseDepthFirst]. *)
Definition TraverseDepthFirst {St E : Type} (fuel : nat) (dt : DocumentTree)
    (visitor : Visitor St E) (st : St) : outcome (St * option E) :=
  match Root dt with
  | None => Done (st, None)
  | Some root => traverseDepthFirstNode fuel (t_nodes dt) root visitor st
  end.

(** The loop of [TraverseBreadthFirst]; [fuel] bounds the number of its
    rounds. *)
Fixpoint breadthFirstLoop {St E : Type} (fuel : nat) (nodes : list DocumentNode)
    (queue : list ptr) (visitor : Visitor St E) (st : St) : outcome (St * option E) :=
  match fuel with
  | O => OutOfFuel
  | S fuel' =>
      match queue with
      | [] => Done (st, None)
      | node :: queue =>
          match nodes !! node with
          | None => Panic
          | Some n =>
              match visitor st node n with
              | (st, Some err) => Done (st, Some err)
              | (st, None) => breadthFirstLoop fuel' nodes (queue ++ n_Children n) visitor st
              end
          end
      end
  end.

(** [DocumentTree.TraverseBreadthFirst]. *)
Definition TraverseBreadthFirst {St E : Type} (fuel : nat) (dt : DocumentTree)
    (visitor : Visitor St E) (st : St) : outcome (St * option E) :=
  match Root dt with
  | None => Done (st, None)
  | Some root => breadthFirstLoop fuel (t_nodes dt) [root] visitor st
  end.

(** [DocumentTree.GetAllNodes]. *)
Definition GetAllNodes (range : MapOrder) (dt : DocumentTree) : list ptr :=
  fold_left (fun nodes entry => nodes ++ [snd entry]) (range (NodeMap dt)) [].

(** [DocumentTree.GetNodesByLevel]; the error of the traversal is dropped. *)
Definition GetNodesByLevel (fuel : nat) (dt : DocumentTree) (level : Z) : outcome (list ptr) :=
  bind (TraverseDepthFirst (E := unit) fuel dt
          (fun nodes node n => (if (n_Level n =? level)%Z then nodes ++ [node] else nodes, None))
          [])
       (fun r => Done (fst r)).

End TreeTraversals.

(** ** scraper/quality.go: the report

    [GeneratedAt] is left out. *)

(** [QualityReport]; a [PageQuality] is a triple, an [IssueCount] a pair. *)
Record QualityReport := mkQualityReport {
  r_Stats : QualityStats;
  r_TopPages : list (string * string * ContentQuality);
  r_WorstPages : list (string * string * ContentQuality);
  r_CommonIssues : list (string * Z)
}.

(** [ContentQualityAnalyzer.GenerateReport]. *)
Definition GenerateReport (cqa : ContentQualityAnalyzer) : QualityReport :=
  mkQualityReport (stats cqa) [] [] [].

(** ** scraper/scraper.go: robots.txt

    The body of the response is the list of the lines [scanner.Text] yields. *)

Section RobotsTxt.

Local Open Scope Z_scope.

(** [strings.TrimPrefix]. *)
Definition TrimPrefix (s pre : string) : string :=
  if HasPrefix s pre then drop (String.length pre) s else s.

(** [Scraper.checkRobotsTxt]: the loop over the lines of the response. *)
Fixpoint scanRobots (userAgentMatch : bool) (lines : list string) : bool :=
  match lines with
  | [] => true
  | text :: rest =>
      let line := TrimSpace text in
      if HasPrefix (ToLower line) "user-agent:" then
        let agent := TrimSpace (TrimPrefix line "user-agent:") in
        scanRobots (if String.eqb agent "*" then true else userAgentMatch) rest
      else if userAgentMatch && HasPrefix (ToLower line) "disallow:" then
        let disallow := TrimSpace (TrimPrefix line "disallow:") in
        if String.eqb disallow "/" then false else scanRobots userAgentMatch rest
      else scanRobots userAgentMatch rest
  end.

(** The URL [checkRobotsTxt] requests. *)
Definition robotsURL (parsedURL : URL) : string :=
  Scheme parsedURL +:+ "://" +:+ Host parsedURL +:+ "/robots.txt".

(** [Scraper.checkRobotsTxt]; [get] stands for [http.Get]: [None] when the
    request fails, else the status code and the lines of the body.  The
    result is [None] for the error "invalid URL". *)
Definition checkRobotsTxt (get : string -> option (Z * list string)) (rootURL : string)
  : option bool :=
  match Parse rootURL with
  | None => None
  | Some parsedURL =>
      if String.eqb (Scheme parsedURL) "" || String.eqb (Host parsedURL) "" then None
      else
        match get (robotsURL parsedURL) with
        | None => Some true
        | Some (statusCode, lines) =>
            if statusCode =? 404 then Some true else Some (scanRobots false lines)
        end
  end.

End RobotsTxt.

(** ** config/config.go

    The fields of [Config] in the order of the source; a pointer to an
    optional setting is an [option]. *)

Module config.

Local Open Scope Z_scope.

(** [DeduplicationConfig]. *)
Record DeduplicationConfig := mkDeduplicationConfig {
  RemoveFragments : bool;
  RemoveQueryParams : bool;
  IgnoreCase : bool;
  IgnoreWWW : bool;
  IgnoreTrailingSlash : bool
}.

(** [QualityConfig]. *)
Record QualityConfig := mkQualityConfig {
  MinScore : Q;
  MinWordCount : Z;
  RequireTitle : bool;
  RequireContent : bool;
  SkipNavigation : bool;
  BlacklistedPatterns : list string;
  FilterByLanguage : string
}.

(** [DevToolsConfig]. *)
Record DevToolsConfig := mkDevToolsConfig {
  EnableDebugMode : bool;
  EnableDryRun : bool;
  EnableProfiling : bool;
  EnableProgressBar : bool;
  ValidationLevel : string;
  SavePerformanceReport : bool
}.

(** [Config]. *)
Record Config := mkConfig {
  RootURL : string;
  OutputFormat : string;
  OutputType : string;
  OutputDir : string;
  UserAgents : list string;
  MinDelay : Z;
  MaxDelay : Z;
  MaxDepth : Z;
  RespectRobots : bool;
  LogFile : string;
  Verbose : bool;
  Proxies : list string;
  ConcurrentRequests : option Z;
  UseHierarchicalOrdering : option bool;
  EnableDeduplication : option bool;
  EnableQualityAnalysis : option bool;
  EnableDevTools : option bool;
  Deduplication : DeduplicationConfig;
  QualityAnalysis : QualityConfig;
  DevTools : DevToolsConfig
}.

(** [DefaultUserAgents]. *)
Definition DefaultUserAgents : list string :=
  [ "Mozilla/5.0 (Windows NT 10.0; Win64; x64) AppleWebKit/537.36 (KHTML, like Gecko) Chrome/91.0.4472.124 Safari/537.36";
    "Mozilla/5.0 (Macintosh; Intel Mac OS X 10_15_7) AppleWebKit/537.36 (KHTML, like Gecko) Chrome/91.0.4472.124 Safari/537.36";
    "Mozilla/5.0 (X11; Linux x86_64) AppleWebKit/537.36 (KHTML, like Gecko) Chrome/91.0.4472.124 Safari/537.36";
    "Mozilla/5.0 (Windows NT 10.0; Win64; x64; rv:89.0) Gecko/20100101 Firefox/89.0";
    "Mozilla/5.0 (Macintosh; Intel Mac OS X 10.15; rv:89.0) Gecko/20100101 Firefox/89.0";
    "Mozilla/5.0 (X11; Linux x86_64; rv:89.0) Gecko/20100101 Firefox/89.0";
    "Mozilla/5.0 (Windows NT 10.0; Win64; x64) AppleWebKit/537.36 (KHTML, like Gecko) Edge/91.0.864.59";
    "Mozilla/5.0 (Macintosh; Intel Mac OS X 10_15_7) AppleWebKit/605.1.15 (KHTML, like Gecko) Version/14.1.1 Safari/605.1.15" ].

(** [contains]. *)
Definition contains (slice : list string) (item : string) : bool :=
  existsb (fun s => String.eqb s item) slice.

(** [Config.Validate]: [None] for [nil], [Some message] for an error. *)
Definition Validate (c : Config) : option string :=
  if String.eqb (RootURL c) "" then Some "root_url is required"
  else
    match Parse (RootURL c) with
    | None => Some "invalid root_url"
    | Some parsedURL =>
        if String.eqb (Scheme parsedURL) "" || String.eqb (Host parsedURL) ""
        then Some "invalid root_url"
        else if MinDelay c <? 0 then Some "min_delay cannot be negative"
        else if MaxDelay c <? MinDelay c
        then Some "max_delay must be greater than or equal to min_delay"
        else if MaxDepth c <? 0 then Some "max_depth cannot be negative"
        else if negb (contains ["markdown"; "text"; "json"] (OutputFormat c))
        then Some "invalid output_format"
        else if negb (contains ["single"; "per-page"] (OutputType c))
        then Some "invalid output_type"
        else if existsb (fun proxy => String.eqb proxy "" || Contains proxy "not-a-valid")
                        (Proxies c)
        then Some "invalid proxy URL"
        else match ConcurrentRequests c with
             | Some n => if n <=? 0 then Some "concurrent_requests must be greater than 0"
                         else None
             | None => None
             end
    end.

(** [Config.GetRandomProxy]: the first proxy. *)
Definition GetRandomProxy (c : Config) : string :=
  match Proxies c with
  | [] => ""
  | first :: _ => first
  end.

(** [Config.HasProxies]. *)
Definition HasProxies (c : Config) : bool := (0 <? length (Proxies c))%nat.

(** The getters of the optional settings, with their defaults. *)
Definition GetConcurrentRequests (c : Config) : Z := default 2 (ConcurrentRequests c).

Definition GetUseHierarchicalOrdering (c : Config) : bool :=
  default false (UseHierarchicalOrdering c).

Definition GetEnableDeduplication (c : Config) : bool :=
  default true (EnableDeduplication c).

Definition GetEnableQualityAnalysis (c : Config) : bool :=
  default false (EnableQualityAnalysis c).

Definition GetEnableDevTools (c : Config) : bool :=
  default false (EnableDevTools c).

(** [Config.SetDefaults]. *)
Definition SetDefaults (c : Config) : Config :=
  let deduplication :=
    if negb (RemoveFragments (Deduplication c)) && negb (RemoveQueryParams (Deduplication c))
    then mkDeduplicationConfig true false true true true
    else Deduplication c in
  let qualityAnalysis :=
    if Qeq_bool (MinScore (QualityAnalysis c)) 0
    then mkQualityConfig (1 # 2) 50 true true true ["404"; "not found"; "error"] ""
    else QualityAnalysis c in
  let devTools :=
    if String.eqb (ValidationLevel (DevTools c)) ""
    then mkDevToolsConfig false false false true "normal" false
    else DevTools c in
  let userAgents :=
    match UserAgents c with
    | [] => DefaultUserAgents
    | _ => UserAgents c
    end in
  let outputFormat := if String.eqb (OutputFormat c) "" then "markdown" else OutputFormat c in
  let outputType := if String.eqb (OutputType c) "" then "single" else OutputType c in
  let '(minDelay, maxDelay) :=
    if (MinDelay c =? 0) && (MaxDelay c =? 0) then (1, 3) else (MinDelay c, MaxDelay c) in
  let maxDepth := if MaxDepth c =? 0 then 5 else MaxDepth c in
  mkConfig (RootURL c) outputFormat outputType (OutputDir c) userAgents minDelay maxDelay
    maxDepth (RespectRobots c) (LogFile c) (Verbose c) (Proxies c) (ConcurrentRequests c)
    (UseHierarchicalOrdering c) (EnableDeduplication c) (EnableQualityAnalysis c)
    (EnableDevTools c) deduplication qualityAnalysis devTools.

End config.

(** * Predicates of the further properties *)

Section FurtherPredicates.

Local Open Scope Z_scope.

(** The canonical forms [canonicalMap] holds are those [NormalizeURL]
    computes. *)
Definition canonical_ok (ld : LinkDeduplicator) : Prop :=
  forall k c, canonicalMap ld !! k = Some c -> NormalizeURL ld k = Some c.

(** [AnalyzeContent] on one page after the other, as the callback of the
    scraper calls it. *)
Fixpoint AnalyzeContents (cqa : ContentQualityAnalyzer) (contents : list ScrapedContent)
  : list ContentQuality * ContentQualityAnalyzer :=
  match contents with
  | [] => ([], cqa)
  | content :: rest =>
      let '(quality, cqa') := AnalyzeContent cqa content in
      let '(qualities, cqa'') := AnalyzeContents cqa' rest in
      (quality :: qualities, cqa'')
  end.

(** The test of [updateStats]. *)
Definition passes (quality : ContentQuality) : bool := Qle_bool (4 # 10) (Score quality).

(** The words of all pages. *)
Definition total_words (qualities : list ContentQuality) : Z :=
  fold_right Z.add 0 (map WordCount qualities).

(** What [updateStats] keeps of the statistics, for [passed] pages over the
    passing score and [words] words so far. *)
Definition stats_ok (st : QualityStats) (passed words : Z) : Prop :=
  0 <= TotalPages st /\ PassedPages st = passed
  /\ PassedPages st + FailedPages st = TotalPages st
  /\ 0 <= AverageWordCount st /\ AverageWordCount st * TotalPages st <= words.

(** The children and the parent a pointer leads to; nothing for a pointer
    outside the store. *)
Definition children_of (nodes : list DocumentNode) (p : ptr) : list ptr :=
  match nodes !! p with
  | Some n => n_Children n
  | None => []
  end.

Definition parent_at (nodes : list DocumentNode) (c : ptr) : option ptr :=
  match nodes !! c with
  | Some n => n_Parent n
  | None => None
  end.

(** The links of a store form a forest: a child is stored after its parent,
    [Children] and [Parent] agree, and no child is listed twice. *)
Record wf_store (nodes : list DocumentNode) : Prop := mk_wf_store {
  wf_forward : forall p c, c ∈ children_of nodes p -> (p < c < length nodes)%nat;
  wf_child_parent : forall p c, c ∈ children_of nodes p -> parent_at nodes c = Some p;
  wf_parent_child : forall p c, parent_at nodes c = Some p -> c ∈ children_of nodes p;
  wf_NoDup : forall p, NoDup (children_of nodes p)
}.

(** The pointers of a tree lead into its store, every node is indexed under
    its URL, and the root has no parent. *)
Record wf_tree (tree : DocumentTree) : Prop := mk_wf_tree {
  wf_nodes : wf_store (t_nodes tree);
  wf_NodeMap : forall url p,
    NodeMap tree !! url = Some p
    <-> exists n, t_nodes tree !! p = Some n /\ n_URL n = url;
  wf_Root : forall r, Root tree = Some r -> r = O /\ parent_at (t_nodes tree) r = None
                                         /\ (0 < length (t_nodes tree))%nat
}.

(** What a traversal leaves as it is: a field [f] of every node. *)
Definition agree {A : Type} (f : DocumentNode -> A) (nodes nodes' : list DocumentNode) : Prop :=
  forall q : nat, f <$> nodes' !! q = f <$> nodes !! q.

(** Stores with the same parents and, up to their order, the same children. *)
Definition same_links (nodes nodes' : list DocumentNode) : Prop :=
  length nodes' = length nodes
  /\ (forall q : nat, parent_at nodes' q = parent_at nodes q)
  /\ (forall q : nat, children_of nodes' q ≡ₚ children_of nodes q).

(** [desc_at nodes p q k]: [q] lies [k] links below [p]. *)
Inductive desc_at (nodes : list DocumentNode) (p : ptr) : ptr -> Z -> Prop :=
| desc_here : desc_at nodes p p 0
| desc_child q c k :
    desc_at nodes p q k -> c ∈ children_of nodes q -> desc_at nodes p c (k + 1).

Definition without_levels (n : DocumentNode) : DocumentNode := with_depth_level n 0 0.

(** The result of [calculateNodeDepthAndLevel]. *)
Definition levels_set (nodes nodes' : list DocumentNode) (p : ptr) (d l : Z) : Prop :=
  agree without_levels nodes nodes'
  /\ (forall q : nat, (forall k, ~ desc_at nodes p q k) -> nodes' !! q = nodes !! q)
  /\ (forall (q : nat) k, desc_at nodes p q k ->
        n_Depth <$> nodes' !! q = Some (d + k)%Z /\ n_Level <$> nodes' !! q = Some (l + k)%Z).

Definition without_children (n : DocumentNode) : DocumentNode := with_children n [].

Definition without_index (n : DocumentNode) : DocumentNode := with_index n 0.

(** The result of [SortChildren]: the same nodes, the children of each in
    another order, nothing changed before [p]. *)
Definition children_sorted (nodes nodes' : list DocumentNode) (p : ptr) : Prop :=
  agree without_children nodes nodes'
  /\ (forall q : nat, children_of nodes' q ≡ₚ children_of nodes q)
  /\ (forall q : nat, (q < p)%nat -> nodes' !! q = nodes !! q).

(** Twice the sum of the depths [a], [a] + 1, ..., [a] + [k]. *)
Definition depth_sum2 (a k : Z) : Z := ((a + k) * (a + k + 1) - a * (a - 1))%Z.

(** The URL, the path, the title, the content, the parent and the metadata
    of a node: what no pass of [BuildTree] changes. *)
Definition payload (n : DocumentNode)
  : string * string * string * string * option ptr * NodeMetadata :=
  (n_URL n, n_Path n, n_Title n, n_Content n, n_Parent n, n_Metadata n).

(** What the loop of [BuildTree] keeps: the links form a forest, every node
    carries the page of its URL, no level or index is set yet, and, with
    [FallbackToRoot] and a root, every other node has a parent. *)
Record built (tb : TreeBuilder) (contents : gmap string ScrapedContent)
    (tree : DocumentTree) : Prop := mk_built {
  b_wf : wf_tree tree;
  b_page : forall (q : nat) n, t_nodes tree !! q = Some n ->
    exists content, contents !! n_URL n = Some content
                    /\ n_Path n = extractPath tb (n_URL n)
                    /\ n_Title n = sc_Title content
                    /\ n_Content n = sc_Content content
                    /\ n_Metadata n = sc_Metadata content;
  b_zero : forall (q : nat) n, t_nodes tree !! q = Some n ->
    n_Depth n = 0%Z /\ n_Level n = 0%Z /\ n_Index n = 0%Z;
  b_size : length (t_nodes tree) = size (NodeMap tree);
  b_attached : FallbackToRoot (tb_config tb) = true -> is_Some (Root tree) ->
    forall q : nat, (0 < q < length (t_nodes tree))%nat -> is_Some (parent_at (t_nodes tree) q)
}.

(** The levels of a node. *)
Definition levels (n : DocumentNode) : Z * Z := (n_Depth n, n_Level n).

(** Stores that differ in the order of the children and in the indexes. *)
Definition reordered (nodes nodes' : list DocumentNode) : Prop :=
  same_links nodes nodes' /\ agree payload nodes nodes' /\ agree levels nodes nodes'.

(** The calls of a visitor on the nodes of a list, in its order, up to the
    first error. *)
Fixpoint visit_all {St E : Type} (visitor : Visitor St E) (nodes : list DocumentNode)
    (order : list ptr) (st : St) : St * option E :=
  match order with
  | [] => (st, None)
  | p :: rest =>
      match nodes !! p with
      | None => (st, None)
      | Some n =>
          match visitor st p n with
          | (st, Some err) => (st, Some err)
          | (st, None) => visit_all visitor nodes rest st
          end
      end
  end.

(** A node, then the nodes below its first child, then those below the
    next, and so on. *)
Fixpoint preorder (fuel : nat) (nodes : list DocumentNode) (p : ptr) : list ptr :=
  match fuel with
  | O => []
  | S fuel' => p :: (children_of nodes p ≫= preorder fuel' nodes)
  end.

(** The nodes in the order in which a queue hands them out. *)
Fixpoint level_order (fuel : nat) (nodes : list DocumentNode) (queue : list ptr) : list ptr :=
  match fuel with
  | O => []
  | S fuel' =>
      match queue with
      | [] => []
      | p :: queue => p :: level_order fuel' nodes (queue ++ children_of nodes p)
      end
  end.

End FurtherPredicates.

(** * Properties *)

(** ** The duplicate index *)

Section Deduplicator.

Lemma NormalizeURL_normalizer ld ld' rawURL :
  normalizer ld = normalizer ld' -> NormalizeURL ld rawURL = NormalizeURL ld' rawURL.
Proof. unfold NormalizeURL. intros ->. reflexivity. Qed.

Lemma AddURL_normalizer ld rawURL : normalizer (snd (AddURL ld rawURL)) = normalizer ld.
Proof.
  unfold AddURL. destruct (NormalizeURL ld rawURL) as [c|]; [|reflexivity].
  destruct (seen ld c); reflexivity.
Qed.

Lemma AddURLs_normalizer rawURLs : forall ld,
  normalizer (snd (AddURLs ld rawURLs)) = normalizer ld.
Proof.
  induction rawURLs as [|u rest IH]; intros ld; simpl; [reflexivity|].
  destruct (AddURL ld u) as [r ld'] eqn:E.
  specialize (IH ld'). destruct (AddURLs ld' rest) as [rs ld''] eqn:E'. simpl in *.
  rewrite IH. change ld' with (snd (r, ld')). rewrite <- E. apply AddURL_normalizer.
Qed.

Lemma seen_false_lookup ld key :
  seen_values_true ld -> seen ld key = false -> seenURLs ld !! key = None.
Proof.
  unfold seen. intros Hv. destruct (seenURLs ld !! key) as [v|] eqn:E; [|reflexivity].
  rewrite (Hv _ _ E). discriminate.
Qed.

(** The two ways a call can end. *)
Lemma AddURL_cases ld rawURL :
  (fst (AddURL ld rawURL) = true
   /\ exists c, NormalizeURL ld rawURL = Some c /\ seen ld c = false
      /\ seenURLs (snd (AddURL ld rawURL)) = <[c := true]> (seenURLs ld)
      /\ duplicateCount (snd (AddURL ld rawURL)) = duplicateCount ld)
  \/ (fst (AddURL ld rawURL) = false
      /\ (NormalizeURL ld rawURL = None
          \/ exists c, NormalizeURL ld rawURL = Some c /\ seen ld c = true)
      /\ seenURLs (snd (AddURL ld rawURL)) = seenURLs ld
      /\ duplicateCount (snd (AddURL ld rawURL)) = wrap64 (duplicateCount ld + 1)).
Proof.
  unfold AddURL. destruct (NormalizeURL ld rawURL) as [c|] eqn:En.
  - destruct (seen ld c) eqn:Es; simpl.
    + right. repeat split; eauto.
    + left. split; [reflexivity|]. exists c. repeat split; auto.
  - right. simpl. repeat split; auto.
Qed.

Lemma AddURL_values_true ld rawURL :
  seen_values_true ld -> seen_values_true (snd (AddURL ld rawURL)).
Proof.
  intros Hv k v. destruct (AddURL_cases ld rawURL) as [(_ & c & _ & _ & -> & _)|(_ & _ & -> & _)].
  - rewrite lookup_insert. case_decide; [congruence|apply Hv].
  - apply Hv.
Qed.

Lemma seen_after_AddURL ld rawURL key :
  seen (snd (AddURL ld rawURL)) key = true
  <-> seen ld key = true \/ NormalizeURL ld rawURL = Some key.
Proof.
  unfold seen at 1.
  destruct (AddURL_cases ld rawURL)
    as [(_ & c & En & Es & -> & _)|(_ & Hn & -> & _)].
  - rewrite lookup_insert. case_decide as Hk; simpl.
    + subst. split; [auto|reflexivity].
    + fold (seen ld key). split; [auto|]. intros [H|H]; [exact H|congruence].
  - fold (seen ld key). split; [auto|]. intros [H|H]; [exact H|].
    destruct Hn as [Hn|(c & Hn & Hs)]; congruence.
Qed.

Lemma seen_after_AddURLs rawURLs : forall ld key,
  seen (snd (AddURLs ld rawURLs)) key = true
  <-> seen ld key = true \/ exists v, v ∈ rawURLs /\ NormalizeURL ld v = Some key.
Proof.
  induction rawURLs as [|u rest IH]; intros ld key; simpl.
  - split; [auto|]. intros [H|(v & Hv & _)]; [exact H|]. inversion Hv.
  - pose proof (seen_after_AddURL ld u key) as H1.
    pose proof (AddURL_normalizer ld u) as Hn.
    destruct (AddURL ld u) as [r ld'] eqn:E. simpl in *.
    specialize (IH ld' key). destruct (AddURLs ld' rest) as [rs ld''] eqn:E'. simpl in *.
    rewrite IH, H1. split.
    + intros [[H|H]|(v & Hv & H)]; [auto| |].
      * right. exists u. split; [left|exact H].
      * right. exists v. split; [right; exact Hv|].
        rewrite <- H. apply NormalizeURL_normalizer. congruence.
    + intros [H|(v & Hv & H)]; [auto|].
      apply elem_of_cons in Hv as [->|Hv]; [auto|].
      right. exists v. split; [exact Hv|].
      rewrite <- H. apply NormalizeURL_normalizer. congruence.
Qed.

Lemma wrap64_small z : (- 2 ^ 63 <= z < 2 ^ 63)%Z -> wrap64 z = z.
Proof. intros H. unfold wrap64. rewrite Z.mod_small; lia. Qed.

(** The counters after a sequence of calls on a deduplicator whose
    counter is [0 <= duplicateCount]: both grow by at most one per call,
    and together by exactly one. *)
Lemma AddURLs_counters rawURLs : forall ld,
  seen_values_true ld ->
  (0 <= duplicateCount ld)%Z ->
  (duplicateCount ld + Z.of_nat (length rawURLs) < 2 ^ 63)%Z ->
  let ld' := snd (AddURLs ld rawURLs) in
  seen_values_true ld'
  /\ (duplicateCount ld <= duplicateCount ld')%Z
  /\ (GetSeenURLsCount ld' + duplicateCount ld'
      = GetSeenURLsCount ld + duplicateCount ld + Z.of_nat (length rawURLs))%Z.
Proof.
  induction rawURLs as [|u rest IH]; intros ld Hv H0 Hb; simpl.
  - split; [exact Hv|]. split; lia.
  - pose proof (AddURL_values_true ld u Hv) as Hv'.
    pose proof (AddURL_cases ld u) as Hc.
    destruct (AddURL ld u) as [r ld'] eqn:E. simpl in *.
    assert (Hstep : (0 <= duplicateCount ld')%Z
              /\ (duplicateCount ld <= duplicateCount ld' <= duplicateCount ld + 1)%Z
              /\ (GetSeenURLsCount ld' + duplicateCount ld'
                  = GetSeenURLsCount ld + duplicateCount ld + 1)%Z).
    { unfold GetSeenURLsCount.
      destruct Hc as [(_ & c & _ & Hs & Hm & Hd)|(_ & _ & Hm & Hd)]; rewrite Hm, Hd.
      - rewrite map_size_insert_None by (apply seen_false_lookup; assumption). lia.
      - rewrite wrap64_small by lia. lia. }
    destruct Hstep as (H0' & Hd' & Hsum).
    specialize (IH ld' Hv' H0'). destruct (AddURLs ld' rest) as [rs ld''] eqn:E'.
    simpl in *. destruct IH as (IH1 & IH2 & IH3); [lia|].
    split; [exact IH1|]. split; lia.
Qed.

Lemma fresh_values_true cfg : seen_values_true (NewLinkDeduplicator cfg).
Proof. intros k v. simpl. rewrite lookup_empty. discriminate. Qed.

End Deduplicator.

(** C1.  On a new deduplicator, after any calls [before], a call whose
    argument normalizes to a canonical form returns [true] when no earlier
    argument had that canonical form; when an earlier argument had it, the
    call returns [false] and the duplicate counter grows by exactly one. *)
Theorem AddURL_true_once_per_canonical_form :
  forall (cfg : URLNormalizer) (before : list string) (rawURL canonical : string),
    let fresh := NewLinkDeduplicator cfg in
    let ld := snd (AddURLs fresh before) in
    NormalizeURL fresh rawURL = Some canonical ->
    (Z.of_nat (length before) < 2 ^ 63 - 1)%Z ->
    ((forall v, v ∈ before -> NormalizeURL fresh v <> Some canonical) ->
       fst (AddURL ld rawURL) = true)
    /\ ((exists v, v ∈ before /\ NormalizeURL fresh v = Some canonical) ->
          fst (AddURL ld rawURL) = false
          /\ GetDuplicateCount (snd (AddURL ld rawURL)) = (GetDuplicateCount ld + 1)%Z).
Proof.
  intros cfg before rawURL canonical fresh ld Hn Hlen.
  assert (Hn' : NormalizeURL ld rawURL = Some canonical).
  { rewrite <- Hn. apply NormalizeURL_normalizer. apply AddURLs_normalizer. }
  pose proof (seen_after_AddURLs before fresh canonical) as Hseen. fold ld in Hseen.
  destruct (AddURLs_counters before fresh (fresh_values_true cfg)) as (Hv & Hd & Hsum);
    [simpl; lia|simpl; lia|]. fold ld in Hv, Hd, Hsum.
  assert (Hs0 : GetSeenURLsCount fresh = 0%Z) by reflexivity.
  assert (Hd0 : duplicateCount fresh = 0%Z) by reflexivity.
  assert (Hs : (0 <= GetSeenURLsCount ld)%Z) by (unfold GetSeenURLsCount; lia).
  split.
  - intros Hnone.
    destruct (AddURL_cases ld rawURL) as [(Ht & _)|(_ & Hdup & _)]; [exact Ht|].
    destruct Hdup as [Hdup|(c & Hc & Hsc)]; [congruence|].
    assert (c = canonical) by congruence. subst c.
    apply Hseen in Hsc as [Hsc|(v & Hv1 & Hv2)]; [discriminate|].
    exfalso. exact (Hnone v Hv1 Hv2).
  - intros Hsome.
    assert (Hsc : seen ld canonical = true) by (apply Hseen; right; exact Hsome).
    destruct (AddURL_cases ld rawURL) as [(_ & c & Hc & Hf & _)|(Hf & _ & _ & Hdc)].
    + congruence.
    + split; [exact Hf|]. unfold GetDuplicateCount. rewrite Hdc.
      apply wrap64_small. lia.
Qed.

Lemma AddURL_true_once_per_canonical_form_witness :
  let cfg := mkURLNormalizer true false false true false false in
  let fresh := NewLinkDeduplicator cfg in
  let ld := snd (AddURLs fresh ["https://example.com/page#section"]) in
  fst (AddURL fresh "https://example.com/page#section") = true
  /\ fst (AddURL ld "https://EXAMPLE.com/page") = false
  /\ GetDuplicateCount (snd (AddURL ld "https://EXAMPLE.com/page")) = (GetDuplicateCount ld + 1)%Z.
Proof.
  intros cfg fresh ld.
  split.
  - apply (AddURL_true_once_per_canonical_form cfg [] "https://example.com/page#section"
             "https://example.com/page"); [reflexivity|simpl; lia|].
    intros v Hv. inversion Hv.
  - apply (AddURL_true_once_per_canonical_form cfg ["https://example.com/page#section"]
             "https://EXAMPLE.com/page" "https://example.com/page"); [reflexivity|simpl; lia|].
    exists "https://example.com/page#section". split; [left|reflexivity].
Defined.

(** C10.  On a deduplicator that is new or was just reset, after any calls,
    one more call either returns [true], adds one to the number of seen
    URLs and leaves the duplicate counter, or returns [false], adds one to
    the duplicate counter and leaves the number of seen URLs; the number of
    calls made is the sum of the two counters. *)
Theorem AddURL_conserves_calls :
  forall (ld0 : LinkDeduplicator) (calls : list string) (rawURL : string),
    (exists cfg, ld0 = NewLinkDeduplicator cfg) \/ (exists prev, ld0 = Reset prev) ->
    (Z.of_nat (length calls) < 2 ^ 63 - 1)%Z ->
    let ld := snd (AddURLs ld0 calls) in
    let ld' := snd (AddURL ld rawURL) in
    ((fst (AddURL ld rawURL) = true
      /\ GetSeenURLsCount ld' = (GetSeenURLsCount ld + 1)%Z
      /\ GetDuplicateCount ld' = GetDuplicateCount ld)
     \/ (fst (AddURL ld rawURL) = false
         /\ GetDuplicateCount ld' = (GetDuplicateCount ld + 1)%Z
         /\ GetSeenURLsCount ld' = GetSeenURLsCount ld))
    /\ Z.of_nat (length calls) = (GetSeenURLsCount ld + GetDuplicateCount ld)%Z.
Proof.
  intros ld0 calls rawURL Hfresh Hlen ld ld'.
  assert (H0 : seen_values_true ld0 /\ duplicateCount ld0 = 0%Z /\ GetSeenURLsCount ld0 = 0%Z).
  { destruct Hfresh as [[cfg ->]|[prev ->]]; (split; [|split; reflexivity]);
      intros k v; simpl; rewrite lookup_empty; discriminate. }
  destruct H0 as (Hv0 & Hd0 & Hs0).
  destruct (AddURLs_counters calls ld0 Hv0) as (Hv & Hd & Hsum); [lia|lia|].
  fold ld in Hv, Hd, Hsum. unfold GetDuplicateCount.
  split; [|lia].
  assert (Hs : (0 <= GetSeenURLsCount ld)%Z) by (unfold GetSeenURLsCount; lia).
  unfold ld'.
  destruct (AddURL_cases ld rawURL)
    as [(Ht & c & _ & Hsc & Hm & Hdc)|(Hf & _ & Hm & Hdc)].
  - left. split; [exact Ht|]. split; [|exact Hdc].
    unfold GetSeenURLsCount. rewrite Hm.
    rewrite map_size_insert_None by (apply seen_false_lookup; assumption). lia.
  - right. split; [exact Hf|]. split.
    + rewrite Hdc. apply wrap64_small. lia.
    + unfold GetSeenURLsCount. rewrite Hm. reflexivity.
Qed.

Lemma AddURL_conserves_calls_witness :
  let ld := snd (AddURLs (Reset (NewLinkDeduplicator (mkURLNormalizer false false false true false false)))
                   ["https://example.com/page1"; "https://example.com/page1";
                    "https://example.com/page2"]) in
  3%Z = (GetSeenURLsCount ld + GetDuplicateCount ld)%Z.
Proof.
  intros ld.
  apply (AddURL_conserves_calls
           (Reset (NewLinkDeduplicator (mkURLNormalizer false false false true false false)))
           ["https://example.com/page1"; "https://example.com/page1";
            "https://example.com/page2"] "https://example.com/page3").
  - right. eexists. reflexivity.
  - simpl. lia.
Defined.

(** *** Calls that run next to each other *)

(** One call alone: its two steps give what [AddURL] gives. *)
Lemma AddURL_as_steps ld rawURL :
  let '(ld1, c1) := AddURL_step ld (Calling rawURL) in
  let '(ld2, c2) := AddURL_step ld1 c1 in
  ld2 = snd (AddURL ld rawURL) /\ c2 = Returned (fst (AddURL ld rawURL)).
Proof.
  unfold AddURL_step, AddURL.
  destruct (NormalizeURL ld rawURL) as [c|]; [|split; reflexivity].
  destruct (seen ld c); split; reflexivity.
Qed.

(** The claim C9 fails: the second call makes its test before the first
    call makes its assignment, and both return [true]. *)
Lemma AddURL_interleaved_both_succeed :
  let ld := NewLinkDeduplicator (mkURLNormalizer false false false true true false) in
  NormalizeURL ld "https://example.com/docs/" = NormalizeURL ld "https://Example.com/docs/"
  /\ exists ld',
      run_two [false; true; false; true] ld
        (Calling "https://example.com/docs/") (Calling "https://Example.com/docs/")
      = (ld', Returned true, Returned true).
Proof. split; [reflexivity|]. eexists. vm_compute. reflexivity. Qed.

(** C9, amended.  When one of two calls with the same canonical form runs
    to its end before the other starts, the later call returns [false]: in
    either order at most one of the two returns [true], and the outcome is
    that of two [AddURL] calls in a row. *)
Theorem AddURL_one_after_the_other :
  forall (ld : LinkDeduplicator) (u1 u2 canonical : string),
    NormalizeURL ld u1 = Some canonical ->
    NormalizeURL ld u2 = Some canonical ->
    run_two [false; false; true; true] ld (Calling u1) (Calling u2)
    = (snd (AddURL (snd (AddURL ld u1)) u2),
       Returned (fst (AddURL ld u1)), Returned false)
    /\ run_two [true; true; false; false] ld (Calling u1) (Calling u2)
       = (snd (AddURL (snd (AddURL ld u2)) u1),
          Returned false, Returned (fst (AddURL ld u2))).
Proof.
  intros ld u1 u2 c H1 H2.
  assert (Hlater : forall a b, NormalizeURL ld a = Some c -> NormalizeURL ld b = Some c ->
            fst (AddURL (snd (AddURL ld a)) b) = false).
  { intros a b Ha Hb.
    assert (Hs : seen (snd (AddURL ld a)) c = true)
      by (apply seen_after_AddURL; right; exact Ha).
    assert (Hb' : NormalizeURL (snd (AddURL ld a)) b = Some c).
    { rewrite <- Hb. apply NormalizeURL_normalizer, AddURL_normalizer. }
    unfold AddURL at 1. rewrite Hb', Hs. reflexivity. }
  split; cbn [run_two].
  - pose proof (AddURL_as_steps ld u1) as A1.
    destruct (AddURL_step ld (Calling u1)) as [l1 c1].
    destruct (AddURL_step l1 c1) as [l2 c2]. destruct A1 as [-> ->].
    pose proof (AddURL_as_steps (snd (AddURL ld u1)) u2) as A2.
    destruct (AddURL_step (snd (AddURL ld u1)) (Calling u2)) as [l3 c3].
    destruct (AddURL_step l3 c3) as [l4 c4]. destruct A2 as [-> ->].
    rewrite (Hlater u1 u2 H1 H2). reflexivity.
  - pose proof (AddURL_as_steps ld u2) as A1.
    destruct (AddURL_step ld (Calling u2)) as [l1 c1].
    destruct (AddURL_step l1 c1) as [l2 c2]. destruct A1 as [-> ->].
    pose proof (AddURL_as_steps (snd (AddURL ld u2)) u1) as A2.
    destruct (AddURL_step (snd (AddURL ld u2)) (Calling u1)) as [l3 c3].
    destruct (AddURL_step l3 c3) as [l4 c4]. destruct A2 as [-> ->].
    rewrite (Hlater u2 u1 H2 H1). reflexivity.
Qed.

Lemma AddURL_one_after_the_other_witness :
  let ld := NewLinkDeduplicator (mkURLNormalizer false false false true true false) in
  snd (run_two [false; false; true; true] ld
         (Calling "https://example.com/docs/") (Calling "https://Example.com/docs/"))
  = Returned false.
Proof.
  intros ld.
  destruct (AddURL_one_after_the_other ld "https://example.com/docs/"
              "https://Example.com/docs/" "https://example.com/docs/"
              eq_refl eq_refl) as [H _].
  rewrite H. reflexivity.
Defined.

(** ** Content quality *)

Section Quality.

Local Open Scope Q_scope.

Lemma Qltb_true x y : Qltb x y = true <-> x < y.
Proof.
  unfold Qltb. rewrite negb_true_iff. split.
  - intros H. apply Qnot_le_lt. intros Hle. apply Qle_bool_iff in Hle. congruence.
  - intros H. destruct (Qle_bool y x) eqn:E; [|reflexivity].
    apply Qle_bool_iff in E. exfalso. exact (Qlt_not_le _ _ H E).
Qed.

Lemma Qltb_false x y : Qltb x y = false <-> y <= x.
Proof.
  unfold Qltb. rewrite negb_false_iff. apply Qle_bool_iff.
Qed.

(** A quotient of two counts, the upper one positive. *)
Lemma ratio_bounds (a b : Z) :
  (0 <= a <= b)%Z -> (0 < b)%Z -> 0 <= inject_Z a / inject_Z b <= 1.
Proof.
  intros Ha Hb.
  assert (Hb' : 0 < inject_Z b) by (unfold Qlt; simpl; lia).
  split.
  - apply Qle_shift_div_l; [exact Hb'|]. unfold Qle; simpl; lia.
  - apply Qle_shift_div_r; [exact Hb'|]. unfold Qle; simpl; lia.
Qed.

Lemma ratio_le (a : Z) (d : Z) (lo hi : Z) :
  (0 < d)%Z -> (lo <= a <= hi)%Z ->
  inject_Z lo / inject_Z d <= inject_Z a / inject_Z d <= inject_Z hi / inject_Z d.
Proof.
  intros Hd Ha.
  assert (Hd' : 0 < inject_Z d) by (unfold Qlt; simpl; lia).
  split; apply Qmult_le_compat_r;
    try (apply Qlt_le_weak, Qinv_lt_0_compat; exact Hd');
    unfold Qle; simpl; lia.
Qed.

Lemma boilerplate_fold_nonneg text patterns : forall acc,
  (0 <= acc)%Z ->
  (0 <= fold_left (fun acc pattern =>
                     (acc + Z.of_nat (count_literal_from 0 pattern text) * len pattern)%Z)
                  patterns acc)%Z.
Proof.
  induction patterns as [|p ps IH]; intros acc Hacc; simpl; [exact Hacc|].
  apply IH. unfold len. nia.
Qed.

Lemma boilerplateLength_nonneg text : (0 <= boilerplateLength text)%Z.
Proof. apply boilerplate_fold_nonneg. lia. Qed.

(** The content ratio of every text lies between 0 and 1. *)
Lemma estimateContentRatio_bounds text : 0 <= estimateContentRatio text <= 1.
Proof.
  unfold estimateContentRatio.
  destruct (len text =? 0)%Z eqn:E; [split; [apply Qle_refl|discriminate]|].
  apply Z.eqb_neq in E.
  assert (Hl : (0 < len text)%Z) by (unfold len in *; lia).
  pose proof (boilerplateLength_nonneg text) as Hb.
  apply ratio_bounds; [|exact Hl].
  destruct (len text - boilerplateLength text <? 0)%Z eqn:E2.
  - lia.
  - apply Z.ltb_ge in E2. lia.
Qed.

Lemma wordScore_bounds m : 0 <= wordScore m <= 1.
Proof.
  unfold wordScore.
  destruct (500 <=? m_WordCount m)%Z eqn:E1; [split; discriminate|].
  destruct (100 <=? m_WordCount m)%Z eqn:E2; [|split; discriminate].
  apply Z.leb_gt in E1. apply Z.leb_le in E2.
  change 500 with (inject_Z 500). apply ratio_bounds; lia.
Qed.

Lemma codeScore_bounds m : 0 <= codeScore m <= 1.
Proof.
  unfold codeScore.
  destruct (3 <=? m_CodeBlockCount m)%Z eqn:E1; [split; discriminate|].
  destruct (0 <? m_CodeBlockCount m)%Z eqn:E2; [|split; discriminate].
  apply Z.leb_gt in E1. apply Z.ltb_lt in E2.
  change 3 with (inject_Z 3). apply ratio_bounds; lia.
Qed.

Lemma headerScore_bounds m : 0 <= headerScore m <= 1.
Proof.
  unfold headerScore.
  destruct (3 <=? m_HeaderCount m)%Z eqn:E1; [split; discriminate|].
  destruct (0 <? m_HeaderCount m)%Z eqn:E2; [|split; discriminate].
  apply Z.leb_gt in E1. apply Z.ltb_lt in E2.
  change 3 with (inject_Z 3). apply ratio_bounds; lia.
Qed.

Lemma contentRatioScore_bounds m :
  0 <= m_ContentRatio m ->
  0 <= contentRatioScore m <= 1 /\ (m_ContentRatio m <= 1 -> contentRatioScore m == m_ContentRatio m).
Proof.
  intros H0. unfold contentRatioScore.
  destruct (Qltb 1 (m_ContentRatio m)) eqn:E.
  - apply Qltb_true in E. split; [split; discriminate|]. intros H1. lra.
  - apply Qltb_false in E. split; [split; assumption|]. intros _. reflexivity.
Qed.

Lemma titleScore_bounds m : 0 <= titleScore m <= 1.
Proof. unfold titleScore. destruct (m_HasTitle m); split; discriminate. Qed.

Lemma CalculateScore_default cfg m :
  CalculateScore (scorer (NewContentQualityAnalyzer cfg)) m
  == wordScore m * (3 # 10) + codeScore m * (2 # 10) + headerScore m * (15 # 100)
     + contentRatioScore m * (15 # 100) + titleScore m * (1 # 10).
Proof. unfold CalculateScore. simpl. ring. Qed.

End Quality.

(** The claim C5 fails: the scenario yields three issues, the first of them
    for the word count, not the two the claim lists. *)
Lemma DetectIssues_scenario_not_two_issues :
  let cqa := NewContentQualityAnalyzer scenario_config in
  length (DetectIssues cqa scenario_page) = 3%nat
  /\ map Type_ (DetectIssues cqa scenario_page) <> ["missing_title"; "blacklisted_content"].
Proof. split; [reflexivity|]. vm_compute. discriminate. Qed.

(** C5, amended.  For the page with title [""] and content ["Error 404"]
    under [MinWordCount = 50], [RequireTitle] and the blacklist [["404"]],
    [DetectIssues] yields exactly three issues, in this order: [word_count]
    (warning), [missing_title] (error), [blacklisted_content] (warning); the
    score is 0.15 and [ShouldSkip] answers [true] for the analysed page. *)
Theorem DetectIssues_scenario_three_issues :
  let cqa := NewContentQualityAnalyzer scenario_config in
  let quality := fst (AnalyzeContent cqa scenario_page) in
  map (fun i => (Type_ i, Severity i)) (DetectIssues cqa scenario_page)
  = [("word_count", "warning"); ("missing_title", "error");
     ("blacklisted_content", "warning")]
  /\ Issues quality = DetectIssues cqa scenario_page
  /\ (Score quality == 15 # 100)%Q
  /\ ShouldSkip cqa quality = true.
Proof. repeat split; vm_compute; reflexivity. Qed.

(** The claim C6 fails: a page of 50 words has word sub-score 0, not
    50/500. *)
Lemma wordScore_fifty_words_not_on_ramp :
  let m := extractMetrics (NewContentQualityAnalyzer scenario_config) fifty_words in
  m_WordCount m = 50%Z
  /\ (wordScore m == 0)%Q
  /\ ~ (wordScore m == inject_Z 50 / 500)%Q.
Proof.
  assert (H : m_WordCount (extractMetrics (NewContentQualityAnalyzer scenario_config)
                             fifty_words) = 50%Z) by (vm_compute; reflexivity).
  cbv zeta. split; [exact H|]. unfold wordScore. rewrite H. simpl.
  split; [reflexivity|]. intros Hq. unfold Qeq in Hq. simpl in Hq. lia.
Qed.

(** C6, amended.  The word sub-score of a page with [w] words lies in
    [0,1]; it is 1 from 500 words on, [w/500] for [100 <= w < 500], and 0
    below 100 words: the ramp starts at 100 words. *)
Theorem wordScore_ramp_from_100_words :
  forall (cqa : ContentQualityAnalyzer) (content : ScrapedContent),
    let metrics := extractMetrics cqa content in
    let w := countWords (sc_Content content) in
    m_WordCount metrics = w
    /\ (0 <= wordScore metrics <= 1)%Q
    /\ ((500 <= w)%Z -> (wordScore metrics == 1)%Q)
    /\ ((100 <= w < 500)%Z -> (wordScore metrics == inject_Z w / 500)%Q)
    /\ ((w < 100)%Z -> (wordScore metrics == 0)%Q).
Proof.
  intros cqa content metrics w.
  assert (Hw : m_WordCount metrics = w) by reflexivity.
  split; [exact Hw|]. split; [apply wordScore_bounds|].
  unfold wordScore. rewrite Hw.
  repeat split; intros H.
  - destruct (500 <=? w)%Z eqn:E; [reflexivity|]. apply Z.leb_gt in E. lia.
  - destruct (500 <=? w)%Z eqn:E; [apply Z.leb_le in E; lia|].
    destruct (100 <=? w)%Z eqn:E2; [reflexivity|]. apply Z.leb_gt in E2. lia.
  - destruct (500 <=? w)%Z eqn:E; [apply Z.leb_le in E; lia|].
    destruct (100 <=? w)%Z eqn:E2; [apply Z.leb_le in E2; lia|reflexivity].
Qed.

Lemma wordScore_ramp_from_100_words_witness :
  let content := mkScrapedContent "" "T" (Repeat "word " 200) (mkNodeMetadata 0 0 "" false false) in
  let metrics := extractMetrics (NewContentQualityAnalyzer scenario_config) content in
  (wordScore metrics == inject_Z 200 / 500)%Q.
Proof.
  intros content metrics.
  destruct (wordScore_ramp_from_100_words (NewContentQualityAnalyzer scenario_config) content)
    as (_ & _ & _ & H & _).
  apply H. vm_compute. split; [discriminate|reflexivity].
Defined.

(** The claim C7 fails: a page with 510 words, three code blocks, three
    headers, content ratio above 0.8 and the non-empty title [Untitled]
    scores below 0.8. *)
Lemma CalculateScore_untitled_below_threshold :
  let cqa := NewContentQualityAnalyzer scenario_config in
  let m := extractMetrics cqa untitled_page in
  (500 <= m_WordCount m)%Z /\ (3 <= m_CodeBlockCount m)%Z /\ (3 <= m_HeaderCount m)%Z
  /\ (8 # 10 <= m_ContentRatio m)%Q
  /\ sc_Title untitled_page <> ""
  /\ (Score (fst (AnalyzeContent cqa untitled_page)) < 8 # 10)%Q.
Proof.
  cbv zeta. repeat split; try (vm_compute; discriminate).
Qed.

(** C7, amended.  With the default weights: a page with at least 500 words,
    at least 3 code blocks, at least 3 headers, content ratio at least 0.8
    and a title that is neither empty nor the place holder [Untitled]
    scores at least 0.8; a page with fewer than 50 words, no code block, no
    header, content ratio at most 0.2 and a title that is empty (or
    [Untitled]) scores at most 0.3; every page scores within [0,1]. *)
Theorem Score_thresholds :
  forall (cfg : QualityConfig) (content : ScrapedContent),
    let cqa := NewContentQualityAnalyzer cfg in
    let m := extractMetrics cqa content in
    let score := Score (fst (AnalyzeContent cqa content)) in
    ((500 <= m_WordCount m)%Z -> (3 <= m_CodeBlockCount m)%Z -> (3 <= m_HeaderCount m)%Z ->
     (8 # 10 <= m_ContentRatio m)%Q ->
     sc_Title content <> "" -> sc_Title content <> "Untitled" ->
     (8 # 10 <= score)%Q)
    /\ ((m_WordCount m < 50)%Z -> m_CodeBlockCount m = 0%Z -> m_HeaderCount m = 0%Z ->
        (m_ContentRatio m <= 2 # 10)%Q ->
        sc_Title content = "" \/ sc_Title content = "Untitled" ->
        (score <= 3 # 10)%Q)
    /\ (0 <= score <= 1)%Q.
Proof.
  intros cfg content cqa m score.
  assert (Hs : (score == wordScore m * (3 # 10) + codeScore m * (2 # 10)
                         + headerScore m * (15 # 100) + contentRatioScore m * (15 # 100)
                         + titleScore m * (1 # 10))%Q)
    by apply CalculateScore_default.
  assert (Hr : (0 <= m_ContentRatio m <= 1)%Q) by apply estimateContentRatio_bounds.
  destruct (contentRatioScore_bounds m (proj1 Hr)) as [Hcb Hce].
  specialize (Hce (proj2 Hr)).
  pose proof (wordScore_bounds m) as Hw. pose proof (codeScore_bounds m) as Hc.
  pose proof (headerScore_bounds m) as Hh. pose proof (titleScore_bounds m) as Ht.
  split; [|split].
  - intros H1 H2 H3 H4 H5 H6.
    assert (Ew : wordScore m = 1%Q).
    { unfold wordScore. apply Z.leb_le in H1. rewrite H1. reflexivity. }
    assert (Ec : codeScore m = 1%Q).
    { unfold codeScore. apply Z.leb_le in H2. rewrite H2. reflexivity. }
    assert (Eh : headerScore m = 1%Q).
    { unfold headerScore. apply Z.leb_le in H3. rewrite H3. reflexivity. }
    assert (Et : titleScore m = 1%Q).
    { unfold titleScore. simpl.
      destruct (String.eqb_spec (sc_Title content) ""); [contradiction|].
      destruct (String.eqb_spec (sc_Title content) "Untitled"); [contradiction|].
      reflexivity. }
    rewrite Ew, Ec, Eh, Et in Hs. lra.
  - intros H1 H2 H3 H4 H5.
    assert (Ew : wordScore m = 0%Q).
    { unfold wordScore.
      destruct (500 <=? m_WordCount m)%Z eqn:E; [apply Z.leb_le in E; lia|].
      destruct (100 <=? m_WordCount m)%Z eqn:E2; [apply Z.leb_le in E2; lia|reflexivity]. }
    assert (Ec : codeScore m = 0%Q) by (unfold codeScore; rewrite H2; reflexivity).
    assert (Eh : headerScore m = 0%Q) by (unfold headerScore; rewrite H3; reflexivity).
    assert (Et : titleScore m = 0%Q).
    { unfold titleScore. simpl. destruct H5 as [-> | ->]; reflexivity. }
    rewrite Ew, Ec, Eh, Et in Hs. lra.
  - lra.
Qed.

Lemma Score_thresholds_witness :
  let cqa := NewContentQualityAnalyzer scenario_config in
  let titled :=
    mkScrapedContent (sc_URL untitled_page) "Guide" (sc_Content untitled_page)
      (sc_Metadata untitled_page) in
  let thin :=
    mkScrapedContent "https://example.com/nav" "" "menu menu menu"
      (mkNodeMetadata 3 0 "text/html" false false) in
  (8 # 10 <= Score (fst (AnalyzeContent cqa titled)))%Q
  /\ (Score (fst (AnalyzeContent cqa thin)) <= 3 # 10)%Q.
Proof.
  intros cqa titled thin. split.
  - apply (Score_thresholds scenario_config titled); vm_compute; discriminate.
  - apply (Score_thresholds scenario_config thin);
      first [left; reflexivity | vm_compute; first [reflexivity | discriminate]].
Defined.

(** ** The link admission policy *)

Section Admission.

Lemma has_denied_extension_code resolved :
  existsb (fun ext => HasSuffix (ToLower (Path resolved)) ext) skipExtensions
  = has_denied_extension resolved.
Proof. reflexivity. Qed.

(** [shouldFollowLink] as the conjunction of its tests. *)
Lemma shouldFollowLink_tests link baseURL linkURL :
  Parse link = Some linkURL ->
  shouldFollowLink link baseURL
  = negb (looksMalformed link linkURL)
    && negb (absoluteWithoutHost linkURL)
    && negb (host_differs (ResolveReference baseURL linkURL) baseURL)
    && negb (has_denied_extension (ResolveReference baseURL linkURL))
    && negb (same_page_anchor (ResolveReference baseURL linkURL) baseURL)
    && negb (has_non_content_path (ResolveReference baseURL linkURL)).
Proof.
  intros Hp. unfold shouldFollowLink. rewrite Hp.
  rewrite has_denied_extension_code.
  unfold host_differs, same_page_anchor, has_non_content_path, skipPaths.
  destruct (looksMalformed link linkURL); [reflexivity|].
  destruct (absoluteWithoutHost linkURL); [reflexivity|].
  repeat match goal with
         | |- context [if ?b then false else _] => destruct b; [reflexivity|]
         end.
  reflexivity.
Qed.

(** An absolute reference keeps its own host when it is resolved. *)
Lemma ResolveReference_absolute_host baseURL linkURL :
  IsAbs linkURL = true -> Host (ResolveReference baseURL linkURL) = Host linkURL.
Proof.
  unfold IsAbs, ResolveReference. intros ->. reflexivity.
Qed.

(** On an origin that has a host, the test for an absolute link without a
    host rejects nothing that the host test would let through. *)
Lemma absoluteWithoutHost_host_differs baseURL linkURL :
  Host baseURL <> "" ->
  absoluteWithoutHost linkURL = true ->
  host_differs (ResolveReference baseURL linkURL) baseURL = true.
Proof.
  intros Hb Ha. unfold absoluteWithoutHost in Ha.
  apply andb_true_iff in Ha as [Habs Hh].
  unfold host_differs. rewrite (ResolveReference_absolute_host _ _ Habs).
  unfold IsAbs, nonempty in Habs. apply negb_true_iff in Habs. rewrite Habs in Hh.
  simpl in Hh. apply String.eqb_eq in Hh. rewrite Hh.
  destruct (String.eqb_spec "" (Host baseURL)); [congruence|reflexivity].
Qed.

End Admission.

(** The claim C8 fails: from the origin [file:///docs/index.html], which
    has no host, the link [file:///docs/other.html] parses, is not malformed,
    resolves to the origin's (empty) host, has no denied extension, is no
    anchor of the same page and has no non-content path; [shouldFollowLink]
    still rejects it. *)
Lemma shouldFollowLink_rejects_hostless_absolute :
  exists origin linkURL,
    Parse "file:///docs/index.html" = Some origin
    /\ Parse "file:///docs/other.html" = Some linkURL
    /\ looksMalformed "file:///docs/other.html" linkURL = false
    /\ host_differs (ResolveReference origin linkURL) origin = false
    /\ has_denied_extension (ResolveReference origin linkURL) = false
    /\ same_page_anchor (ResolveReference origin linkURL) origin = false
    /\ has_non_content_path (ResolveReference origin linkURL) = false
    /\ shouldFollowLink "file:///docs/other.html" origin = false.
Proof. do 2 eexists. repeat split; vm_compute; reflexivity. Qed.

(** C8, amended.  For a link that parses: [shouldFollowLink] returns
    [false] whenever the resolved host differs from the origin's, the
    resolved path ends (in any case) with a denied extension, or the
    resolved path contains a non-content part; it returns [true] exactly
    when none of the conditions (c) to (g) holds and the link is not an
    absolute URL without a host.  On an origin that has a host this last
    test adds nothing: there it returns [true] exactly when none of (c) to
    (g) holds. *)
Theorem shouldFollowLink_accepts_iff :
  forall (link : string) (baseURL linkURL : URL),
    Parse link = Some linkURL ->
    let resolvedURL := ResolveReference baseURL linkURL in
    let spec_rejects :=
      looksMalformed link linkURL || host_differs resolvedURL baseURL
      || has_denied_extension resolvedURL || same_page_anchor resolvedURL baseURL
      || has_non_content_path resolvedURL in
    (host_differs resolvedURL baseURL = true \/ has_denied_extension resolvedURL = true
     \/ has_non_content_path resolvedURL = true ->
     shouldFollowLink link baseURL = false)
    /\ (shouldFollowLink link baseURL = true
        <-> spec_rejects = false /\ absoluteWithoutHost linkURL = false)
    /\ (Host baseURL <> "" ->
        (shouldFollowLink link baseURL = true <-> spec_rejects = false)).
Proof.
  intros link baseURL linkURL Hp resolvedURL spec_rejects.
  rewrite (shouldFollowLink_tests link baseURL linkURL Hp).
  fold resolvedURL. unfold spec_rejects.
  pose proof (absoluteWithoutHost_host_differs baseURL linkURL) as Habs.
  fold resolvedURL in Habs.
  destruct (looksMalformed link linkURL), (absoluteWithoutHost linkURL),
    (host_differs resolvedURL baseURL), (has_denied_extension resolvedURL),
    (same_page_anchor resolvedURL baseURL), (has_non_content_path resolvedURL);
    simpl; (split; [|split]); try tauto; try (intuition congruence).
Qed.

Lemma shouldFollowLink_accepts_iff_witness :
  exists origin,
    Parse "https://example.com/docs/" = Some origin
    /\ shouldFollowLink "guide/start" origin = true
    /\ shouldFollowLink "https://external.com/x" origin = false.
Proof.
  eexists. split; [reflexivity|]. split.
  - set (origin := mkURL "https" "" "example.com" "/docs/" "" "" false false).
    destruct (Parse "guide/start") as [linkURL|] eqn:Hp; [|discriminate].
    apply (shouldFollowLink_accepts_iff "guide/start" origin linkURL Hp).
    + discriminate.
    + vm_compute in Hp. injection Hp as <-. reflexivity.
  - set (origin := mkURL "https" "" "example.com" "/docs/" "" "" false false).
    destruct (Parse "https://external.com/x") as [linkURL|] eqn:Hp; [|discriminate].
    apply (shouldFollowLink_accepts_iff "https://external.com/x" origin linkURL Hp).
    left. vm_compute in Hp. injection Hp as <-. reflexivity.
Defined.

(** ** The tree builder *)

Section Tree.

Lemma first_entry_None test entries :
  first_entry test entries = None <-> forall e, e ∈ entries -> test (fst e) = false.
Proof.
  induction entries as [|[u p] rest IH]; simpl.
  - split; [|reflexivity]. intros _ e He. inversion He.
  - destruct (test u) eqn:E.
    + split; [discriminate|]. intros H. specialize (H (u, p)). simpl in H.
      rewrite H in E; [discriminate|left].
    + rewrite IH. split.
      * intros H e He. apply elem_of_cons in He as [->|He]; [exact E|auto].
      * intros H e He. apply H. right. exact He.
Qed.

Lemma first_entry_Some test entries p :
  first_entry test entries = Some p ->
  exists e, e ∈ entries /\ test (fst e) = true /\ snd e = p.
Proof.
  induction entries as [|[u q] rest IH]; simpl; [discriminate|].
  destruct (test u) eqn:E.
  - intros [= ->]. exists (u, p). split; [left|auto].
  - intros H. destruct (IH H) as (e & He & Ht & Hp).
    exists e. split; [right; exact He|auto].
Qed.

(** Another order of the entries gives the same node when the choice is
    unambiguous. *)
Lemma first_entry_Permutation test entries entries' :
  entries ≡ₚ entries' ->
  unambiguous test entries' = true ->
  first_entry test entries = first_entry test entries'.
Proof.
  intros Hperm Hu. unfold unambiguous in Hu.
  destruct (first_entry test entries') as [p|] eqn:E'.
  - destruct (first_entry_Some _ _ _ E') as (e' & He' & Ht' & _).
    destruct (first_entry test entries) as [q|] eqn:E.
    + destruct (first_entry_Some _ _ _ E) as (e & He & Ht & Hq).
      rewrite forallb_forall in Hu.
      assert (Hin : In e entries').
      { apply list_elem_of_In. rewrite <- Hperm. exact He. }
      specialize (Hu e Hin). destruct e as [u' q']. simpl in *. rewrite Ht in Hu. simpl in Hu.
      apply Nat.eqb_eq in Hu. congruence.
    + exfalso. rewrite first_entry_None in E.
      assert (He : e' ∈ entries) by (rewrite Hperm; exact He').
      rewrite (E e' He) in Ht'. discriminate.
  - rewrite first_entry_None in E'. apply first_entry_None.
    intros e He. apply E'. rewrite <- Hperm. exact He.
Qed.

Variable range : MapOrder.
Hypothesis range_Permutation : forall m, range m ≡ₚ map_to_list m.

Lemma DetermineParent_order tb node tree :
  unambiguous_parent tb (n_URL node) tree = true ->
  DetermineParent range tb node tree = DetermineParent map_to_list tb node tree.
Proof.
  unfold unambiguous_parent, DetermineParent, findParentByURLHierarchy.
  destruct (UseURLHierarchy (tb_config tb)); [|reflexivity].
  destruct (Parse (n_URL node)) as [parsedURL|]; [|reflexivity].
  destruct (String.eqb (Path parsedURL) "/" || String.eqb (Path parsedURL) "");
    [reflexivity|].
  intros Hu. apply first_entry_Permutation; [apply range_Permutation|exact Hu].
Qed.

Lemma AddNode_order tb tree url content :
  unambiguous_parent tb url tree = true ->
  AddNode range tb tree url content = AddNode map_to_list tb tree url content.
Proof.
  intros Hu. unfold AddNode.
  destruct (NodeMap tree !! url); [reflexivity|].
  rewrite DetermineParent_order by exact Hu. reflexivity.
Qed.

Lemma addAll_order tb contents urls : forall i tree,
  addAll_unambiguous tb contents i urls tree = true ->
  addAll range tb contents i urls tree = addAll map_to_list tb contents i urls tree.
Proof.
  induction urls as [|url rest IH]; intros i tree Hu; simpl in *; [reflexivity|].
  destruct ((i =? 0)%nat && bool_decide (is_Some (Root tree))).
  - apply IH. exact Hu.
  - destruct (contents !! url) as [content|].
    + apply andb_true_iff in Hu as [Hu1 Hu2].
      rewrite AddNode_order by exact Hu1. apply IH. exact Hu2.
    + apply IH. exact Hu.
Qed.

(** When every parent is chosen unambiguously, the tree does not depend on
    the order in which [range] visits [NodeMap]. *)
Lemma BuildTree_order tb urls contents :
  addAll_unambiguous tb contents 0 urls (createRoot tb urls contents) = true ->
  BuildTree range tb urls contents = BuildTree map_to_list tb urls contents.
Proof.
  intros Hu. unfold BuildTree. rewrite addAll_order by exact Hu. reflexivity.
Qed.

End Tree.

(** C4 (the code at the input of the scenario).  For the pages [/],
    [/docs/], [/docs/guide/] and [/docs/guide/start], with URL-hierarchy
    parent inference and fallback to the root, and whatever the order in
    which [range] visits [NodeMap]: [BuildTree] returns a tree of four
    nodes in which the parent of [/docs/guide/start] is the root [/], not
    [/docs/guide/]; no page is found as a parent, and all three pages hang
    under the root by the fallback. *)
Theorem BuildTree_scenario_parent_is_root :
  forall range : MapOrder,
    (forall m, range m ≡ₚ map_to_list m) ->
    exists tree,
      BuildTree range (NewTreeBuilder hierarchy_with_fallback) scenario_urls scenario_contents
      = Done tree
      /\ TotalNodes tree = 4%Z
      /\ length (t_nodes tree) = 4%nat
      /\ n_URL <$> root_of tree = Some "https://example.com/"
      /\ n_URL <$> parent_of tree "https://example.com/docs/guide/start"
         = Some "https://example.com/"
      /\ n_URL <$> parent_of tree "https://example.com/docs/guide/"
         = Some "https://example.com/"
      /\ n_URL <$> parent_of tree "https://example.com/docs/guide/start"
         <> Some "https://example.com/docs/guide/".
Proof.
  intros range Hrange.
  rewrite (BuildTree_order range Hrange) by (vm_compute; reflexivity).
  eexists. split; [vm_compute; reflexivity|].
  repeat split; vm_compute; congruence.
Qed.

Lemma BuildTree_scenario_parent_is_root_witness :
  exists tree,
    BuildTree map_to_list (NewTreeBuilder hierarchy_with_fallback) scenario_urls
      scenario_contents = Done tree
    /\ n_URL <$> parent_of tree "https://example.com/docs/guide/start"
       = Some "https://example.com/".
Proof.
  destruct (BuildTree_scenario_parent_is_root map_to_list (fun m => reflexivity _))
    as (tree & Hb & _ & _ & _ & Hp & _).
  exists tree. split; [exact Hb|exact Hp].
Defined.

(** C2 (the code at a failing input).  With URL-hierarchy parent inference
    and fallback to the root switched off, for the pages [/], [/a/b] and
    [/a/b/c] and whatever the order of [range]: the node of [/a/b] is in
    [NodeMap] and counted in [TotalNodes], is not the root, has no parent
    and has level 0; the node of [/a/b/c] has the node of [/a/b] as its
    parent and has level 0 as well, not its parent's level plus 1. *)
Theorem BuildTree_orphan_levels :
  forall range : MapOrder,
    (forall m, range m ≡ₚ map_to_list m) ->
    exists tree b c,
      BuildTree range (NewTreeBuilder hierarchy_without_fallback) orphan_urls orphan_contents
      = Done tree
      /\ TotalNodes tree = 3%Z
      /\ node_at tree "https://example.com/a/b" = Some b
      /\ node_at tree "https://example.com/a/b/c" = Some c
      /\ NodeMap tree !! "https://example.com/a/b" <> Root tree
      /\ n_Parent b = None
      /\ n_Level b = 0%Z
      /\ n_Parent c = NodeMap tree !! "https://example.com/a/b"
      /\ n_Level c = 0%Z
      /\ n_Level c <> (n_Level b + 1)%Z.
Proof.
  intros range Hrange.
  rewrite (BuildTree_order range Hrange) by (vm_compute; reflexivity).
  do 3 eexists. split; [vm_compute; reflexivity|].
  split; [vm_compute; reflexivity|].
  split; [vm_compute; reflexivity|].
  split; [vm_compute; reflexivity|].
  repeat split; vm_compute; congruence.
Qed.

Lemma BuildTree_orphan_levels_witness :
  exists tree c,
    BuildTree map_to_list (NewTreeBuilder hierarchy_without_fallback) orphan_urls
      orphan_contents = Done tree
    /\ node_at tree "https://example.com/a/b/c" = Some c
    /\ n_Parent c = NodeMap tree !! "https://example.com/a/b"
    /\ n_Level c = 0%Z.
Proof.
  destruct (BuildTree_orphan_levels map_to_list (fun m => reflexivity _))
    as (tree & b & c & Hb & _ & _ & Hc & _ & _ & _ & Hp & Hl & _).
  exists tree, c. repeat split; assumption.
Defined.

(** ** URL normalization *)

Section Normalization.

(** *** Strings *)

Lemma sapp_nil_l s : "" +:+ s = s.
Proof. reflexivity. Qed.

Lemma sapp_cons c a b : String c a +:+ b = String c (a +:+ b).
Proof. reflexivity. Qed.

Lemma sapp_nil_r s : s +:+ "" = s.
Proof. induction s as [|c s IH]; [reflexivity|]. rewrite sapp_cons, IH. reflexivity. Qed.

Lemma sapp_assoc a b c : (a +:+ b) +:+ c = a +:+ (b +:+ c).
Proof.
  induction a as [|x a IH]; [reflexivity|]. rewrite !sapp_cons, IH. reflexivity.
Qed.

Lemma nonempty_true s : nonempty s = true <-> s <> "".
Proof.
  unfold nonempty. destruct (String.eqb_spec s ""); simpl; split; congruence.
Qed.

Lemma nonempty_false s : nonempty s = false <-> s = "".
Proof.
  unfold nonempty. destruct (String.eqb_spec s ""); simpl; split; congruence.
Qed.

Lemma all_bytes_app p a b : all_bytes p (a +:+ b) = all_bytes p a && all_bytes p b.
Proof.
  induction a as [|c a IH]; [reflexivity|]. rewrite sapp_cons. simpl. rewrite IH.
  apply andb_assoc.
Qed.

Lemma all_bytes_impl (p q : ascii -> bool) s :
  (forall c, p c = true -> q c = true) -> all_bytes p s = true -> all_bytes q s = true.
Proof.
  intros Hpq. induction s as [|c s IH]; simpl; [reflexivity|].
  intros H. apply andb_true_iff in H as [H1 H2]. rewrite (Hpq _ H1), IH; auto.
Qed.

Lemma all_bytes_take p n : forall s, all_bytes p s = true -> all_bytes p (take n s) = true.
Proof.
  induction n as [|n IH]; intros [|c s]; simpl; auto.
  intros H. apply andb_true_iff in H as [H1 H2]. rewrite H1, IH; auto.
Qed.

Lemma all_bytes_drop p n : forall s, all_bytes p s = true -> all_bytes p (drop n s) = true.
Proof.
  induction n as [|n IH]; intros [|c s]; simpl; auto.
  intros H. apply andb_true_iff in H as [H1 H2]. auto.
Qed.

Lemma ToLower_app a b : ToLower (a +:+ b) = ToLower a +:+ ToLower b.
Proof.
  induction a as [|c a IH]; [reflexivity|]. rewrite sapp_cons. simpl. rewrite IH.
  reflexivity.
Qed.

(** Facts on single bytes are checked on all 256 of them. *)
Ltac each_byte c := destruct c as [[] [] [] [] [] [] [] []]; vm_compute; try reflexivity; try discriminate.

Lemma lower_byte_idem c : lower_byte (lower_byte c) = lower_byte c.
Proof. each_byte c. Qed.

Lemma ToLower_idem s : ToLower (ToLower s) = ToLower s.
Proof.
  induction s as [|c s IH]; simpl; [reflexivity|]. rewrite lower_byte_idem, IH. reflexivity.
Qed.

Lemma all_bytes_ToLower (p : ascii -> bool) s :
  (forall c, p c = true -> p (lower_byte c) = true) ->
  all_bytes p s = true -> all_bytes p (ToLower s) = true.
Proof.
  intros Hp. induction s as [|c s IH]; simpl; [reflexivity|].
  intros H. apply andb_true_iff in H as [H1 H2]. rewrite (Hp _ H1), IH; auto.
Qed.

Lemma nonempty_ToLower s : nonempty (ToLower s) = nonempty s.
Proof. destruct s; reflexivity. Qed.

Lemma eqb_lower_byte d c :
  is_delimiter d = true -> Ascii.eqb d (lower_byte c) = Ascii.eqb d c.
Proof.
  intros Hd. destruct (Ascii.eqb_spec d c) as [->|Hne].
  - revert Hd. each_byte c.
  - apply Ascii.eqb_neq. intros ->. revert Hd Hne. each_byte c; congruence.
Qed.

Lemma is_pchar_lower c : is_pchar c = true -> is_pchar (lower_byte c) = true.
Proof. each_byte c. Qed.

Lemma is_query_byte_lower c : is_query_byte c = true -> is_query_byte (lower_byte c) = true.
Proof. each_byte c. Qed.

Lemma is_fragment_byte_lower c :
  is_fragment_byte c = true -> is_fragment_byte (lower_byte c) = true.
Proof. each_byte c. Qed.

Lemma is_digit_lower c : is_digit (lower_byte c) = is_digit c.
Proof. each_byte c. Qed.

Lemma is_pchar_query c : is_pchar c = true -> is_query_byte c = true.
Proof. unfold is_query_byte. intros ->. reflexivity. Qed.

Lemma is_pchar_not c d :
  byte_in "?#" d = true -> is_pchar c = true -> negb (Ascii.eqb d c) = true.
Proof.
  intros Hd Hc. apply negb_true_iff, Ascii.eqb_neq. intros ->.
  revert Hd Hc. each_byte c.
Qed.

Lemma is_query_byte_not_hash c : is_query_byte c = true -> negb (Ascii.eqb "#" c) = true.
Proof. each_byte c. Qed.

Lemma is_fragment_byte_not_hash c :
  is_fragment_byte c = true -> negb (Ascii.eqb "#" c) = true.
Proof. each_byte c. Qed.

(** *** [strings.Cut] with a separator of one byte *)

Lemma Cut_cons d c s :
  Cut (String c s) (String d "")
  = if Ascii.eqb d c then ("", s, true)
    else let '(before, after, found) := Cut s (String d "") in (String c before, after, found).
Proof.
  simpl. destruct (Ascii.eqb d c); [|reflexivity]. destruct s; reflexivity.
Qed.

Lemma Cut_absent d s :
  all_bytes (fun c => negb (Ascii.eqb d c)) s = true -> Cut s (String d "") = (s, "", false).
Proof.
  induction s as [|c s IH]; [reflexivity|]. intros H. simpl in H.
  apply andb_true_iff in H as [H1 H2]. rewrite Cut_cons.
  apply negb_true_iff in H1. rewrite H1, (IH H2). reflexivity.
Qed.

Lemma Cut_present d a b :
  all_bytes (fun c => negb (Ascii.eqb d c)) a = true ->
  Cut (a +:+ String d b) (String d "") = (a, b, true).
Proof.
  induction a as [|c a IH]; intros H.
  - rewrite sapp_nil_l, Cut_cons, Ascii.eqb_refl. reflexivity.
  - simpl in H. apply andb_true_iff in H as [H1 H2]. rewrite sapp_cons, Cut_cons.
    apply negb_true_iff in H1. rewrite H1, (IH H2). reflexivity.
Qed.


(** *** The scheme *)

Lemma scanScheme_rest t rest :
  all_bytes scheme_byte t = true ->
  scanScheme false (t +:+ String ":" rest) = FoundScheme t rest.
Proof.
  induction t as [|c t IH]; intros H; [reflexivity|].
  simpl in H. apply andb_true_iff in H as [H1 H2].
  rewrite sapp_cons. simpl. rewrite (IH H2).
  unfold scheme_byte in H1. destruct (is_alpha c); [reflexivity|].
  simpl in H1. rewrite H1. reflexivity.
Qed.

Lemma scanScheme_found c t rest :
  is_alpha c = true -> all_bytes scheme_byte t = true ->
  scanScheme true (String c t +:+ String ":" rest) = FoundScheme (String c t) rest.
Proof.
  intros Hc Ht. rewrite sapp_cons. simpl. rewrite Hc, (scanScheme_rest t rest Ht).
  reflexivity.
Qed.




Lemma scheme_byte_query c : scheme_byte c = true -> is_query_byte c = true.
Proof. each_byte c. Qed.

Lemma is_alpha_scheme_byte c : is_alpha c = true -> scheme_byte c = true.
Proof. unfold scheme_byte. intros ->. reflexivity. Qed.

(** *** Suffixes and counts *)

Lemma CountByte_app a b d : CountByte (a +:+ b) d = (CountByte a d + CountByte b d)%nat.
Proof.
  induction a as [|c a IH]; [reflexivity|]. rewrite sapp_cons. simpl. rewrite IH. lia.
Qed.

Lemma CountByte_absent s d :
  all_bytes (fun c => negb (Ascii.eqb d c)) s = true -> CountByte s d = 0%nat.
Proof.
  induction s as [|c s IH]; simpl; [reflexivity|]. intros H.
  apply andb_true_iff in H as [H1 H2]. apply negb_true_iff in H1.
  rewrite Ascii.eqb_sym, H1, (IH H2). reflexivity.
Qed.

Lemma HasSuffix_cons c s suf :
  HasSuffix (String c s) suf
  = if String.eqb (String c s) suf then true else HasSuffix s suf.
Proof. reflexivity. Qed.

Lemma HasSuffix_count s d : HasSuffix s (String d "") = true -> (1 <= CountByte s d)%nat.
Proof.
  induction s as [|c s IH]; [discriminate|]. rewrite HasSuffix_cons.
  destruct (String.eqb_spec (String c s) (String d "")) as [E|_].
  - injection E as -> ->. simpl. rewrite Ascii.eqb_refl. lia.
  - intros H. specialize (IH H). simpl. lia.
Qed.

Lemma HasSuffix_app a q d :
  q <> "" -> HasSuffix (a +:+ q) (String d "") = HasSuffix q (String d "").
Proof.
  intros Hq. induction a as [|c a IH]; [reflexivity|].
  rewrite sapp_cons, HasSuffix_cons, IH.
  destruct (String.eqb_spec (String c (a +:+ q)) (String d "")) as [E|_]; [|reflexivity].
  injection E as _ E. destruct a; [rewrite sapp_nil_l in E; congruence|discriminate].
Qed.

Lemma HasSuffix_snoc a d : HasSuffix (a +:+ String d "") (String d "") = true.
Proof.
  rewrite HasSuffix_app by discriminate. rewrite HasSuffix_cons, String.eqb_refl.
  reflexivity.
Qed.

Lemma slength_app a b : String.length (a +:+ b) = (String.length a + String.length b)%nat.
Proof. induction a as [|c a IH]; [reflexivity|]. rewrite sapp_cons. simpl. rewrite IH. lia. Qed.

Lemma stake_app a b : take (String.length a) (a +:+ b) = a.
Proof. induction a as [|c a IH]; [destruct b; reflexivity|]. rewrite sapp_cons. simpl. rewrite IH. reflexivity. Qed.


Lemma split_query base forceQuery rawQuery :
  all_bytes (fun c => negb (Ascii.eqb "?" c)) base = true ->
  (forceQuery = true -> rawQuery = "") ->
  let rest := base +:+ query_part forceQuery rawQuery in
  (if HasSuffix rest "?" && (CountByte rest "?" =? 1)%nat
   then (take (String.length rest - 1) rest, EmptyString, true)
   else let '(r, q, _) := Cut rest "?" in (r, q, false))
  = (base, rawQuery, forceQuery).
Proof.
  intros Hb Hf rest. unfold rest, query_part.
  pose proof (CountByte_absent base "?" Hb) as Hc.
  destruct forceQuery.
  - rewrite (Hf eq_refl). cbn [orb]. rewrite sapp_nil_r.
    rewrite HasSuffix_snoc, CountByte_app, Hc. cbn [andb CountByte Ascii.eqb Nat.add Nat.eqb].
    rewrite slength_app. cbn [String.length].
    replace (String.length base + 1 - 1)%nat with (String.length base) by lia.
    rewrite stake_app. reflexivity.
  - cbn [orb]. destruct rawQuery as [|c q].
    + cbn [nonempty String.eqb negb]. rewrite sapp_nil_r.
      destruct (HasSuffix base "?") eqn:E.
      * apply HasSuffix_count in E. lia.
      * cbn [andb]. rewrite (Cut_absent "?" base Hb). reflexivity.
    + replace (nonempty (String c q)) with true by reflexivity.
      rewrite sapp_cons, sapp_nil_l.
      rewrite (Cut_present "?" base (String c q) Hb).
      destruct (HasSuffix (base +:+ String "?" (String c q)) "?") eqn:E; [|reflexivity].
      replace (base +:+ String "?" (String c q))
        with ((base +:+ "?") +:+ String c q) in * by (rewrite sapp_assoc; reflexivity).
      rewrite HasSuffix_app in E by discriminate.
      apply HasSuffix_count in E.
      rewrite !CountByte_app, Hc.
      destruct (CountByte (String c q) "?") as [|n]; [lia|].
      cbn [CountByte Ascii.eqb Nat.add andb Nat.eqb]. destruct n; reflexivity.
Qed.

(** *** URLs with a host *)

(** [URL.String] on a URL with a host. *)
Lemma String_hosted u :
  hosted u ->
  String_ u
  = (scheme_part (Scheme u) +:+ "//" +:+ Host u +:+ Path u
       +:+ query_part (ForceQuery u) (RawQuery u))
    +:+ fragment_part (Fragment u).
Proof.
  intros (Ho & Hom & _ & (_ & _ & _ & Hh) & (_ & Hp) & _).
  unfold String_, scheme_part, query_part, fragment_part.
  rewrite Ho, Hom. apply nonempty_true in Hh. rewrite Hh.
  cbn [nonempty String.eqb negb andb orb].
  rewrite !orb_true_r, !andb_false_r. cbn [andb].
  assert (Hs : nonempty (Path u) && negb (HasPrefix (Path u) "/") = false).
  { destruct Hp as [-> | (t & ->)]; reflexivity. }
  rewrite Hs. rewrite !sapp_nil_l, !sapp_assoc. reflexivity.
Qed.

Lemma scheme_wf_inv s :
  scheme_wf s = true ->
  ToLower s = s
  /\ (s = "" \/ exists c t, s = String c t /\ is_alpha c = true
                            /\ all_bytes scheme_byte t = true).
Proof.
  unfold scheme_wf. intros H. apply andb_true_iff in H as [H1 H2].
  apply String.eqb_eq in H2. split; [exact H2|].
  destruct s as [|c t]; [auto|]. right.
  apply andb_true_iff in H1 as [Ha Hb]. eauto.
Qed.

Lemma scheme_wf_query s : scheme_wf s = true -> all_bytes is_query_byte (scheme_part s) = true.
Proof.
  intros H. destruct (scheme_wf_inv s H) as (_ & [-> | (c & t & -> & Ha & Hb)]);
    [reflexivity|].
  unfold scheme_part. replace (nonempty (String c t)) with true by reflexivity.
  rewrite all_bytes_app. apply andb_true_iff. split; [|reflexivity].
  simpl. rewrite (scheme_byte_query c (is_alpha_scheme_byte c Ha)).
  apply (all_bytes_impl scheme_byte); [apply scheme_byte_query|exact Hb].
Qed.

(** [getScheme] finds the scheme that [URL.String] wrote. *)
Lemma getScheme_written scheme rest :
  scheme_wf scheme = true ->
  HasPrefix rest "/" = true ->
  getScheme (scheme_part scheme +:+ rest) = Some (scheme, rest).
Proof.
  intros H Hr. destruct (scheme_wf_inv scheme H) as (_ & [-> | (c & t & -> & Ha & Hb)]).
  - unfold scheme_part. cbn [nonempty String.eqb negb]. rewrite sapp_nil_l.
    destruct rest as [|x rest]; [discriminate|].
    destruct (Ascii.eqb_spec "/" x) as [<-|Hne]; [reflexivity|].
    exfalso. cbn [HasPrefix] in Hr. apply Ascii.eqb_neq in Hne. rewrite Hne in Hr.
    discriminate.
  - unfold scheme_part. replace (nonempty (String c t)) with true by reflexivity.
    unfold getScheme. rewrite sapp_assoc.
    change (":" +:+ rest) with (String ":" rest).
    rewrite (scanScheme_found c t rest Ha Hb). reflexivity.
Qed.

Lemma no_slash_spec h : no_slash h = true ->
  all_bytes (fun c => negb (Ascii.eqb "/" c)) h = true.
Proof. auto. Qed.

(** Reading back what [URL.String] wrote for a URL with a host gives the
    same URL. *)
Lemma Parse_String_hosted u : hosted u -> Parse (String_ u) = Some u.
Proof.
  intros Hu. rewrite (String_hosted u Hu).
  destruct Hu as (Ho & Hom & Hs & (Hh1 & Hh2 & Hh3 & Hh4) & (Hp1 & Hp2) & Hq & Hf & Hfr).
  set (base := "//" +:+ Host u +:+ Path u).
  assert (Hbase : all_bytes is_pchar base = true).
  { unfold base. rewrite !all_bytes_app, Hh1, Hp1. reflexivity. }
  assert (Hqp : all_bytes is_query_byte (query_part (ForceQuery u) (RawQuery u)) = true).
  { unfold query_part. destruct (ForceQuery u || nonempty (RawQuery u)); [|reflexivity].
    rewrite all_bytes_app, Hq. reflexivity. }
  set (pre := scheme_part (Scheme u) +:+ "//" +:+ Host u +:+ Path u
              +:+ query_part (ForceQuery u) (RawQuery u)).
  assert (Epre : pre = scheme_part (Scheme u) +:+ base
                       +:+ query_part (ForceQuery u) (RawQuery u)).
  { unfold pre, base. rewrite !sapp_assoc. reflexivity. }
  assert (Hpre : all_bytes is_query_byte pre = true).
  { rewrite Epre, !all_bytes_app, (scheme_wf_query _ Hs), Hqp.
    rewrite (all_bytes_impl is_pchar is_query_byte base is_pchar_query Hbase). reflexivity. }
  assert (Hcut : Cut (pre +:+ fragment_part (Fragment u)) "#" = (pre, Fragment u, nonempty (Fragment u))).
  { assert (Hnh : all_bytes (fun c => negb (Ascii.eqb "#" c)) pre = true)
      by (apply (all_bytes_impl is_query_byte); [apply is_query_byte_not_hash|exact Hpre]).
    unfold fragment_part. destruct (Fragment u) as [|c f] eqn:Ef.
    - cbn [nonempty String.eqb negb]. rewrite sapp_nil_r. apply Cut_absent. exact Hnh.
    - replace (nonempty (String c f)) with true by reflexivity.
      rewrite sapp_cons, sapp_nil_l. apply Cut_present. exact Hnh. }
  unfold Parse. rewrite Hcut, Hpre, Hfr. cbn [andb negb].
  assert (Hparse : parse pre
            = Some (mkURL (Scheme u) "" (Host u) (Path u) (RawQuery u) "" (ForceQuery u) false)).
  { unfold parse. rewrite Epre.
    rewrite (getScheme_written (Scheme u) _ Hs) by reflexivity.
    rewrite (proj1 (scheme_wf_inv _ Hs)).
    assert (Hnq : all_bytes (fun c => negb (Ascii.eqb "?" c)) base = true)
      by (apply (all_bytes_impl is_pchar);
          [intros c; apply (is_pchar_not c "?"); reflexivity|exact Hbase]).
    rewrite (split_query base (ForceQuery u) (RawQuery u) Hnq Hf).
    rewrite Hbase. cbn [negb].
    replace (HasPrefix base "/") with true by reflexivity.
    cbn [negb andb].
    replace (HasPrefix base "//") with true by reflexivity.
    assert (H3 : HasPrefix base "///" = false).
    { unfold base. destruct (Host u) as [|c h]; [congruence|].
      unfold no_slash in Hh2. simpl in Hh2. apply andb_true_iff in Hh2 as [Hc _].
      apply negb_true_iff in Hc. simpl. rewrite Hc. reflexivity. }
    rewrite H3. rewrite orb_true_r. cbn [andb].
    replace (drop 2 base) with (Host u +:+ Path u) by reflexivity.
    assert (Hc : Cut (Host u +:+ Path u) "/"
                 = (Host u, drop 1 (Path u), nonempty (Path u))).
    { destruct Hp2 as [-> | (t & ->)].
      - rewrite sapp_nil_r. apply Cut_absent. exact Hh2.
      - apply (Cut_present "/" (Host u) t). exact Hh2. }
    rewrite Hc, Hh3.
    destruct Hp2 as [-> | (t & ->)]; reflexivity. }
  rewrite Hparse. destruct u. simpl in *. subst. reflexivity.
Qed.







(** *** Lower case *)

Lemma eqb_lower_byte_r d c :
  is_delimiter d = true -> Ascii.eqb (lower_byte c) d = Ascii.eqb c d.
Proof. intros Hd. rewrite !(Ascii.eqb_sym _ d). apply eqb_lower_byte. exact Hd. Qed.

Lemma CountByte_ToLower d s :
  is_delimiter d = true -> CountByte (ToLower s) d = CountByte s d.
Proof.
  intros Hd. induction s as [|c s IH]; [reflexivity|].
  cbn [ToLower CountByte]. rewrite IH, (eqb_lower_byte_r d c Hd). reflexivity.
Qed.

Lemma after_last_ToLower d s :
  is_delimiter d = true -> after_last (ToLower s) d = ToLower (after_last s d).
Proof.
  intros Hd. induction s as [|c s IH]; [reflexivity|].
  cbn [ToLower after_last]. rewrite (CountByte_ToLower d s Hd), IH, (eqb_lower_byte_r d c Hd).
  destruct (0 <? CountByte s d)%nat; [reflexivity|]. destruct (Ascii.eqb c d); reflexivity.
Qed.

Lemma all_digits_ToLower s : all_bytes is_digit (ToLower s) = all_bytes is_digit s.
Proof.
  induction s as [|c s IH]; [reflexivity|]. cbn [ToLower all_bytes].
  rewrite is_digit_lower, IH. reflexivity.
Qed.

Lemma parseHost_ToLower h : parseHost h = Some h -> parseHost (ToLower h) = Some (ToLower h).
Proof.
  unfold parseHost.
  rewrite (CountByte_ToLower ":" h eq_refl), (after_last_ToLower ":" h eq_refl),
    all_digits_ToLower.
  destruct (0 <? CountByte h ":")%nat; [|reflexivity].
  destruct (all_bytes is_digit (after_last h ":")); [reflexivity|discriminate].
Qed.

Lemma no_slash_ToLower h : no_slash h = true -> no_slash (ToLower h) = true.
Proof.
  unfold no_slash. apply all_bytes_ToLower. intros c.
  rewrite (eqb_lower_byte "/" c eq_refl). auto.
Qed.

Lemma ToLower_empty s : ToLower s = "" <-> s = "".
Proof. destruct s; split; intros H; try reflexivity; discriminate. Qed.

Lemma hosted_lowerURL u : hosted u -> hosted (lowerURL u).
Proof.
  intros (Ho & Hom & Hs & (Hh1 & Hh2 & Hh3 & Hh4) & (Hp1 & Hp2) & Hq & Hf & Hfr).
  unfold hosted, lowerURL, host_wf, path_wf.
  cbn [Scheme Opaque Host Path RawQuery Fragment ForceQuery OmitHost].
  rewrite Ho. repeat split; auto.
  - rewrite (proj1 (scheme_wf_inv _ Hs)). exact Hs.
  - apply (all_bytes_ToLower is_pchar); [apply is_pchar_lower|exact Hh1].
  - apply no_slash_ToLower. exact Hh2.
  - apply parseHost_ToLower. exact Hh3.
  - rewrite ToLower_empty. exact Hh4.
  - apply (all_bytes_ToLower is_pchar); [apply is_pchar_lower|exact Hp1].
  - destruct Hp2 as [-> | (t & ->)]; [left; reflexivity|right]. exists (ToLower t). reflexivity.
  - apply (all_bytes_ToLower is_query_byte); [apply is_query_byte_lower|exact Hq].
  - intros H. rewrite (Hf H). reflexivity.
  - apply (all_bytes_ToLower is_fragment_byte); [apply is_fragment_byte_lower|exact Hfr].
Qed.

(** Lower case of the written URL is the written lower-case URL. *)
Lemma ToLower_String_hosted u : hosted u -> ToLower (String_ u) = String_ (lowerURL u).
Proof.
  intros Hu. rewrite (String_hosted _ (hosted_lowerURL u Hu)), (String_hosted u Hu).
  unfold lowerURL. cbn [Scheme Opaque Host Path RawQuery Fragment ForceQuery OmitHost].
  rewrite !ToLower_app. unfold scheme_part, query_part, fragment_part.
  rewrite !nonempty_ToLower.
  destruct (nonempty (Scheme u)), (ForceQuery u || nonempty (RawQuery u)),
    (nonempty (Fragment u)); rewrite ?ToLower_app; reflexivity.
Qed.

(** *** The fields after normalization *)

Lemma all_bytes_QueryEscape s : all_bytes is_query_byte (QueryEscape s) = true.
Proof.
  induction s as [|c s IH]; [reflexivity|].
  destruct c as [[] [] [] [] [] [] [] []]; cbn; exact IH.
Qed.

Lemma all_bytes_Join p sep l :
  all_bytes p sep = true -> Forall (fun x => all_bytes p x = true) l ->
  all_bytes p (Join l sep) = true.
Proof.
  intros Hsep. induction 1 as [|x l Hx Hl IH]; [reflexivity|].
  destruct l as [|y l]; [exact Hx|].
  change (Join (x :: y :: l) sep) with (x +:+ sep +:+ Join (y :: l) sep).
  rewrite !all_bytes_app, Hx, Hsep, IH. reflexivity.
Qed.

Lemma all_bytes_Encode v : all_bytes is_query_byte (Encode v) = true.
Proof.
  unfold Encode. apply all_bytes_Join; [reflexivity|].
  apply Forall_forall. intros x Hx. apply list_elem_of_In in Hx.
  apply in_flat_map in Hx as (k & _ & Hx).
  apply in_map_iff in Hx as (y & <- & _).
  rewrite !all_bytes_app, !all_bytes_QueryEscape. reflexivity.
Qed.


Lemma Encode_sortedQuery_empty u : RawQuery u = "" -> Encode (sortedQuery u) = "".
Proof.
  intros H. unfold sortedQuery, Query, ParseQuery, sorted_keys. rewrite H.
  cbn [String.eqb]. rewrite map_to_list_empty. reflexivity.
Qed.

Lemma hosted_fields u : hosted u <-> fields_wf u /\ Host u <> "".
Proof. unfold hosted, fields_wf, host_wf. tauto. Qed.

Lemma parseHost_tail c h :
  Ascii.eqb c ":" = false -> parseHost (String c h) = Some (String c h) ->
  parseHost h = Some h.
Proof.
  intros Hc. unfold parseHost. cbn [CountByte after_last]. rewrite Hc. cbn [Nat.add].
  destruct (0 <? CountByte h ":")%nat; [|reflexivity].
  destruct (all_bytes is_digit (after_last h ":")); [reflexivity|discriminate].
Qed.

Lemma lower_w_not_colon c d :
  byte_in "w." d = true -> Ascii.eqb d (lower_byte c) = true -> Ascii.eqb c ":" = false.
Proof.
  intros Hd H. apply Ascii.eqb_eq in H. subst d. revert Hd. each_byte c.
Qed.

Lemma host_drop_www h :
  all_bytes is_pchar h = true /\ no_slash h = true /\ parseHost h = Some h ->
  HasPrefix (ToLower h) "www." = true ->
  all_bytes is_pchar (drop 4 h) = true /\ no_slash (drop 4 h) = true
  /\ parseHost (drop 4 h) = Some (drop 4 h).
Proof.
  intros (H1 & H2 & H3) Hw.
  split; [apply all_bytes_drop; exact H1|]. split; [apply all_bytes_drop; exact H2|].
  destruct h as [|c1 h]; [cbn in Hw; discriminate|]. cbn [ToLower HasPrefix] in Hw.
  destruct (Ascii.eqb "w" (lower_byte c1)) eqn:E1; [|discriminate].
  destruct h as [|c2 h]; [cbn in Hw; discriminate|]. cbn [ToLower HasPrefix] in Hw.
  destruct (Ascii.eqb "w" (lower_byte c2)) eqn:E2; [|discriminate].
  destruct h as [|c3 h]; [cbn in Hw; discriminate|]. cbn [ToLower HasPrefix] in Hw.
  destruct (Ascii.eqb "w" (lower_byte c3)) eqn:E3; [|discriminate].
  destruct h as [|c4 h]; [cbn in Hw; discriminate|]. cbn [ToLower HasPrefix] in Hw.
  destruct (Ascii.eqb "." (lower_byte c4)) eqn:E4; [|discriminate].
  cbn [drop].
  apply (parseHost_tail c4); [exact (lower_w_not_colon c4 "." eq_refl E4)|].
  apply (parseHost_tail c3); [exact (lower_w_not_colon c3 "w" eq_refl E3)|].
  apply (parseHost_tail c2); [exact (lower_w_not_colon c2 "w" eq_refl E2)|].
  apply (parseHost_tail c1); [exact (lower_w_not_colon c1 "w" eq_refl E1)|].
  exact H3.
Qed.

Lemma path_TrimSuffix p : path_wf p -> path_wf (TrimSuffix p "/").
Proof.
  intros (H1 & H2). unfold TrimSuffix.
  destruct (HasSuffix p "/") eqn:E; [|split; assumption].
  split; [apply all_bytes_take; exact H1|].
  destruct H2 as [-> | (t & ->)]; [discriminate|].
  destruct t as [|c t]; [left; reflexivity|right].
  cbn [String.length Nat.sub take]. eauto.
Qed.

Lemma normalizeFields_wf n u : fields_wf u -> fields_wf (normalizeFields n u).
Proof.
  intros (Ho & Hom & Hs & Hh & Hp & Hq & Hf & Hfr).
  unfold normalizeFields.
  set (u1 := if RemoveFragment n then set_Fragment u "" else u).
  assert (W1 : fields_wf u1).
  { unfold u1. destruct (RemoveFragment n); unfold fields_wf; cbn; tauto. }
  clearbody u1. clear - W1.
  set (u2 := if RemoveQuery n then set_RawQuery u1 "" else u1).
  assert (W2 : fields_wf u2).
  { unfold u2. destruct W1 as (Ho & Hom & Hs & Hh & Hp & Hq & Hf & Hfr).
    destruct (RemoveQuery n); unfold fields_wf; cbn; tauto. }
  clearbody u2. clear - W2.
  set (u3 := if SortQueryParams n && negb (RemoveQuery n)
             then set_RawQuery u2 (Encode (sortedQuery u2)) else u2).
  assert (W3 : fields_wf u3).
  { unfold u3. destruct W2 as (Ho & Hom & Hs & Hh & Hp & Hq & Hf & Hfr).
    destruct (SortQueryParams n && negb (RemoveQuery n)); [|unfold fields_wf; tauto].
    refine (conj Ho (conj Hom (conj Hs (conj Hh (conj Hp (conj _ (conj _ Hfr))))))).
    - apply all_bytes_Encode.
    - intros H. apply Encode_sortedQuery_empty. auto. }
  clearbody u3. clear - W3.
  set (u4 := if RemoveWWW n
             then if HasPrefix (ToLower (Host u3)) "www." then set_Host u3 (drop 4 (Host u3))
                  else u3
             else u3).
  assert (W4 : fields_wf u4).
  { unfold u4. destruct W3 as (Ho & Hom & Hs & Hh & Hp & Hq & Hf & Hfr).
    destruct (RemoveWWW n); [|unfold fields_wf; tauto].
    destruct (HasPrefix (ToLower (Host u3)) "www.") eqn:E; [|unfold fields_wf; tauto].
    pose proof (host_drop_www _ Hh E). unfold fields_wf; cbn; tauto. }
  clearbody u4. clear - W4.
  destruct W4 as (Ho & Hom & Hs & Hh & Hp & Hq & Hf & Hfr).
  destruct (RemoveTrailing n && negb (String.eqb (Path u4) "/"));
    [|unfold fields_wf; tauto].
  pose proof (path_TrimSuffix _ Hp). unfold fields_wf; cbn; tauto.
Qed.




(** *** Sorting the query twice *)

Lemma Values_Add_lookup (m : Values) k x k' :
  Values_Add m k x !! k'
  = if decide (k = k') then Some (default [] (m !! k) ++ [x]) else m !! k'.
Proof. unfold Values_Add. rewrite lookup_insert. reflexivity. Qed.

Lemma add_values_lookup l : forall (m : Values) k k',
  fold_left (fun acc x => Values_Add acc k x) l m !! k'
  = if decide (k = k')
    then match l with [] => m !! k | _ => Some (default [] (m !! k) ++ l) end
    else m !! k'.
Proof.
  induction l as [|x l IH]; intros m k k'; simpl.
  - case_decide; congruence.
  - rewrite IH. case_decide as E; [|rewrite Values_Add_lookup; case_decide; congruence].
    rewrite Values_Add_lookup. case_decide; [|congruence]. simpl.
    destruct l; [reflexivity|]. rewrite <- List.app_assoc. reflexivity.
Qed.

Lemma rebuild_lookup v keys : forall (acc : Values) k',
  NoDup keys ->
  rebuild v keys acc !! k'
  = if decide (k' ∈ keys)
    then match default [] (v !! k') with
         | [] => acc !! k'
         | l => Some (default [] (acc !! k') ++ l)
         end
    else acc !! k'.
Proof.
  induction keys as [|k ks IH]; intros acc k' Hnd.
  - rewrite decide_False by (intros E; inversion E). reflexivity.
  - apply list.NoDup_cons in Hnd as [Hk Hnd].
    replace (rebuild v (k :: ks) acc)
      with (rebuild v ks (fold_left (fun acc x => Values_Add acc k x)
                            (default [] (v !! k)) acc)) by reflexivity.
    rewrite (IH _ _ Hnd), add_values_lookup.
    destruct (decide (k = k')) as [->|Hne].
    + rewrite decide_False by exact Hk. rewrite decide_True by left.
      destruct (default [] (v !! k')); reflexivity.
    + destruct (decide (k' ∈ ks)) as [Hin|Hnin].
      * rewrite decide_True by (right; exact Hin). reflexivity.
      * rewrite decide_False; [reflexivity|].
        intros H. apply elem_of_cons in H as [->|H]; congruence.
Qed.

Lemma sorted_keys_elem_of (v : Values) k : k ∈ sorted_keys v <-> is_Some (v !! k).
Proof.
  unfold sorted_keys. rewrite merge_sort_Permutation.
  rewrite list_elem_of_fmap. split.
  - intros ([k0 l] & -> & H). apply elem_of_map_to_list in H. eauto.
  - intros [l H]. exists (k, l). split; [reflexivity|]. apply elem_of_map_to_list. exact H.
Qed.

Lemma sorted_keys_NoDup (v : Values) : NoDup (sorted_keys v).
Proof.
  unfold sorted_keys. rewrite merge_sort_Permutation. apply NoDup_fst_map_to_list.
Qed.

(** On a proper map the loop builds the map it reads. *)
Lemma rebuild_proper v : proper v -> rebuild v (sorted_keys v) ∅ = v.
Proof.
  intros Hp. apply map_eq. intros k.
  rewrite (rebuild_lookup v _ ∅ k (sorted_keys_NoDup v)), lookup_empty.
  destruct (decide (k ∈ sorted_keys v)) as [Hin|Hnin].
  - apply sorted_keys_elem_of in Hin as [l Hl]. rewrite Hl. simpl.
    destruct l; [exfalso; exact (Hp _ _ Hl eq_refl)|reflexivity].
  - destruct (v !! k) as [l|] eqn:Hl; [|reflexivity].
    exfalso. apply Hnin, sorted_keys_elem_of. eauto.
Qed.

Lemma Values_Add_proper (m : Values) k x : proper m -> proper (Values_Add m k x).
Proof.
  intros Hp k' l. rewrite Values_Add_lookup. case_decide; [|apply Hp].
  intros [= <-]. destruct (default [] (m !! k)); discriminate.
Qed.

Lemma parseQuery_pair_proper m pair : proper m -> proper (parseQuery_pair m pair).
Proof.
  intros Hp. unfold parseQuery_pair.
  destruct (Contains pair ";"); [exact Hp|].
  destruct (String.eqb pair ""); [exact Hp|].
  destruct (Cut pair "=") as [[key value] found].
  destruct (QueryUnescape key); [|exact Hp].
  destruct (QueryUnescape value); [|exact Hp].
  apply Values_Add_proper. exact Hp.
Qed.

Lemma ParseQuery_proper query : proper (ParseQuery query).
Proof.
  unfold ParseQuery. destruct (String.eqb query "").
  - intros k l. rewrite lookup_empty. discriminate.
  - assert (H : forall pairs m, proper m -> proper (fold_left parseQuery_pair pairs m)).
    { induction pairs as [|p ps IH]; intros m Hm; [exact Hm|].
      simpl. apply IH, parseQuery_pair_proper, Hm. }
    apply H. intros k l. rewrite lookup_empty. discriminate.
Qed.

Lemma sortedQuery_Query u : sortedQuery u = Query u.
Proof. apply rebuild_proper, ParseQuery_proper. Qed.
















(** *** A second pass *)


Lemma set_RawQuery_same u : set_RawQuery u (RawQuery u) = u.
Proof. destruct u; reflexivity. Qed.

Lemma set_Path_same u : set_Path u (Path u) = u.
Proof. destruct u; reflexivity. Qed.


Lemma String_eqb_ToLower d s :
  is_delimiter d = true ->
  String.eqb (ToLower s) (String d "") = String.eqb s (String d "").
Proof.
  intros Hd. destruct s as [|c s]; [reflexivity|]. cbn [ToLower String.eqb].
  rewrite (eqb_lower_byte_r d c Hd). destruct s; reflexivity.
Qed.

Lemma HasSuffix_ToLower d s :
  is_delimiter d = true ->
  HasSuffix (ToLower s) (String d "") = HasSuffix s (String d "").
Proof.
  intros Hd. induction s as [|c s IH]; [reflexivity|].
  change (ToLower (String c s)) with (String (lower_byte c) (ToLower s)).
  rewrite !HasSuffix_cons, IH.
  change (String (lower_byte c) (ToLower s)) with (ToLower (String c s)).
  rewrite (String_eqb_ToLower d _ Hd). reflexivity.
Qed.




End Normalization.




(** * Further properties *)

Local Open Scope Z_scope.

(** ** The duplicate index: what has been seen *)

(** X1.  After any sequence of [AddURL] calls, [IsDuplicate] reports a URL
    as a duplicate exactly when it did so before the calls, or one of the
    added URLs has the same canonical form. *)
Theorem IsDuplicate_after_AddURLs :
  forall (ld : LinkDeduplicator) (rawURLs : list string) (rawURL : string),
    IsDuplicate (snd (AddURLs ld rawURLs)) rawURL = true
    <-> IsDuplicate ld rawURL = true
        \/ exists v c, v ∈ rawURLs /\ NormalizeURL ld v = Some c
                       /\ NormalizeURL ld rawURL = Some c.
Proof.
  intros ld rawURLs rawURL. unfold IsDuplicate.
  rewrite (NormalizeURL_normalizer _ ld rawURL (AddURLs_normalizer rawURLs ld)).
  destruct (NormalizeURL ld rawURL) as [c|] eqn:E.
  - rewrite seen_after_AddURLs. split.
    + intros [H|[v [Hv Hc]]]; [left; exact H|right; exists v, c; auto].
    + intros [H|[v [c' [Hv [Hc Hc']]]]]; [left; exact H|].
      right. exists v. split; [exact Hv|]. congruence.
  - split; [intros _; left; reflexivity|reflexivity].
Qed.

Lemma AddURLs_seen_dom rawURLs : forall ld,
  dom (seenURLs (snd (AddURLs ld rawURLs)))
  = dom (seenURLs ld) ∪ list_to_set (omap (NormalizeURL ld) rawURLs).
Proof.
  induction rawURLs as [|u rest IH]; intros ld.
  - simpl. set_solver.
  - cbn [AddURLs]. destruct (AddURL ld u) as [r ld'] eqn:E.
    specialize (IH ld'). destruct (AddURLs ld' rest) as [rs ld''] eqn:E'. cbn [snd] in *.
    rewrite IH.
    assert (Hn : normalizer ld' = normalizer ld).
    { change ld' with (snd (r, ld')). rewrite <- E. apply AddURL_normalizer. }
    assert (Hm : omap (NormalizeURL ld') rest = omap (NormalizeURL ld) rest).
    { clear -Hn. induction rest as [|x l IHl]; [reflexivity|]. cbn [omap list_omap].
      rewrite (NormalizeURL_normalizer ld' ld x Hn), IHl. reflexivity. }
    rewrite Hm. cbn [omap list_omap].
    destruct (AddURL_cases ld u) as [[_ [c [Hc [_ [Hs _]]]]]|[_ [Hc [Hs _]]]];
      rewrite E in Hs; cbn [snd] in Hs; rewrite Hs.
    + rewrite Hc. rewrite dom_insert_L. cbn [list_to_set]. set_solver.
    + destruct Hc as [Hc|[c [Hc Hseen]]]; rewrite Hc; [set_solver|].
      cbn [list_to_set].
      assert (c ∈ dom (seenURLs ld)).
      { apply elem_of_dom. unfold seen in Hseen.
        destruct (seenURLs ld !! c); [eauto|discriminate]. }
      set_solver.
Qed.

Lemma AddURLs_true_count rawURLs : forall ld,
  seen_values_true ld ->
  (length (filter (fun r => r = true) (fst (AddURLs ld rawURLs))) + size (seenURLs ld))%nat
  = size (seenURLs (snd (AddURLs ld rawURLs))).
Proof.
  induction rawURLs as [|u rest IH]; intros ld Hv.
  - reflexivity.
  - cbn [AddURLs]. destruct (AddURL ld u) as [r ld'] eqn:E.
    assert (Hv' : seen_values_true ld').
    { change ld' with (snd (r, ld')). rewrite <- E. apply AddURL_values_true, Hv. }
    specialize (IH ld' Hv'). destruct (AddURLs ld' rest) as [rs ld''] eqn:E'. cbn [fst snd] in *.
    rewrite <- IH.
    destruct (AddURL_cases ld u) as [[Hr [c [Hc [Hseen [Hs _]]]]]|[Hr [_ [Hs _]]]];
      rewrite E in Hr, Hs; cbn [fst snd] in Hr, Hs; subst r; rewrite Hs.
    + rewrite filter_cons_True by reflexivity.
      rewrite map_size_insert_None by (apply seen_false_lookup; assumption).
      cbn [length]. lia.
    + rewrite filter_cons_False by discriminate. reflexivity.
Qed.

(** X2.  After [AddURL] on each URL of a list, from a new deduplicator, the
    keys of [seenURLs] are the canonical forms of the URLs of the list
    that [NormalizeURL] accepts; [GetSeenURLsCount] is their number, and so
    is the number of calls that returned true. *)
Theorem seenURLs_are_the_canonical_forms :
  forall (cfg : URLNormalizer) (rawURLs : list string),
    let fresh := NewLinkDeduplicator cfg in
    let forms : gset string := list_to_set (omap (NormalizeURL fresh) rawURLs) in
    let ld := snd (AddURLs fresh rawURLs) in
    dom (seenURLs ld) = forms
    /\ GetSeenURLsCount ld = Z.of_nat (size forms)
    /\ length (filter (fun r => r = true) (fst (AddURLs fresh rawURLs))) = size forms.
Proof.
  intros cfg rawURLs fresh forms ld.
  assert (Hd : dom (seenURLs ld) = forms).
  { unfold ld. rewrite AddURLs_seen_dom. unfold fresh at 1. cbn [NewLinkDeduplicator seenURLs].
    rewrite dom_empty_L. set_solver. }
  assert (Hs : size (seenURLs ld) = size forms).
  { rewrite <- Hd. symmetry. apply size_dom. }
  split; [exact Hd|split].
  - unfold GetSeenURLsCount. rewrite Hs. reflexivity.
  - rewrite <- Hs. unfold ld.
    rewrite <- (AddURLs_true_count rawURLs fresh (fresh_values_true cfg)).
    unfold fresh at 3. cbn [NewLinkDeduplicator seenURLs]. rewrite map_size_empty. lia.
Qed.

Lemma AddURL_canonical ld rawURL : canonical_ok ld -> canonical_ok (snd (AddURL ld rawURL)).
Proof.
  intros H k c. rewrite (NormalizeURL_normalizer _ ld k (AddURL_normalizer ld rawURL)).
  unfold AddURL. destruct (NormalizeURL ld rawURL) as [n|] eqn:E; [|apply H].
  destruct (seen ld n); [apply H|]. cbn [snd canonicalMap].
  destruct (decide (rawURL = k)) as [->|Hne].
  - rewrite lookup_insert_eq. intros [= <-]. exact E.
  - rewrite lookup_insert_ne by exact Hne. apply H.
Qed.

Lemma AddURLs_canonical rawURLs : forall ld,
  canonical_ok ld -> canonical_ok (snd (AddURLs ld rawURLs)).
Proof.
  induction rawURLs as [|u rest IH]; intros ld H; [exact H|].
  cbn [AddURLs]. destruct (AddURL ld u) as [r ld'] eqn:E.
  specialize (IH ld'). destruct (AddURLs ld' rest) as [rs ld''] eqn:E'. cbn [snd] in *.
  apply IH. change ld' with (snd (r, ld')). rewrite <- E. apply AddURL_canonical, H.
Qed.

(** X3.  In a deduplicator filled by [AddURL] calls from a new one,
    [GetCanonicalURL] returns what [NormalizeURL] computes for the URL,
    and the URL itself when [NormalizeURL] fails: a canonical form stored
    by an earlier call never differs from the one computed now. *)
Theorem GetCanonicalURL_is_NormalizeURL :
  forall (cfg : URLNormalizer) (rawURLs : list string) (rawURL : string),
    let ld := snd (AddURLs (NewLinkDeduplicator cfg) rawURLs) in
    GetCanonicalURL ld rawURL = default rawURL (NormalizeURL ld rawURL).
Proof.
  intros cfg rawURLs rawURL ld.
  assert (H : canonical_ok ld).
  { apply AddURLs_canonical. intros k c. cbn. rewrite lookup_empty. discriminate. }
  unfold GetCanonicalURL. destruct (canonicalMap ld !! rawURL) as [c|] eqn:E.
  - rewrite (H _ _ E). reflexivity.
  - destruct (NormalizeURL ld rawURL); reflexivity.
Qed.

Lemma Parse_missing_scheme rest : Parse (String ":" rest) = None.
Proof.
  unfold Parse. rewrite Cut_cons.
  replace (Ascii.eqb "#" ":") with false by reflexivity.
  destruct (Cut rest "#") as [[before after] found].
  destruct (negb (_ && _)); [reflexivity|].
  assert (H : getScheme (String ":" before) = None) by reflexivity.
  unfold parse. rewrite H. reflexivity.
Qed.

(** X4.  A URL that starts with a colon does not parse (the scheme is
    missing), so [NormalizeURL] fails on it; [IsDuplicate] then reports
    it as a duplicate, and [AddURL] returns false, stores nothing and
    counts it in [duplicateCount]. *)
Theorem missing_scheme_counts_as_duplicate :
  forall (ld : LinkDeduplicator) (rest : string),
    let rawURL := String ":" rest in
    NormalizeURL ld rawURL = None
    /\ IsDuplicate ld rawURL = true
    /\ AddURL ld rawURL
       = (false, mkLinkDeduplicator (seenURLs ld) (canonicalMap ld)
                   (wrap64 (duplicateCount ld + 1)) (normalizer ld)).
Proof.
  intros ld rest rawURL.
  assert (H : NormalizeURL ld rawURL = None).
  { unfold NormalizeURL, rawURL. rewrite Parse_missing_scheme. reflexivity. }
  split; [exact H|]. unfold IsDuplicate, AddURL. rewrite H. split; reflexivity.
Qed.

(** ** URL normalization: the URLs it identifies *)

Section Equivalences.

Lemma NormalizeURL_Parse ld rawURL u :
  Parse rawURL = Some u ->
  NormalizeURL ld rawURL
  = Some (if LowerCase (normalizer ld)
          then ToLower (String_ (normalizeFields (normalizer ld) u))
          else String_ (normalizeFields (normalizer ld) u)).
Proof. intros H. unfold NormalizeURL. rewrite H. reflexivity. Qed.

Lemma NormalizeURL_same_fields ld r1 r2 u1 u2 :
  Parse r1 = Some u1 -> Parse r2 = Some u2 ->
  normalizeFields (normalizer ld) u1 = normalizeFields (normalizer ld) u2 ->
  NormalizeURL ld r1 = NormalizeURL ld r2.
Proof.
  intros H1 H2 E. rewrite (NormalizeURL_Parse ld r1 u1 H1), (NormalizeURL_Parse ld r2 u2 H2), E.
  reflexivity.
Qed.

Lemma CountByte_zero s d :
  CountByte s d = 0%nat -> all_bytes (fun c => negb (Ascii.eqb d c)) s = true.
Proof.
  induction s as [|c s IH]; [reflexivity|]. cbn [CountByte all_bytes].
  rewrite (Ascii.eqb_sym d c). destruct (Ascii.eqb c d); [discriminate|]. exact IH.
Qed.

Lemma Parse_fragment rawURL fragment :
  CountByte rawURL "#" = 0%nat ->
  all_bytes is_fragment_byte fragment = true ->
  Parse (rawURL +:+ String "#" fragment)
  = match Parse rawURL with
    | Some u => Some (set_Fragment u fragment)
    | None => None
    end.
Proof.
  intros Hc Hf. apply CountByte_zero in Hc. unfold Parse.
  rewrite (Cut_present "#" rawURL fragment Hc), (Cut_absent "#" rawURL Hc).
  rewrite Hf. cbn [all_bytes]. destruct (all_bytes is_query_byte rawURL); [|reflexivity].
  cbn [andb negb]. destruct (parse rawURL) as [u|]; [|reflexivity].
  destruct u; reflexivity.
Qed.

Lemma normalizeFields_set_Fragment n u f :
  RemoveFragment n = true ->
  normalizeFields n (set_Fragment u f) = normalizeFields n u.
Proof. intros H. unfold normalizeFields. rewrite H. destruct u; reflexivity. Qed.

End Equivalences.

(** X5.  With [RemoveFragment], a fragment added to a URL without one does
    not change the canonical form. *)
Theorem NormalizeURL_ignores_fragment :
  forall (ld : LinkDeduplicator) (rawURL fragment : string),
    RemoveFragment (normalizer ld) = true ->
    CountByte rawURL "#" = 0%nat ->
    all_bytes is_fragment_byte fragment = true ->
    NormalizeURL ld (rawURL +:+ String "#" fragment) = NormalizeURL ld rawURL.
Proof.
  intros ld rawURL fragment Hr Hc Hf. unfold NormalizeURL.
  rewrite (Parse_fragment rawURL fragment Hc Hf).
  destruct (Parse rawURL) as [u|]; [|reflexivity].
  rewrite (normalizeFields_set_Fragment _ u fragment Hr). reflexivity.
Qed.

Lemma NormalizeURL_ignores_fragment_witness :
  let ld := NewLinkDeduplicator (mkURLNormalizer true false false false false false) in
  NormalizeURL ld "https://example.com/guide#install" = NormalizeURL ld "https://example.com/guide".
Proof.
  intros ld.
  apply (NormalizeURL_ignores_fragment ld "https://example.com/guide" "install");
    reflexivity.
Defined.

Section FieldByField.

Ltac by_fields n u :=
  unfold normalizeFields; destruct u as [sc op h pa q f fq oh];
  destruct (RemoveFragment n), (RemoveQuery n), (SortQueryParams n), (RemoveWWW n);
  cbn [set_Fragment set_RawQuery set_Path set_Host Scheme Opaque Host Path RawQuery Fragment
       ForceQuery OmitHost andb negb].

Lemma normalizeFields_set_Path n u p :
  normalizeFields n (set_Path u p)
  = set_Path (normalizeFields n u)
      (if RemoveTrailing n && negb (String.eqb p "/") then TrimSuffix p "/" else p).
Proof.
  by_fields n u;
    try destruct (HasPrefix (ToLower h) "www.");
    cbn [set_Fragment set_RawQuery set_Path set_Host Scheme Opaque Host Path RawQuery Fragment
         ForceQuery OmitHost andb negb];
    destruct (RemoveTrailing n && negb (String.eqb p "/"));
    destruct (RemoveTrailing n && negb (String.eqb pa "/")); reflexivity.
Qed.


Lemma normalizeFields_set_RawQuery n u q' :
  SortQueryParams n = true -> RemoveQuery n = false ->
  normalizeFields n (set_RawQuery u q')
  = set_RawQuery (normalizeFields n u) (Encode (ParseQuery q')).
Proof.
  intros Hs Hq. unfold normalizeFields. rewrite Hs, Hq. destruct u as [sc op h pa q f fq oh].
  destruct (RemoveFragment n), (RemoveWWW n);
  cbn [set_Fragment set_RawQuery set_Path set_Host Scheme Opaque Host Path RawQuery Fragment
       ForceQuery OmitHost andb negb];
    try destruct (HasPrefix (ToLower h) "www.");
    cbn [set_Fragment set_RawQuery set_Path set_Host Scheme Opaque Host Path RawQuery Fragment
         ForceQuery OmitHost andb negb];
    destruct (RemoveTrailing n && negb (String.eqb pa "/"));
    cbn [set_Fragment set_RawQuery set_Path set_Host Scheme Opaque Host Path RawQuery Fragment
         ForceQuery OmitHost andb negb];
    rewrite !sortedQuery_Query; reflexivity.
Qed.

Lemma length_ToLower s : String.length (ToLower s) = String.length s.
Proof. induction s as [|c s IH]; [reflexivity|]. cbn. rewrite IH. reflexivity. Qed.



Lemma hosted_set_Path u p : hosted u -> path_wf p -> hosted (set_Path u p).
Proof.
  intros (H1 & H2 & H3 & H4 & H5 & H6) Hp. destruct u.
  exact (conj H1 (conj H2 (conj H3 (conj H4 (conj Hp H6))))).
Qed.


End FieldByField.



Section Hosts.







End Hosts.



(** X8.  For a URL with a host and an empty path, the URL and the URL with
    the path [/] have different canonical forms under every
    configuration: the one slash that [RemoveTrailing] keeps is not
    added where it is missing. *)
Theorem NormalizeURL_keeps_root_slash :
  forall (ld : LinkDeduplicator) (u : URL),
    hosted u -> Path u = "" ->
    Host (normalizeFields (normalizer ld) u) <> "" ->
    NormalizeURL ld (String_ (set_Path u "/")) <> NormalizeURL ld (String_ u).
Proof.
  intros ld u Hu Hp Hh.
  assert (Hu' : hosted (set_Path u "/")).
  { apply hosted_set_Path; [exact Hu|]. split; [reflexivity|]. right. exists "". reflexivity. }
  rewrite (NormalizeURL_Parse ld _ _ (Parse_String_hosted _ Hu')).
  rewrite (NormalizeURL_Parse ld _ _ (Parse_String_hosted _ Hu)).
  set (n := normalizer ld) in *. set (v := normalizeFields n u) in *.
  assert (Hv : hosted v).
  { apply hosted_fields. split; [|exact Hh]. apply normalizeFields_wf.
    apply hosted_fields in Hu. tauto. }
  assert (Hpv : Path v = "").
  { pose proof (normalizeFields_set_Path n u (Path u)) as E.
    rewrite set_Path_same in E. fold v in E. apply (f_equal Path) in E.
    cbn [set_Path Path] in E. rewrite E, Hp. destruct (RemoveTrailing n); reflexivity. }
  assert (Ev : normalizeFields n (set_Path u "/") = set_Path v "/").
  { rewrite normalizeFields_set_Path. cbn [String.eqb Ascii.eqb Bool.eqb negb].
    rewrite andb_false_r. reflexivity. }
  rewrite Ev.
  assert (Hv' : hosted (set_Path v "/")).
  { apply hosted_set_Path; [exact Hv|]. split; [reflexivity|]. right. exists "". reflexivity. }
  assert (Hlen : String.length (String_ (set_Path v "/")) = S (String.length (String_ v))).
  { rewrite (String_hosted _ Hv'), (String_hosted _ Hv).
    destruct v as [sc op h pa q f fq oh]. cbn [Path] in Hpv. subst pa.
    cbn [set_Path Scheme Opaque Host Path RawQuery Fragment ForceQuery OmitHost].
    rewrite !slength_app. cbn [String.length]. lia. }
  intros E. injection E as E. apply (f_equal String.length) in E.
  destruct (LowerCase n); rewrite ?length_ToLower in E; lia.
Qed.

Lemma NormalizeURL_keeps_root_slash_witness :
  let ld := NewLinkDeduplicator (mkURLNormalizer true false true true true true) in
  Path (mkURL "https" "" "example.com" "" "" "" false false) = ""
  /\ NormalizeURL ld "https://example.com/" <> NormalizeURL ld "https://example.com".
Proof.
  intros ld. split; [reflexivity|].
  apply (NormalizeURL_keeps_root_slash ld
           (mkURL "https" "" "example.com" "" "" "" false false)).
  - repeat split; try reflexivity; try discriminate. left. reflexivity.
  - reflexivity.
  - discriminate.
Defined.

(** X9.  With [SortQueryParams] and without [RemoveQuery], two URLs that
    differ only in their query strings, and whose query strings hold the
    same values for the same keys, have the same canonical form. *)
Theorem NormalizeURL_query_by_values :
  forall (ld : LinkDeduplicator) (r1 r2 : string) (u1 u2 : URL),
    SortQueryParams (normalizer ld) = true -> RemoveQuery (normalizer ld) = false ->
    Parse r1 = Some u1 -> Parse r2 = Some u2 ->
    set_RawQuery u1 "" = set_RawQuery u2 "" ->
    Query u1 = Query u2 ->
    NormalizeURL ld r1 = NormalizeURL ld r2.
Proof.
  intros ld r1 r2 u1 u2 Hs Hq H1 H2 Hu Hv.
  apply (NormalizeURL_same_fields ld r1 r2 u1 u2 H1 H2).
  assert (E2 : u2 = set_RawQuery u1 (RawQuery u2)).
  { destruct u1, u2. unfold set_RawQuery in *. cbn [Scheme Opaque Host Path RawQuery Fragment ForceQuery OmitHost] in *.
    injection Hu as -> -> -> -> -> -> ->. reflexivity. }
  rewrite E2, (normalizeFields_set_RawQuery _ u1 _ Hs Hq).
  rewrite <- (set_RawQuery_same u1) at 1.
  rewrite (normalizeFields_set_RawQuery _ u1 _ Hs Hq).
  unfold Query in Hv. rewrite Hv. reflexivity.
Qed.

Lemma NormalizeURL_query_by_values_witness :
  let ld := NewLinkDeduplicator (mkURLNormalizer false false false false false true) in
  NormalizeURL ld "https://example.com/s?b=2&a=1" = NormalizeURL ld "https://example.com/s?a=1&&b=2".
Proof.
  intros ld.
  apply (NormalizeURL_query_by_values ld _ _
           (mkURL "https" "" "example.com" "/s" "b=2&a=1" "" false false)
           (mkURL "https" "" "example.com" "/s" "a=1&&b=2" "" false false));
    reflexivity.
Defined.

Section Case.

Lemma ToLower_drop n : forall s, ToLower (drop n s) = drop n (ToLower s).
Proof. induction n as [|n IH]; intros [|c s]; cbn; auto. Qed.

Lemma ToLower_take n : forall s, ToLower (take n s) = take n (ToLower s).
Proof. induction n as [|n IH]; intros [|c s]; cbn; auto. rewrite IH. reflexivity. Qed.

Lemma ToLower_TrimSuffix p : ToLower (TrimSuffix p "/") = TrimSuffix (ToLower p) "/".
Proof.
  unfold TrimSuffix. rewrite (HasSuffix_ToLower "/" p eq_refl), length_ToLower.
  destruct (HasSuffix p "/"); [apply ToLower_take|reflexivity].
Qed.

Lemma normalizeFields_fields n u :
  normalizeFields n u
  = mkURL (Scheme u) (Opaque u)
      (if RemoveWWW n && HasPrefix (ToLower (Host u)) "www." then drop 4 (Host u) else Host u)
      (if RemoveTrailing n && negb (String.eqb (Path u) "/")
       then TrimSuffix (Path u) "/" else Path u)
      (if RemoveQuery n then ""
       else if SortQueryParams n then Encode (ParseQuery (RawQuery u)) else RawQuery u)
      (if RemoveFragment n then "" else Fragment u)
      (ForceQuery u) (OmitHost u).
Proof.
  unfold normalizeFields. destruct u as [sc op h pa q f fq oh].
  destruct (RemoveFragment n), (RemoveQuery n), (SortQueryParams n), (RemoveWWW n);
    rewrite ?sortedQuery_Query;
    unfold Query, set_Fragment, set_RawQuery, set_Path, set_Host;
    cbn [Scheme Opaque Host Path RawQuery Fragment ForceQuery OmitHost andb negb];
    try destruct (HasPrefix (ToLower h) "www.");
    cbn [Scheme Opaque Host Path RawQuery Fragment ForceQuery OmitHost andb negb];
    destruct (RemoveTrailing n && negb (String.eqb pa "/")); reflexivity.
Qed.

Lemma normalizeFields_lowerURL n u :
  (SortQueryParams n = true -> RemoveQuery n = false -> ToLower (RawQuery u) = RawQuery u) ->
  lowerURL (normalizeFields n (lowerURL u)) = lowerURL (normalizeFields n u).
Proof.
  intros Hq. rewrite !normalizeFields_fields. unfold lowerURL.
  cbn [Scheme Opaque Host Path RawQuery Fragment ForceQuery OmitHost].
  rewrite !ToLower_idem, (String_eqb_ToLower "/" (Path u) eq_refl).
  f_equal.
  - destruct (_ && _); rewrite ?ToLower_drop, ?ToLower_idem; reflexivity.
  - destruct (_ && _); rewrite ?ToLower_TrimSuffix, ?ToLower_idem; reflexivity.
  - destruct (RemoveQuery n); [reflexivity|].
    destruct (SortQueryParams n); [rewrite (Hq eq_refl eq_refl)|rewrite ToLower_idem];
      reflexivity.
  - destruct (RemoveFragment n); [reflexivity|apply ToLower_idem].
Qed.

End Case.

(** X10.  With [LowerCase], a URL with a host and the same URL in lower
    case have the same canonical form; where the query is sorted, for a
    query that is in lower case already. *)
Theorem NormalizeURL_ignores_case :
  forall (ld : LinkDeduplicator) (u : URL),
    LowerCase (normalizer ld) = true ->
    hosted u ->
    Host (normalizeFields (normalizer ld) u) <> "" ->
    (SortQueryParams (normalizer ld) = true -> RemoveQuery (normalizer ld) = false ->
     ToLower (RawQuery u) = RawQuery u) ->
    NormalizeURL ld (ToLower (String_ u)) = NormalizeURL ld (String_ u).
Proof.
  intros ld u Hl Hu Hh Hq. set (n := normalizer ld) in *.
  rewrite (ToLower_String_hosted u Hu).
  rewrite (NormalizeURL_Parse ld _ _ (Parse_String_hosted _ (hosted_lowerURL u Hu))).
  rewrite (NormalizeURL_Parse ld _ _ (Parse_String_hosted _ Hu)).
  fold n. rewrite Hl. f_equal.
  pose proof (normalizeFields_lowerURL n u Hq) as E.
  assert (Hv : hosted (normalizeFields n u)).
  { apply hosted_fields. split; [|exact Hh]. apply normalizeFields_wf.
    apply hosted_fields in Hu. tauto. }
  assert (Hv' : hosted (normalizeFields n (lowerURL u))).
  { apply hosted_fields. split.
    - apply normalizeFields_wf. pose proof (hosted_lowerURL u Hu) as H.
      apply hosted_fields in H. tauto.
    - intros H0. apply Hh. apply (f_equal Host) in E. cbn [lowerURL Host] in E.
      rewrite H0 in E. symmetry in E. apply ToLower_empty. exact E. }
  rewrite (ToLower_String_hosted _ Hv'), (ToLower_String_hosted _ Hv), E. reflexivity.
Qed.

Lemma NormalizeURL_ignores_case_witness :
  let ld := NewLinkDeduplicator (mkURLNormalizer true false true true true true) in
  NormalizeURL ld "https://example.com/docs/api?id=7" = NormalizeURL ld "https://Example.COM/Docs/API?id=7".
Proof.
  intros ld.
  apply (NormalizeURL_ignores_case ld
           (mkURL "https" "" "Example.COM" "/Docs/API" "id=7" "" false false)).
  - reflexivity.
  - repeat split; try reflexivity; try discriminate. right. eexists. reflexivity.
  - discriminate.
  - reflexivity.
Defined.

(** ** Content quality: metrics, score, issues, tags, statistics *)

Section Metrics.

Lemma Split_length s c : length (Split s c) = S (CountByte s c).
Proof.
  induction s as [|d s IH]; [reflexivity|]. cbn [Split CountByte].
  destruct (Ascii.eqb d c).
  - cbn [length]. rewrite IH. reflexivity.
  - destruct (Split s c) as [|first rest]; [discriminate|]. cbn [length] in *. lia.
Qed.

Lemma count_headers_from_bound s : forall line_start skip,
  (count_headers_from line_start skip s
   <= (if line_start then 1 else 0) + CountByte s "010")%nat.
Proof.
  induction s as [|c s IH]; intros line_start skip; [cbn; lia|].
  cbn [count_headers_from CountByte]. unfold is_newline.
  destruct skip as [|k].
  - destruct line_start.
    + destruct (header_len (String c s)).
      * specialize (IH (Ascii.eqb c "010") (n - 1)%nat).
        destruct (Ascii.eqb c "010"); lia.
      * specialize (IH (Ascii.eqb c "010") 0%nat). destruct (Ascii.eqb c "010"); lia.
    + specialize (IH (Ascii.eqb c "010") 0%nat). destruct (Ascii.eqb c "010"); lia.
  - specialize (IH (Ascii.eqb c "010") k). destruct (Ascii.eqb c "010"), line_start; lia.
Qed.

End Metrics.

(** X11.  The metrics [extractMetrics] returns: no count is negative;
    [ImageCount] and [LinkCount] are always 0, since nothing sets them;
    there is at least one line, no more empty lines and no more headers
    than lines; [EmptyLineRatio] is the quotient of empty lines and lines;
    both ratios lie between 0 and 1; [HasHeaders] holds exactly when
    [HeaderCount] is positive. *)
Theorem extractMetrics_invariants :
  forall (cqa : ContentQualityAnalyzer) (content : ScrapedContent),
    let m := extractMetrics cqa content in
    (0 <= m_WordCount m /\ 0 <= m_CodeBlockCount m /\ 0 <= m_HeaderCount m)
    /\ (m_ImageCount m = 0 /\ m_LinkCount m = 0)
    /\ (1 <= m_TotalLines m /\ 0 <= m_EmptyLines m <= m_TotalLines m
        /\ m_HeaderCount m <= m_TotalLines m)
    /\ (m_EmptyLineRatio m == inject_Z (m_EmptyLines m) / inject_Z (m_TotalLines m))%Q
    /\ (0 <= m_EmptyLineRatio m <= 1)%Q
    /\ (0 <= m_ContentRatio m <= 1)%Q
    /\ (m_HasHeaders m = true <-> 0 < m_HeaderCount m).
Proof.
  intros cqa content m.
  assert (Hl : m_TotalLines m = Z.of_nat (S (CountByte (sc_Content content) "010"))).
  { unfold m, extractMetrics. cbn [m_TotalLines]. rewrite Split_length. reflexivity. }
  assert (He : 0 <= m_EmptyLines m <= m_TotalLines m).
  { unfold m, extractMetrics. cbn [m_TotalLines m_EmptyLines]. split; [lia|].
    apply inj_le. apply length_filter. }
  assert (Hh : m_HeaderCount m <= m_TotalLines m).
  { rewrite Hl. unfold m, extractMetrics, countHeaders. cbn [m_HeaderCount].
    pose proof (count_headers_from_bound (sc_Content content) true 0) as H. cbv iota in H. lia. }
  assert (Hr : (m_EmptyLineRatio m == inject_Z (m_EmptyLines m) / inject_Z (m_TotalLines m))%Q).
  { unfold m, extractMetrics. cbn [m_TotalLines m_EmptyLines m_EmptyLineRatio].
    rewrite Split_length.
    destruct (Z.ltb_spec 0 (Z.of_nat (S (CountByte (sc_Content content) "010")))); [|lia].
    reflexivity. }
  repeat split.
  - unfold m, extractMetrics, countWords. cbn [m_WordCount]. lia.
  - unfold m, extractMetrics, countCodeBlocks. cbn [m_CodeBlockCount].
    apply Z.add_nonneg_nonneg; [lia|]. apply Z.div_pos; lia.
  - unfold m, extractMetrics, countHeaders. cbn [m_HeaderCount]. lia.
  - lia.
  - lia.
  - apply He.
  - exact Hh.
  - exact Hr.
  - rewrite Hr. apply ratio_bounds; lia.
  - rewrite Hr. apply ratio_bounds; lia.
  - apply estimateContentRatio_bounds.
  - apply estimateContentRatio_bounds.
  - unfold m, extractMetrics. cbn [m_HasHeaders m_HeaderCount]. apply Z.ltb_lt.
  - unfold m, extractMetrics. cbn [m_HasHeaders m_HeaderCount]. apply Z.ltb_lt.
Qed.

Section Scores.

Local Open Scope Q_scope.

Lemma wordScore_monotone m1 m2 :
  (m_WordCount m1 <= m_WordCount m2)%Z -> wordScore m1 <= wordScore m2.
Proof.
  intros H. pose proof (wordScore_bounds m1) as B1. pose proof (wordScore_bounds m2) as B2.
  unfold wordScore in *.
  destruct (Z.leb_spec 500 (m_WordCount m2)); [tauto|].
  destruct (Z.leb_spec 500 (m_WordCount m1)); [lia|].
  destruct (Z.leb_spec 100 (m_WordCount m1)).
  - destruct (Z.leb_spec 100 (m_WordCount m2)); [|lia].
    change 500 with (inject_Z 500).
    apply (ratio_le (m_WordCount m1) 500 (m_WordCount m1) (m_WordCount m2)); lia.
  - tauto.
Qed.

Lemma codeScore_monotone m1 m2 :
  (m_CodeBlockCount m1 <= m_CodeBlockCount m2)%Z -> codeScore m1 <= codeScore m2.
Proof.
  intros H. pose proof (codeScore_bounds m1) as B1. pose proof (codeScore_bounds m2) as B2.
  unfold codeScore in *.
  destruct (Z.leb_spec 3 (m_CodeBlockCount m2)); [tauto|].
  destruct (Z.leb_spec 3 (m_CodeBlockCount m1)); [lia|].
  destruct (Z.ltb_spec 0 (m_CodeBlockCount m1)).
  - destruct (Z.ltb_spec 0 (m_CodeBlockCount m2)); [|lia].
    change 3 with (inject_Z 3).
    apply (ratio_le (m_CodeBlockCount m1) 3 (m_CodeBlockCount m1) (m_CodeBlockCount m2)); lia.
  - tauto.
Qed.

Lemma headerScore_monotone m1 m2 :
  (m_HeaderCount m1 <= m_HeaderCount m2)%Z -> headerScore m1 <= headerScore m2.
Proof.
  intros H. pose proof (headerScore_bounds m1) as B1. pose proof (headerScore_bounds m2) as B2.
  unfold headerScore in *.
  destruct (Z.leb_spec 3 (m_HeaderCount m2)); [tauto|].
  destruct (Z.leb_spec 3 (m_HeaderCount m1)); [lia|].
  destruct (Z.ltb_spec 0 (m_HeaderCount m1)).
  - destruct (Z.ltb_spec 0 (m_HeaderCount m2)); [|lia].
    change 3 with (inject_Z 3).
    apply (ratio_le (m_HeaderCount m1) 3 (m_HeaderCount m1) (m_HeaderCount m2)); lia.
  - tauto.
Qed.

Lemma contentRatioScore_monotone m1 m2 :
  m_ContentRatio m1 <= m_ContentRatio m2 -> contentRatioScore m1 <= contentRatioScore m2.
Proof.
  intros H. unfold contentRatioScore.
  destruct (Qltb 1 (m_ContentRatio m1)) eqn:E1; destruct (Qltb 1 (m_ContentRatio m2)) eqn:E2;
    rewrite ?Qltb_true, ?Qltb_false in *; lra.
Qed.

Lemma titleScore_monotone m1 m2 :
  (m_HasTitle m1 = true -> m_HasTitle m2 = true) -> titleScore m1 <= titleScore m2.
Proof.
  intros H. unfold titleScore. destruct (m_HasTitle m1); [rewrite H by reflexivity; lra|].
  destruct (m_HasTitle m2); lra.
Qed.

End Scores.

(** X12.  With weights that are not negative, [CalculateScore] is
    monotone: more words, code blocks and headers, a greater content
    ratio and a title where there was one never lower the score. *)
Theorem CalculateScore_monotone :
  forall (qs : QualityScorer) (m1 m2 : ContentMetrics),
    (0 <= w_WordCount (weights qs) /\ 0 <= w_CodeBlocks (weights qs)
     /\ 0 <= w_Headers (weights qs) /\ 0 <= w_ContentRatio (weights qs)
     /\ 0 <= w_TitlePresence (weights qs))%Q ->
    m_WordCount m1 <= m_WordCount m2 ->
    m_CodeBlockCount m1 <= m_CodeBlockCount m2 ->
    m_HeaderCount m1 <= m_HeaderCount m2 ->
    (m_ContentRatio m1 <= m_ContentRatio m2)%Q ->
    (m_HasTitle m1 = true -> m_HasTitle m2 = true) ->
    (CalculateScore qs m1 <= CalculateScore qs m2)%Q.
Proof.
  intros qs m1 m2 (W1 & W2 & W3 & W4 & W5) H1 H2 H3 H4 H5.
  pose proof (wordScore_monotone m1 m2 H1). pose proof (codeScore_monotone m1 m2 H2).
  pose proof (headerScore_monotone m1 m2 H3). pose proof (contentRatioScore_monotone m1 m2 H4).
  pose proof (titleScore_monotone m1 m2 H5).
  unfold CalculateScore.
  repeat apply Qplus_le_compat; try apply Qle_refl; apply Qmult_le_compat_r; assumption.
Qed.

Lemma CalculateScore_monotone_witness :
  let qs := scorer (NewContentQualityAnalyzer scenario_config) in
  let m1 := mkContentMetrics 120 0 0 0 1 0 (1 # 2) false true 10 0 in
  let m2 := mkContentMetrics 480 2 0 0 1 0 (1 # 2) true true 10 0 in
  m_WordCount m1 <= m_WordCount m2
  /\ (CalculateScore qs m1 <= CalculateScore qs m2)%Q.
Proof.
  intros qs m1 m2. split; [cbn; lia|].
  apply (CalculateScore_monotone qs m1 m2); cbn; try lia; try discriminate; try reflexivity.
  repeat split; discriminate.
Defined.

(** X13.  With the weights of [NewContentQualityAnalyzer] no page scores
    more than 0.9, and some page scores 0.9: the weight 0.1 of [Images]
    is part of the weights but never enters the sum of [CalculateScore]. *)
Theorem Score_at_most_nine_tenths :
  (forall (cfg : QualityConfig) (content : ScrapedContent),
     (Score (fst (AnalyzeContent (NewContentQualityAnalyzer cfg) content)) <= 9 # 10)%Q)
  /\ (exists content : ScrapedContent, forall cfg : QualityConfig,
        (Score (fst (AnalyzeContent (NewContentQualityAnalyzer cfg) content)) == 9 # 10)%Q).
Proof.
  split.
  - intros cfg content. set (cqa := NewContentQualityAnalyzer cfg).
    set (m := extractMetrics cqa content).
    assert (Hs : (Score (fst (AnalyzeContent cqa content))
                  == wordScore m * (3 # 10) + codeScore m * (2 # 10)
                     + headerScore m * (15 # 100) + contentRatioScore m * (15 # 100)
                     + titleScore m * (1 # 10))%Q)
      by apply CalculateScore_default.
    assert (Hr : (0 <= m_ContentRatio m <= 1)%Q) by apply estimateContentRatio_bounds.
    destruct (contentRatioScore_bounds m (proj1 Hr)) as [Hcb _].
    pose proof (wordScore_bounds m). pose proof (codeScore_bounds m).
    pose proof (headerScore_bounds m). pose proof (titleScore_bounds m).
    lra.
  - exists (mkScrapedContent "https://example.com/guide" "Guide"
              (Repeat "word " 500 +:+ String "010" ("# a" +:+ String "010" ("# b"
                 +:+ String "010" ("# c" +:+ String "010" "```x``` ```y``` ```z```"))))
              (mkNodeMetadata 0 0 "text/html" false false)).
    intros cfg. vm_compute. reflexivity.
Qed.

Section Issues.

Lemma DetectIssues_errors cqa content :
  existsb (fun issue => String.eqb (Severity issue) "error") (DetectIssues cqa content)
  = (RequireTitle (config cqa)
     && (String.eqb (sc_Title content) "" || String.eqb (sc_Title content) "Untitled"))
    || (RequireContent (config cqa) && (len (TrimSpace (sc_Content content)) =? 0)).
Proof.
  unfold DetectIssues. cbv zeta.
  destruct (Z.of_nat (length (Fields (sc_Content content))) <? MinWordCount (config cqa));
    destruct (RequireTitle (config cqa)
              && (String.eqb (sc_Title content) "" || String.eqb (sc_Title content) "Untitled"));
    destruct (RequireContent (config cqa) && (len (TrimSpace (sc_Content content)) =? 0));
    destruct (filter _ (BlacklistPatterns (config cqa))) as [|first [|second others]];
    rewrite ?existsb_app; reflexivity.
Qed.

Lemma len_zero s : (len s =? 0) = true <-> s = "".
Proof.
  unfold len. rewrite Z.eqb_eq. destruct s; cbn [String.length]; split; intros H;
    try reflexivity; try discriminate; lia.
Qed.

End Issues.

(** X14.  [ShouldSkip] on the quality [AnalyzeContent] returns for a page
    holds exactly when the score is below 0.3, or navigation pages are
    skipped and the page is one, or a title is required and the title is
    empty or [Untitled], or content is required and the content is white
    space only.  The issues of severity [warning], a low word count and a
    blacklisted pattern, never make a page skipped. *)
Theorem ShouldSkip_after_AnalyzeContent :
  forall (cqa : ContentQualityAnalyzer) (content : ScrapedContent),
    let quality := fst (AnalyzeContent cqa content) in
    ShouldSkip cqa quality = true
    <-> (Score quality < 3 # 10)%Q
        \/ (SkipNavigationPages (config cqa) = true /\ IsNavigationPage cqa content = true)
        \/ (RequireTitle (config cqa) = true
            /\ (sc_Title content = "" \/ sc_Title content = "Untitled"))
        \/ (RequireContent (config cqa) = true /\ TrimSpace (sc_Content content) = "").
Proof.
  intros cqa content quality. unfold ShouldSkip.
  assert (Hi : Issues quality = DetectIssues cqa content) by reflexivity.
  assert (Hn : IsNavigationPage_ quality = IsNavigationPage cqa content) by reflexivity.
  rewrite Hi, Hn, DetectIssues_errors.
  destruct (Qltb (Score quality) (3 # 10)) eqn:Es.
  { apply Qltb_true in Es. tauto. }
  apply Qltb_false in Es.
  assert (Hs : ~ (Score quality < 3 # 10)%Q) by (apply Qle_not_lt; exact Es).
  destruct (SkipNavigationPages (config cqa)), (IsNavigationPage cqa content);
    cbn [andb]; try tauto;
    rewrite orb_true_iff, !andb_true_iff, orb_true_iff, !String.eqb_eq, len_zero;
    intuition congruence.
Qed.

Section Blank.

Lemma rev_string_empty s : forall acc, rev_string acc s = "" -> acc = "" /\ s = "".
Proof.
  induction s as [|c s IH]; intros acc H; [auto|].
  cbn [rev_string] in H. apply IH in H. destruct H; discriminate.
Qed.

Lemma all_bytes_rev_string p s : forall acc,
  all_bytes p (rev_string acc s) = all_bytes p acc && all_bytes p s.
Proof.
  induction s as [|c s IH]; intros acc; cbn [rev_string all_bytes].
  - rewrite andb_true_r. reflexivity.
  - rewrite IH. cbn [all_bytes]. destruct (p c), (all_bytes p acc), (all_bytes p s); reflexivity.
Qed.

Lemma trim_left_empty s : trim_left s = "" <-> all_bytes is_space s = true.
Proof.
  induction s as [|c s IH]; [cbn; tauto|]. cbn [trim_left all_bytes].
  destruct (is_space c); cbn [andb]; [exact IH|]. split; discriminate.
Qed.

Lemma TrimSpace_empty s : TrimSpace s = "" <-> all_bytes is_space s = true.
Proof.
  unfold TrimSpace. split.
  - intros H. apply rev_string_empty in H. destruct H as [_ H].
    apply trim_left_empty in H. rewrite all_bytes_rev_string in H. cbn [all_bytes andb] in H.
    destruct (trim_left s) as [|c t] eqn:E; [apply trim_left_empty; exact E|].
    assert (Hc : is_space c = false).
    { clear H. induction s as [|d s IH]; [discriminate|]. cbn [trim_left] in E.
      destruct (is_space d) eqn:Ed; [auto|]. injection E as <- _. exact Ed. }
    cbn [all_bytes] in H. rewrite Hc in H. discriminate.
  - intros H. apply trim_left_empty in H. rewrite H. reflexivity.
Qed.

Lemma fields_from_nil s : forall cur,
  fields_from cur s = [] <-> cur = "" /\ all_bytes is_space s = true.
Proof.
  induction s as [|c s IH]; intros cur.
  - cbn. destruct cur; split; try tauto; try discriminate. intros [H _]. discriminate.
  - cbn [fields_from all_bytes]. destruct (is_space c); cbn [andb].
    + destruct cur as [|d cur]; [rewrite IH; tauto|].
      split; [discriminate|]. intros [H _]. discriminate.
    + rewrite IH. split; [intros [H _]; discriminate|intros [_ H]; discriminate].
Qed.

Lemma countWords_zero s : countWords s = 0 <-> all_bytes is_space s = true.
Proof.
  unfold countWords, Fields. pose proof (fields_from_nil s "") as F.
  destruct (fields_from "" s) as [|w l]; cbn [length]; split; intros H.
  - apply F. reflexivity.
  - reflexivity.
  - lia.
  - assert (E : w :: l = []) by (apply F; split; [reflexivity|exact H]). discriminate.
Qed.

Lemma DetectIssues_types cqa content :
  map Type_ (DetectIssues cqa content)
  = (if countWords (sc_Content content) <? MinWordCount (config cqa)
     then ["word_count"] else [])
    ++ (if RequireTitle (config cqa)
           && (String.eqb (sc_Title content) "" || String.eqb (sc_Title content) "Untitled")
        then ["missing_title"] else [])
    ++ (if RequireContent (config cqa) && (len (TrimSpace (sc_Content content)) =? 0)
        then ["empty_content"] else [])
    ++ (if existsb (fun pattern => Contains (ToLower (sc_Content content)) (ToLower pattern))
                   (BlacklistPatterns (config cqa))
        then ["blacklisted_content"] else []).
Proof.
  assert (Hb : forall l : list string,
    match filter (fun pattern => Contains (ToLower (sc_Content content)) (ToLower pattern) = true) l with
    | [] => false | _ => true end
    = existsb (fun pattern => Contains (ToLower (sc_Content content)) (ToLower pattern)) l).
  { induction l as [|x l IH]; [reflexivity|]. cbn [existsb].
    destruct (Contains (ToLower (sc_Content content)) (ToLower x)) eqn:E.
    - rewrite filter_cons_True by exact E. reflexivity.
    - rewrite filter_cons_False by (rewrite E; discriminate). exact IH. }
  unfold DetectIssues, countWords. cbv zeta.
  rewrite <- Hb.
  destruct (Z.of_nat (length (Fields (sc_Content content))) <? MinWordCount (config cqa));
    destruct (RequireTitle (config cqa)
              && (String.eqb (sc_Title content) "" || String.eqb (sc_Title content) "Untitled"));
    destruct (RequireContent (config cqa) && (len (TrimSpace (sc_Content content)) =? 0));
    destruct (filter _ (BlacklistPatterns (config cqa))) as [|first [|second others]];
    reflexivity.
Qed.

End Blank.

(** X15.  A content is white space only exactly when [countWords] counts
    no word in it; so whenever [DetectIssues] reports [empty_content]
    and the least word count of the configuration is positive, it
    reports [word_count] as well. *)
Theorem blank_content_has_no_words :
  forall (cqa : ContentQualityAnalyzer) (content : ScrapedContent),
    (TrimSpace (sc_Content content) = "" <-> countWords (sc_Content content) = 0)
    /\ (In "empty_content" (map Type_ (DetectIssues cqa content)) ->
        0 < MinWordCount (config cqa) ->
        In "word_count" (map Type_ (DetectIssues cqa content))).
Proof.
  intros cqa content.
  assert (H : TrimSpace (sc_Content content) = "" <-> countWords (sc_Content content) = 0).
  { rewrite TrimSpace_empty, countWords_zero. tauto. }
  split; [exact H|]. rewrite DetectIssues_types. intros Hin Hmin.
  destruct (RequireContent (config cqa) && (len (TrimSpace (sc_Content content)) =? 0)) eqn:E.
  - apply andb_true_iff in E. destruct E as [_ E]. apply len_zero in E. apply H in E.
    rewrite E. destruct (Z.ltb_spec 0 (MinWordCount (config cqa))); [|lia].
    left. reflexivity.
  - exfalso. revert Hin.
    destruct (countWords (sc_Content content) <? MinWordCount (config cqa));
      destruct (RequireTitle (config cqa) && _);
      destruct (existsb _ _); simpl; intros Hin;
      repeat (destruct Hin as [Hin|Hin]; try discriminate); exact Hin.
Qed.

Lemma blank_content_has_no_words_witness :
  let cqa := NewContentQualityAnalyzer (mkQualityConfig 50 0 0 false true false 0 [] []) in
  let content := mkScrapedContent "https://example.com/" "Home" "   " (mkNodeMetadata 0 0 "" false false) in
  In "word_count" (map Type_ (DetectIssues cqa content)).
Proof.
  intros cqa content.
  apply (proj2 (blank_content_has_no_words cqa content)).
  - vm_compute. right. left. reflexivity.
  - reflexivity.
Defined.

Section Navigation.

Lemma count_indicators_bounds (P : string -> bool) (k : Z) l : forall acc,
  0 <= k ->
  acc <= fold_left (fun acc indicator => if P indicator then acc + k else acc) l acc
  /\ (existsb P l = true ->
      acc + k <= fold_left (fun acc indicator => if P indicator then acc + k else acc) l acc)
  /\ (existsb P l = false ->
      fold_left (fun acc indicator => if P indicator then acc + k else acc) l acc = acc).
Proof.
  intros acc Hk. revert acc. induction l as [|x l IH]; intros acc.
  - cbn. repeat split; try lia; discriminate.
  - cbn [fold_left existsb]. destruct (P x); cbn [orb].
    + destruct (IH (acc + k)) as (H1 & _ & _). repeat split; try lia; discriminate.
    + destruct (IH acc) as (H1 & H2 & H3). repeat split; auto.
Qed.

End Navigation.

(** X16.  [IsNavigationPage]: one navigation indicator in the title makes
    a page a navigation page, whatever its content; a page with no
    indicator in the title and none in the content is none. *)
Theorem IsNavigationPage_by_indicators :
  forall (cqa : ContentQualityAnalyzer) (content : ScrapedContent),
    let in_title :=
      existsb (fun indicator => Contains (ToLower (sc_Title content)) indicator) navIndicators in
    let in_text :=
      existsb (fun indicator => Contains (ToLower (sc_Content content)) indicator) navIndicators in
    (in_title = true -> IsNavigationPage cqa content = true)
    /\ (in_title = false -> in_text = false -> IsNavigationPage cqa content = false).
Proof.
  intros cqa content in_title in_text. unfold IsNavigationPage. cbv zeta.
  set (n1 := fold_left (fun acc indicator =>
                          if Contains (ToLower (sc_Content content)) indicator
                          then acc + 1 else acc) navIndicators 0).
  set (n2 := fold_left (fun acc indicator =>
                          if Contains (ToLower (sc_Title content)) indicator
                          then acc + 2 else acc) navIndicators n1).
  destruct (count_indicators_bounds
              (fun indicator => Contains (ToLower (sc_Content content)) indicator) 1
              navIndicators 0 ltac:(lia)) as (A1 & _ & A3).
  destruct (count_indicators_bounds
              (fun indicator => Contains (ToLower (sc_Title content)) indicator) 2
              navIndicators n1 ltac:(lia)) as (B1 & B2 & B3).
  fold n1 in A1, A3. fold n2 in B1, B2, B3. fold in_text in A3. fold in_title in B2, B3.
  split.
  - intros Ht. specialize (B2 Ht). apply Z.leb_le. destruct (_ && _); lia.
  - intros Ht Hx. rewrite (B3 Ht), (A3 Hx). destruct (_ && _); reflexivity.
Qed.

Lemma IsNavigationPage_by_indicators_witness :
  let cqa := NewContentQualityAnalyzer scenario_config in
  let content := mkScrapedContent "https://example.com/all" "API Index" "Functions of the package."
                   (mkNodeMetadata 4 0 "text/html" false false) in
  IsNavigationPage cqa content = true.
Proof.
  intros cqa content.
  apply (proj1 (IsNavigationPage_by_indicators cqa content)). reflexivity.
Defined.

(** X17.  The tags of [generateTags] come in a fixed order and none comes
    twice; [long-form] and [short-form] exclude each other;
    [comprehensive] comes with [technical] and without [short-form];
    [technical] is there exactly for a page with a code block, and
    [structured] exactly for a page with headers. *)
Theorem generateTags_consistent :
  forall (cqa : ContentQualityAnalyzer) (content : ScrapedContent) (metrics : ContentMetrics),
    let tags := generateTags cqa content metrics in
    tags `sublist_of`
      ["technical"; "long-form"; "short-form"; "structured"; "comprehensive"; "low-content"]
    /\ ~ (In "long-form" tags /\ In "short-form" tags)
    /\ (In "comprehensive" tags -> In "technical" tags /\ ~ In "short-form" tags)
    /\ (In "technical" tags <-> 0 < m_CodeBlockCount metrics)
    /\ (In "structured" tags <-> m_HasHeaders metrics = true).
Proof.
  intros cqa content metrics tags. unfold tags, generateTags. cbv zeta.
  destruct (Z.ltb_spec 0 (m_CodeBlockCount metrics));
    destruct (Z.ltb_spec 1000 (m_WordCount metrics));
    destruct (Z.ltb_spec (m_WordCount metrics) 200);
    destruct (m_HasHeaders metrics);
    destruct (Z.leb_spec 500 (m_WordCount metrics));
    destruct (Z.leb_spec 2 (m_CodeBlockCount metrics));
    destruct (Qltb (m_ContentRatio metrics) (3 # 10));
    try lia; simpl;
    (split; [repeat first [apply sublist_nil | apply sublist_skip | apply sublist_cons]|]);
    intuition (try discriminate; try lia; auto).
Qed.

Section Statistics.

Lemma updateStats_ok st passed words quality :
  stats_ok st passed words -> 0 <= WordCount quality ->
  stats_ok (updateStats st quality)
    (if passes quality then passed + 1 else passed) (words + WordCount quality)
  /\ TotalPages (updateStats st quality) = TotalPages st + 1.
Proof.
  intros (H0 & H1 & H2 & H3 & H4) Hw. unfold updateStats, stats_ok, passes.
  cbn [TotalPages PassedPages FailedPages AverageScore AverageWordCount].
  replace (TotalPages st + 1 - 1) with (TotalPages st) by lia.
  set (n := TotalPages st) in *. set (a := AverageWordCount st) in *.
  assert (Hq : (a * n + WordCount quality) ÷ (n + 1) = (a * n + WordCount quality) / (n + 1)).
  { apply Z.quot_div_nonneg; nia. }
  rewrite Hq.
  assert (Hd : 0 <= (a * n + WordCount quality) / (n + 1)) by (apply Z.div_pos; nia).
  assert (Hm : (n + 1) * ((a * n + WordCount quality) / (n + 1)) <= a * n + WordCount quality)
    by (apply Z.mul_div_le; lia).
  split; [|reflexivity].
  destruct (Qle_bool (4 # 10) (Score quality)); repeat split; try lia; nia.
Qed.

Lemma AnalyzeContent_stats cqa content :
  stats (snd (AnalyzeContent cqa content))
  = updateStats (stats cqa) (fst (AnalyzeContent cqa content))
  /\ WordCount (fst (AnalyzeContent cqa content)) = countWords (sc_Content content).
Proof. split; reflexivity. Qed.

Lemma AnalyzeContents_stats contents : forall cqa passed words,
  stats_ok (stats cqa) passed words ->
  let run := AnalyzeContents cqa contents in
  stats_ok (stats (snd run))
    (passed + Z.of_nat (length (filter (fun q => passes q = true) (fst run))))
    (words + total_words (fst run))
  /\ TotalPages (stats (snd run)) = TotalPages (stats cqa) + Z.of_nat (length contents)
  /\ map WordCount (fst run) = map (fun c => countWords (sc_Content c)) contents.
Proof.
  induction contents as [|c rest IH]; intros cqa passed words Hok.
  - cbn. rewrite !Z.add_0_r. auto.
  - cbn [AnalyzeContents]. destruct (AnalyzeContent cqa c) as [q cqa'] eqn:E.
    destruct (AnalyzeContent_stats cqa c) as [Hs Hw]. rewrite E in Hs, Hw. cbn [fst snd] in Hs, Hw.
    assert (Hq : 0 <= WordCount q) by (rewrite Hw; unfold countWords; lia).
    destruct (updateStats_ok (stats cqa) passed words q Hok Hq) as [Hok' Ht].
    rewrite <- Hs in Hok', Ht.
    specialize (IH cqa' _ _ Hok'). destruct (AnalyzeContents cqa' rest) as [qs cqa''] eqn:E'.
    cbn [fst snd] in *. destruct IH as (I1 & I2 & I3).
    unfold total_words in *. cbn [map fold_right length].
    split; [|split].
    + destruct (passes q) eqn:Ep.
      * rewrite filter_cons_True by exact Ep. cbn [length].
        replace (passed + Z.of_nat (S (length (filter (fun q0 => passes q0 = true) qs))))
          with (passed + 1 + Z.of_nat (length (filter (fun q0 => passes q0 = true) qs))) by lia.
        replace (words + (WordCount q + fold_right Z.add 0 (map WordCount qs)))
          with (words + WordCount q + fold_right Z.add 0 (map WordCount qs)) by lia.
        exact I1.
      * rewrite filter_cons_False by (rewrite Ep; discriminate).
        replace (words + (WordCount q + fold_right Z.add 0 (map WordCount qs)))
          with (words + WordCount q + fold_right Z.add 0 (map WordCount qs)) by lia.
        exact I1.
    + lia.
    + rewrite Hw, I3. reflexivity.
Qed.

End Statistics.

(** X18.  The statistics after [AnalyzeContent] on each page of a list, from
    a new analyzer, as [GenerateReport] reports them, while the pages and
    their words stay below 2^63 in number: [TotalPages] is the number of
    pages, split into [PassedPages] and [FailedPages]; the running
    [AverageWordCount], which is rounded down at every page, is never
    above the mean of the word counts.  The lists [TopPages],
    [WorstPages] and [CommonIssues] of the report are always empty. *)
Theorem stats_after_AnalyzeContents :
  forall (cfg : QualityConfig) (contents : list ScrapedContent),
    let run := AnalyzeContents (NewContentQualityAnalyzer cfg) contents in
    let report := GenerateReport (snd run) in
    let st := r_Stats report in
    Z.of_nat (length contents) + total_words (fst run) < 2 ^ 63 ->
    TotalPages st = Z.of_nat (length contents)
    /\ 0 <= PassedPages st <= TotalPages st
    /\ PassedPages st + FailedPages st = TotalPages st
    /\ 0 <= AverageWordCount st
    /\ AverageWordCount st * TotalPages st <= total_words (fst run)
    /\ map WordCount (fst run) = map (fun c => countWords (sc_Content c)) contents
    /\ r_TopPages report = [] /\ r_WorstPages report = [] /\ r_CommonIssues report = [].
Proof.
  intros cfg contents run report st _.
  assert (H0 : stats_ok (stats (NewContentQualityAnalyzer cfg)) 0 0).
  { cbn. unfold stats_ok. cbn. lia. }
  destruct (AnalyzeContents_stats contents _ 0 0 H0) as ((_ & H1 & H2 & H3 & H4) & H5 & H6).
  fold run in H1, H2, H3, H4, H5, H6.
  change (stats (snd run)) with st in *.
  rewrite !Z.add_0_l in *. cbn [NewContentQualityAnalyzer stats TotalPages] in H5.
  assert (Hl : length (fst run) = length contents).
  { rewrite <- (length_map WordCount), H6, length_map. reflexivity. }
  pose proof (length_filter (fun q => passes q = true) (fst run)) as Hf.
  repeat split; try assumption; lia.
Qed.

Lemma stats_after_AnalyzeContents_witness :
  let run := AnalyzeContents (NewContentQualityAnalyzer scenario_config)
               [scenario_page; fifty_words; scenario_page] in
  TotalPages (stats (snd run)) = 3
  /\ AverageWordCount (stats (snd run)) * 3 <= total_words (fst run).
Proof.
  intros run.
  pose proof (stats_after_AnalyzeContents scenario_config
                [scenario_page; fifty_words; scenario_page]) as H.
  cbv zeta in H. fold run in H.
  assert (Hb : Z.of_nat 3 + total_words (fst run) < 2 ^ 63) by (vm_compute; reflexivity).
  destruct (H Hb) as (Ht & _ & _ & _ & Ha & _).
  change (r_Stats (GenerateReport (snd run))) with (stats (snd run)) in Ht, Ha.
  split; [exact Ht|]. rewrite Ht in Ha. exact Ha.
Defined.

(** ** The configuration and robots.txt *)

(* ---- definitions part ---- *)

Lemma SetDefaults_fixed (c : config.Config) :
  (config.RemoveFragments (config.Deduplication c) = true
   \/ config.RemoveQueryParams (config.Deduplication c) = true) ->
  ~ (config.MinScore (config.QualityAnalysis c) == 0)%Q ->
  config.ValidationLevel (config.DevTools c) <> "" ->
  config.UserAgents c <> [] ->
  config.OutputFormat c <> "" -> config.OutputType c <> "" ->
  ~ (config.MinDelay c = 0 /\ config.MaxDelay c = 0) ->
  config.MaxDepth c <> 0 ->
  config.SetDefaults c = c.
Proof.
  intros P1 P2 P3 P4 P5 P6 P7 P8. unfold config.SetDefaults.
  assert (E1 : negb (config.RemoveFragments (config.Deduplication c))
               && negb (config.RemoveQueryParams (config.Deduplication c)) = false).
  { destruct P1 as [-> | ->]; [reflexivity|apply andb_false_r]. }
  assert (E2 : Qeq_bool (config.MinScore (config.QualityAnalysis c)) 0 = false).
  { destruct (Qeq_bool _ 0) eqn:E; [|reflexivity]. apply Qeq_bool_iff in E. contradiction. }
  assert (E3 : (config.MinDelay c =? 0) && (config.MaxDelay c =? 0) = false).
  { destruct (Z.eqb_spec (config.MinDelay c) 0), (Z.eqb_spec (config.MaxDelay c) 0);
      try reflexivity. tauto. }
  assert (E4 : (config.MaxDepth c =? 0) = false) by (apply Z.eqb_neq; assumption).
  apply String.eqb_neq in P3, P5, P6.
  rewrite E1, E2, E3, E4, P3, P5, P6.
  destruct c as [ru fo ot od ua mi ma md rr lf vb px cr uh ed eq ev de qa dt].
  cbn in *. destruct ua; [contradiction|reflexivity].
Qed.

(** X19.  [SetDefaults] a second time changes nothing; after it the
    deduplication removes fragments or query parameters, the least score
    is not 0, and the validation level, the user agents, the output
    format and type, the delays and the greatest depth are set. *)
Theorem SetDefaults_settles :
  forall c : config.Config,
    let d := config.SetDefaults c in
    config.SetDefaults d = d
    /\ (config.RemoveFragments (config.Deduplication d) = true
        \/ config.RemoveQueryParams (config.Deduplication d) = true)
    /\ ~ (config.MinScore (config.QualityAnalysis d) == 0)%Q
    /\ config.ValidationLevel (config.DevTools d) <> ""
    /\ config.UserAgents d <> []
    /\ config.OutputFormat d <> "" /\ config.OutputType d <> ""
    /\ ~ (config.MinDelay d = 0 /\ config.MaxDelay d = 0)
    /\ config.MaxDepth d <> 0.
Proof.
  intros c d.
  assert (P1 : config.RemoveFragments (config.Deduplication d) = true
               \/ config.RemoveQueryParams (config.Deduplication d) = true).
  { unfold d, config.SetDefaults.
    destruct (negb _ && negb _) eqn:E; destruct (_ && _) in |- *; cbn; auto;
      destruct (config.RemoveFragments _), (config.RemoveQueryParams _); auto; discriminate. }
  assert (P2 : ~ (config.MinScore (config.QualityAnalysis d) == 0)%Q).
  { unfold d, config.SetDefaults.
    destruct (Qeq_bool _ 0) eqn:E; destruct (_ && _); cbn; try discriminate;
      intros H; apply Qeq_bool_iff in H; congruence. }
  assert (P3 : config.ValidationLevel (config.DevTools d) <> "").
  { unfold d, config.SetDefaults.
    destruct (String.eqb_spec (config.ValidationLevel (config.DevTools c)) "");
      destruct (_ && _); cbn; try discriminate; assumption. }
  assert (P4 : config.UserAgents d <> []).
  { unfold d, config.SetDefaults.
    destruct (config.UserAgents c); destruct (_ && _); cbn; discriminate. }
  assert (P5 : config.OutputFormat d <> "").
  { unfold d, config.SetDefaults.
    destruct (String.eqb_spec (config.OutputFormat c) "");
      destruct (_ && _); cbn; try discriminate; assumption. }
  assert (P6 : config.OutputType d <> "").
  { unfold d, config.SetDefaults.
    destruct (String.eqb_spec (config.OutputType c) "");
      destruct (_ && _); cbn; try discriminate; assumption. }
  assert (P7 : ~ (config.MinDelay d = 0 /\ config.MaxDelay d = 0)).
  { unfold d, config.SetDefaults.
    destruct (Z.eqb_spec (config.MinDelay c) 0); destruct (Z.eqb_spec (config.MaxDelay c) 0);
      cbn; lia. }
  assert (P8 : config.MaxDepth d <> 0).
  { unfold d, config.SetDefaults.
    destruct (Z.eqb_spec (config.MaxDepth c) 0); destruct (_ && _); cbn; [discriminate|discriminate|assumption|assumption]. }
  split; [|tauto].
  apply SetDefaults_fixed; assumption.
Qed.

Section Validation.

Lemma Validate_None (c : config.Config) :
  config.Validate c = None
  <-> config.RootURL c <> ""
      /\ (exists parsedURL, Parse (config.RootURL c) = Some parsedURL
            /\ Scheme parsedURL <> "" /\ Host parsedURL <> "")
      /\ 0 <= config.MinDelay c <= config.MaxDelay c
      /\ 0 <= config.MaxDepth c
      /\ config.contains ["markdown"; "text"; "json"] (config.OutputFormat c) = true
      /\ config.contains ["single"; "per-page"] (config.OutputType c) = true
      /\ existsb (fun proxy => String.eqb proxy "" || Contains proxy "not-a-valid")
                 (config.Proxies c) = false
      /\ 0 < config.GetConcurrentRequests c.
Proof.
  unfold config.Validate, config.GetConcurrentRequests.
  destruct (String.eqb_spec (config.RootURL c) "") as [E0|E0].
  { split; [discriminate|tauto]. }
  destruct (Parse (config.RootURL c)) as [u|].
  2:{ split; [discriminate|]. intros (_ & (u & H & _) & _). discriminate. }
  destruct (String.eqb_spec (Scheme u) "") as [E1|E1]; cbn [orb].
  { split; [discriminate|]. intros (_ & (u' & H & H1 & _) & _). congruence. }
  destruct (String.eqb_spec (Host u) "") as [E2|E2].
  { split; [discriminate|]. intros (_ & (u' & H & _ & H2) & _). congruence. }
  destruct (Z.ltb_spec (config.MinDelay c) 0).
  { split; [discriminate|]. lia. }
  destruct (Z.ltb_spec (config.MaxDelay c) (config.MinDelay c)).
  { split; [discriminate|]. lia. }
  destruct (Z.ltb_spec (config.MaxDepth c) 0).
  { split; [discriminate|]. lia. }
  destruct (config.contains ["markdown"; "text"; "json"] (config.OutputFormat c)); cbn [negb].
  2:{ split; [discriminate|]. intuition discriminate. }
  destruct (config.contains ["single"; "per-page"] (config.OutputType c)); cbn [negb].
  2:{ split; [discriminate|]. intuition discriminate. }
  destruct (existsb _ (config.Proxies c)).
  { split; [discriminate|]. intuition discriminate. }
  destruct (config.ConcurrentRequests c) as [n|]; unfold default; cbn [from_option id].
  - destruct (Z.leb_spec n 0).
    + split; [discriminate|]. lia.
    + split; [|reflexivity]. intros _. repeat split; try assumption; try lia. eauto.
  - split; [|reflexivity]. intros _. repeat split; try assumption; try lia. eauto.
Qed.

End Validation.

(** X20.  A configuration [Validate] accepts is still accepted after
    [SetDefaults]. *)
Theorem Validate_kept_by_SetDefaults :
  forall c : config.Config,
    config.Validate c = None -> config.Validate (config.SetDefaults c) = None.
Proof.
  intros c H. apply Validate_None in H. apply Validate_None.
  destruct H as (H0 & H1 & H2 & H3 & H4 & H5 & H6 & H7).
  assert (Ef : config.OutputFormat (config.SetDefaults c) = config.OutputFormat c).
  { unfold config.SetDefaults. destruct (_ && _).
    all: cbn [config.OutputFormat];
      destruct (String.eqb_spec (config.OutputFormat c) "") as [E|E];
      [rewrite E in H4; discriminate|reflexivity]. }
  assert (Et : config.OutputType (config.SetDefaults c) = config.OutputType c).
  { unfold config.SetDefaults. destruct (_ && _).
    all: cbn [config.OutputType];
      destruct (String.eqb_spec (config.OutputType c) "") as [E|E];
      [rewrite E in H5; discriminate|reflexivity]. }
  rewrite Ef, Et.
  unfold config.SetDefaults, config.GetConcurrentRequests in *.
  destruct (Z.eqb_spec (config.MinDelay c) 0), (Z.eqb_spec (config.MaxDelay c) 0),
    (Z.eqb_spec (config.MaxDepth c) 0);
    cbn [andb config.RootURL config.MinDelay config.MaxDelay config.MaxDepth config.Proxies
         config.ConcurrentRequests];
    repeat split; try assumption; lia.
Qed.

Lemma Validate_kept_by_SetDefaults_witness :
  config.Validate
    (config.SetDefaults
       (config.mkConfig "https://example.com/docs/" "markdown" "per-page" "output" [] 0 0 0
          true "scraper.log" false [] None None None None None
          (config.mkDeduplicationConfig false false false false false)
          (config.mkQualityConfig 0 0 false false false [] "")
          (config.mkDevToolsConfig false false false false "" false)))
  = None.
Proof. apply Validate_kept_by_SetDefaults. reflexivity. Defined.

Section Robots.

Lemma rev_string_acc s : forall acc, rev_string acc s = rev_string "" s +:+ acc.
Proof.
  induction s as [|c s IH]; intros acc; [reflexivity|].
  cbn [rev_string]. rewrite (IH (String c acc)), (IH (String c "")), sapp_assoc. reflexivity.
Qed.

Lemma rev_string_app a b : rev_string "" (a +:+ b) = rev_string "" b +:+ rev_string "" a.
Proof.
  induction a as [|c a IH]; [rewrite sapp_nil_l, sapp_nil_r; reflexivity|].
  rewrite sapp_cons. cbn [rev_string].
  rewrite (rev_string_acc (a +:+ b)), (rev_string_acc a), IH, sapp_assoc. reflexivity.
Qed.

Lemma rev_string_involutive s : rev_string "" (rev_string "" s) = s.
Proof.
  induction s as [|c s IH]; [reflexivity|]. cbn [rev_string].
  rewrite (rev_string_acc s (String c "")), rev_string_app, IH. reflexivity.
Qed.

Lemma trim_left_split s : exists w, s = w +:+ trim_left s.
Proof.
  induction s as [|c s [w IH]]; [exists ""; reflexivity|]. cbn [trim_left].
  destruct (is_space c).
  - exists (String c w). rewrite sapp_cons, <- IH. reflexivity.
  - exists "". reflexivity.
Qed.

(** A text that starts with a byte other than white space starts with what
    [TrimSpace] keeps of it. *)
Lemma TrimSpace_prefix c s :
  is_space c = false -> exists w, String c s = TrimSpace (String c s) +:+ w.
Proof.
  intros Hc. unfold TrimSpace. cbn [trim_left]. rewrite Hc.
  destruct (trim_left_split (rev_string "" (String c s))) as [w Hw].
  exists (rev_string "" w).
  rewrite <- rev_string_app, <- Hw, rev_string_involutive. reflexivity.
Qed.

Lemma user_agent_line_not_star line :
  HasPrefix (ToLower line) "user-agent:" = true -> TrimSpace line <> "*".
Proof.
  intros H E. destruct line as [|c s]; [discriminate|].
  assert (Hc : lower_byte c = "u"%char).
  { cbn [ToLower HasPrefix] in H. destruct (Ascii.eqb_spec "u" (lower_byte c)); [auto|discriminate]. }
  assert (Hs : is_space c = false).
  { destruct c as [[] [] [] [] [] [] [] []]; try reflexivity; discriminate. }
  destruct (TrimSpace_prefix c s Hs) as [w Hw]. rewrite E in Hw.
  injection Hw as -> _. discriminate.
Qed.

Lemma scanRobots_unmatched lines :
  Forall (fun text => HasPrefix (TrimSpace text) "user-agent:" = false) lines ->
  scanRobots false lines = true.
Proof.
  induction 1 as [|text rest Ht _ IH]; [reflexivity|]. cbn [scanRobots andb].
  destruct (HasPrefix (ToLower (TrimSpace text)) "user-agent:") eqn:E; [|exact IH].
  unfold TrimPrefix. rewrite Ht.
  destruct (String.eqb_spec (TrimSpace (TrimSpace text)) "*") as [Es|_]; [|exact IH].
  exfalso. exact (user_agent_line_not_star _ E Es).
Qed.

Lemma scanRobots_disallow_all l1 l2 :
  scanRobots true (l1 ++ "disallow: /" :: l2) = false.
Proof.
  induction l1 as [|text l1 IH]; [reflexivity|].
  cbn [app scanRobots andb].
  destruct (HasPrefix (ToLower (TrimSpace text)) "user-agent:").
  - destruct (String.eqb _ "*"); exact IH.
  - destruct (HasPrefix (ToLower (TrimSpace text)) "disallow:"); [|exact IH].
    destruct (String.eqb _ "/"); [reflexivity|exact IH].
Qed.

Lemma scanRobots_star_disallow l0 l1 l2 : forall userAgentMatch,
  scanRobots userAgentMatch (l0 ++ "user-agent: *" :: l1 ++ "disallow: /" :: l2) = false.
Proof.
  induction l0 as [|text l0 IH]; intros b.
  - cbn [app scanRobots].
    replace (HasPrefix (ToLower (TrimSpace "user-agent: *")) "user-agent:")
      with true by reflexivity.
    replace (String.eqb (TrimSpace (TrimPrefix (TrimSpace "user-agent: *") "user-agent:")) "*")
      with true by reflexivity.
    apply scanRobots_disallow_all.
  - cbn [app scanRobots].
    destruct (HasPrefix (ToLower (TrimSpace text)) "user-agent:"); [apply IH|].
    destruct (b && _); [|apply IH].
    destruct (String.eqb _ "/"); [reflexivity|apply IH].
Qed.

End Robots.

(** X21.  [checkRobotsTxt], for a root URL with a scheme and a host and a
    response other than 404: when no line of the file starts, after
    trimming, with [user-agent:] in these very letters, the answer is
    "allowed", whatever the file disallows; the prefix is looked for in
    the lower-case line but cut off the line as it is, so a group headed
    [User-agent: *] is never read.  And once a line [user-agent: *] has
    been read, a later line [disallow: /] makes the answer "not allowed",
    also when it belongs to the group of another agent. *)
Theorem checkRobotsTxt_reads_lower_case_only :
  forall (get : string -> option (Z * list string)) (rootURL : string) (parsedURL : URL)
         (statusCode : Z) (lines : list string),
    Parse rootURL = Some parsedURL -> Scheme parsedURL <> "" -> Host parsedURL <> "" ->
    get (robotsURL parsedURL) = Some (statusCode, lines) -> statusCode <> 404 ->
    (Forall (fun text => HasPrefix (TrimSpace text) "user-agent:" = false) lines ->
     checkRobotsTxt get rootURL = Some true)
    /\ (forall l0 l1 l2 : list string,
          lines = l0 ++ "user-agent: *" :: l1 ++ "disallow: /" :: l2 ->
          checkRobotsTxt get rootURL = Some false).
Proof.
  intros get rootURL parsedURL statusCode lines Hp Hs Hh Hg Hc.
  assert (E : checkRobotsTxt get rootURL = Some (scanRobots false lines)).
  { unfold checkRobotsTxt. rewrite Hp.
    destruct (String.eqb_spec (Scheme parsedURL) ""); [contradiction|].
    destruct (String.eqb_spec (Host parsedURL) ""); [contradiction|]. cbn [orb].
    rewrite Hg. destruct (Z.eqb_spec statusCode 404); [contradiction|reflexivity]. }
  rewrite E. split.
  - intros H. rewrite (scanRobots_unmatched lines H). reflexivity.
  - intros l0 l1 l2 ->. rewrite scanRobots_star_disallow. reflexivity.
Qed.

Lemma checkRobotsTxt_reads_lower_case_only_witness :
  checkRobotsTxt (fun _ => Some (200, ["User-agent: *"; "Disallow: /"]))
    "https://example.com/docs/" = Some true
  /\ checkRobotsTxt
       (fun _ => Some (200, ["user-agent: *"; "allow: /"; "user-agent: badbot"; "disallow: /"]))
       "https://example.com/docs/" = Some false.
Proof.
  split.
  - apply (checkRobotsTxt_reads_lower_case_only
             (fun _ => Some (200, ["User-agent: *"; "Disallow: /"]))
             "https://example.com/docs/"
             (mkURL "https" "" "example.com" "/docs/" "" "" false false)
             200 ["User-agent: *"; "Disallow: /"]);
      try reflexivity; try discriminate.
    repeat constructor.
  - apply (proj2 (checkRobotsTxt_reads_lower_case_only
             (fun _ => Some (200, ["user-agent: *"; "allow: /"; "user-agent: badbot";
                                   "disallow: /"]))
             "https://example.com/docs/"
             (mkURL "https" "" "example.com" "/docs/" "" "" false false)
             200 ["user-agent: *"; "allow: /"; "user-agent: badbot"; "disallow: /"]
             eq_refl ltac:(discriminate) ltac:(discriminate) eq_refl ltac:(discriminate))
           [] ["allow: /"; "user-agent: badbot"] []).
    reflexivity.
Defined.

(** ** Link admission: relative links *)

Section RelativeLinks.



End RelativeLinks.





(** ** The tree builder: the links of the store *)

Section Forest.

Local Open Scope nat_scope.

Lemma children_of_snoc nodes n (q : nat) :
  children_of (nodes ++ [n]) q
  = if decide (q = length nodes) then n_Children n else children_of nodes q.
Proof.
  unfold children_of, ptr. destruct (decide (q = length nodes)) as [->|Hq].
  - rewrite list_lookup_middle by reflexivity. reflexivity.
  - destruct (Nat.lt_ge_cases q (length nodes)).
    + rewrite lookup_app_l by assumption. reflexivity.
    + rewrite !lookup_ge_None_2; [reflexivity|lia|rewrite length_app; cbn; lia].
Qed.

Lemma parent_at_snoc nodes n (q : nat) :
  parent_at (nodes ++ [n]) q
  = if decide (q = length nodes) then n_Parent n else parent_at nodes q.
Proof.
  unfold parent_at, ptr. destruct (decide (q = length nodes)) as [->|Hq].
  - rewrite list_lookup_middle by reflexivity. reflexivity.
  - destruct (Nat.lt_ge_cases q (length nodes)).
    + rewrite lookup_app_l by assumption. reflexivity.
    + rewrite !lookup_ge_None_2; [reflexivity|lia|rewrite length_app; cbn; lia].
Qed.

Lemma children_of_outside nodes (q : nat) : length nodes <= q -> children_of nodes q = [].
Proof. intros H. unfold children_of, ptr. rewrite lookup_ge_None_2 by exact H. reflexivity. Qed.

Lemma append_child_length nodes (p c : nat) : length (append_child nodes p c) = length nodes.
Proof.
  unfold append_child, set_node, ptr. destruct (nodes !! p); [apply length_insert|reflexivity].
Qed.

Lemma children_of_append_child nodes (p c q : nat) :
  p < length nodes ->
  children_of (append_child nodes p c) q
  = if decide (q = p) then children_of nodes p ++ [c] else children_of nodes q.
Proof.
  intros Hp. unfold append_child, set_node, children_of, ptr in *.
  destruct (nodes !! p) as [n|] eqn:E; [|apply lookup_ge_None_1 in E; lia].
  destruct (decide (q = p)) as [->|Hq].
  - rewrite list_lookup_insert_eq by exact Hp. reflexivity.
  - rewrite list_lookup_insert_ne by congruence. reflexivity.
Qed.

Lemma parent_at_append_child nodes (p c q : nat) :
  parent_at (append_child nodes p c) q = parent_at nodes q.
Proof.
  unfold append_child, set_node, parent_at, ptr in *.
  destruct (nodes !! p) as [n|] eqn:E; [|reflexivity].
  destruct (decide (p = q)) as [->|Hq].
  - rewrite list_lookup_insert_eq by (apply lookup_lt_Some in E; exact E). rewrite E. reflexivity.
  - rewrite list_lookup_insert_ne by exact Hq. reflexivity.
Qed.

(** A node without children and without a parent is added at the end. *)
Lemma wf_store_snoc nodes n :
  wf_store nodes -> n_Children n = [] -> n_Parent n = None -> wf_store (nodes ++ [n]).
Proof.
  intros [F CP PC ND] Hc Hp. unfold ptr in *. split.
  - intros p c. unfold ptr in *. rewrite children_of_snoc, length_app. cbn [length].
    destruct (decide (p = length nodes)) as [?D|?D]; [rewrite Hc; intros X; inversion X|].
    intros H. apply F in H. lia.
  - intros p c. unfold ptr in *. rewrite children_of_snoc, parent_at_snoc.
    destruct (decide (p = length nodes)) as [?D|?D]; [rewrite Hc; intros X; inversion X|]. intros H.
    destruct (decide (c = length nodes)) as [->|]; [apply F in H; lia|]. apply CP, H.
  - intros p c. unfold ptr in *. rewrite children_of_snoc, parent_at_snoc.
    destruct (decide (c = length nodes)) as [?D|?D]; [rewrite Hp; discriminate|]. intros H.
    destruct (decide (p = length nodes)) as [->|]; [|apply PC, H].
    apply PC in H. rewrite children_of_outside in H by lia. inversion H.
  - intros p. unfold ptr in *. rewrite children_of_snoc.
    destruct (decide (p = length nodes)) as [?D|?D]; [rewrite Hc; constructor|apply ND].
Qed.

(** A node without children is added at the end and attached to [p]. *)
Lemma wf_store_attach nodes n (p : nat) :
  wf_store nodes -> p < length nodes -> n_Children n = [] -> n_Parent n = Some p ->
  wf_store (append_child (nodes ++ [n]) p (length nodes)).
Proof.
  intros [F CP PC ND] Hp Hc Hn. unfold ptr in *.
  assert (Hp' : p < length (nodes ++ [n])) by (rewrite length_app; cbn; lia).
  assert (Hpn : p <> length nodes) by lia.
  split.
  - intros q c. unfold ptr in *. rewrite (children_of_append_child _ _ _ _ Hp'), append_child_length, length_app.
    cbn [length]. rewrite !children_of_snoc.
    destruct (decide (p = length nodes)) as [?D|?D]; [lia|].
    destruct (decide (q = p)) as [->|Hq].
    + rewrite elem_of_app, list_elem_of_singleton.
      intros [H| ->]; [apply F in H|]; lia.
    + destruct (decide (q = length nodes)) as [?D|?D]; [rewrite Hc; intros X; inversion X|].
      intros H. apply F in H. lia.
  - intros q c. unfold ptr in *. rewrite (children_of_append_child _ _ _ _ Hp'), parent_at_append_child.
    rewrite !children_of_snoc, parent_at_snoc.
    destruct (decide (p = length nodes)) as [?D|?D]; [lia|].
    destruct (decide (q = p)) as [->|Hq].
    + rewrite elem_of_app, list_elem_of_singleton.
      intros [H| ->].
      * destruct (decide (c = length nodes)) as [->|]; [apply F in H; lia|]. apply CP, H.
      * destruct (decide (length nodes = length nodes)) as [?D|?D]; [exact Hn|congruence].
    + destruct (decide (q = length nodes)) as [?D|?D]; [rewrite Hc; intros X; inversion X|]. intros H.
      destruct (decide (c = length nodes)) as [->|]; [apply F in H; lia|]. apply CP, H.
  - intros q c. unfold ptr in *. rewrite (children_of_append_child _ _ _ _ Hp'), parent_at_append_child.
    rewrite !children_of_snoc, parent_at_snoc.
    destruct (decide (p = length nodes)) as [?D|?D]; [lia|].
    destruct (decide (c = length nodes)) as [->|Hc'].
    + rewrite Hn. intros [= <-]. destruct (decide (p = p)) as [?D|?D]; [|congruence].
      apply elem_of_app. right. constructor.
    + intros H. apply PC in H as H'.
      destruct (decide (q = p)) as [->|Hq].
      * apply elem_of_app. left. exact H'.
      * destruct (decide (q = length nodes)) as [->|]; [|exact H'].
        rewrite children_of_outside in H' by lia. inversion H'.
  - intros q. unfold ptr in *. rewrite (children_of_append_child _ _ _ _ Hp'). rewrite !children_of_snoc.
    destruct (decide (p = length nodes)) as [?D|?D]; [lia|].
    destruct (decide (q = p)) as [->|Hq].
    + apply NoDup_app. split; [apply ND|].
      split; [|apply NoDup_singleton].
      intros x Hx Hx'. apply list_elem_of_singleton in Hx'. subst x. apply F in Hx. lia.
    + destruct (decide (q = length nodes)) as [?D|?D]; [rewrite Hc; constructor|apply ND].
Qed.

Lemma lookup_append_child {A} (f : DocumentNode -> A) nodes (p c q : nat) :
  (forall n ch, f (with_children n ch) = f n) ->
  f <$> append_child nodes p c !! q = f <$> nodes !! q.
Proof.
  intros Hf. unfold append_child, set_node, ptr in *.
  destruct (nodes !! p) as [n|] eqn:E; [|reflexivity].
  destruct (decide (p = q)) as [->|Hq].
  - rewrite list_lookup_insert_eq by (apply lookup_lt_Some in E; exact E).
    rewrite E. cbn. rewrite Hf. reflexivity.
  - rewrite list_lookup_insert_ne by exact Hq. reflexivity.
Qed.

Lemma first_entry_elem test entries (p : nat) :
  first_entry test entries = Some p -> exists url, (url, p) ∈ entries.
Proof.
  intros H. apply first_entry_Some in H. destruct H as ([url q] & Hin & _ & Hq).
  cbn in Hq. subst q. eauto.
Qed.

Section Building.

Variable range : MapOrder.
Hypothesis range_Permutation : forall m, range m ≡ₚ map_to_list m.

Lemma DetermineParent_valid tb node tree (p : nat) :
  wf_tree tree -> DetermineParent range tb node tree = Some p -> p < length (t_nodes tree).
Proof.
  intros [_ Hm Hr]. unfold DetermineParent, findParentByURLHierarchy.
  destruct (UseURLHierarchy (tb_config tb)); [|discriminate].
  destruct (Parse (n_URL node)) as [u|]; [|discriminate].
  destruct (_ || _).
  - intros H. apply Hr in H. destruct H as (-> & _ & H). exact H.
  - intros H. apply first_entry_elem in H. destruct H as [url H].
    rewrite range_Permutation in H. apply elem_of_map_to_list in H.
    apply Hm in H. destruct H as (n & H & _). apply lookup_lt_Some in H. exact H.
Qed.

Lemma AddNode_wf tb tree url content :
  wf_tree tree -> wf_tree (snd (AddNode range tb tree url content)).
Proof.
  intros Hwf. unfold AddNode. destruct (NodeMap tree !! url) as [p0|] eqn:Eu; [exact Hwf|].
  cbv zeta. cbn [snd].
  set (node := mkDocumentNode url (extractPath tb url) (sc_Title content) (sc_Content content)
                 0 0 None [] (sc_Metadata content) 0).
  set (attach := match DetermineParent range tb node tree with
                 | Some p => Some p
                 | None => if FallbackToRoot (tb_config tb) then Root tree else None
                 end).
  assert (Ha : forall p : nat, attach = Some p -> p < length (t_nodes tree)).
  { intros p. unfold attach.
    destruct (DetermineParent range tb node tree) as [p'|] eqn:E.
    - intros [= <-]. exact (DetermineParent_valid tb node tree p' Hwf E).
    - destruct (FallbackToRoot (tb_config tb)); [|discriminate].
      intros H. apply Hwf in H. destruct H as (-> & _ & H). exact H. }
  destruct Hwf as [Hs Hm Hr].
  set (self := length (t_nodes tree)).
  set (nodes' := match attach with
                 | Some p => append_child (t_nodes tree ++ [with_parent node (Some p)]) p self
                 | None => t_nodes tree ++ [node]
                 end).
  assert (Hlen : length nodes' = S self).
  { unfold nodes'. destruct attach; rewrite ?append_child_length, length_app; cbn; lia. }
  assert (Hurl : forall q : nat,
            n_URL <$> nodes' !! q
            = if decide (q = self) then Some url else n_URL <$> t_nodes tree !! q).
  { intros q. unfold nodes'.
    assert (Hsn : forall n : DocumentNode, n_URL n = url ->
              n_URL <$> (t_nodes tree ++ [n]) !! q
              = if decide (q = self) then Some url else n_URL <$> t_nodes tree !! q).
    { intros n Hn. destruct (decide (q = self)) as [->|Hq].
      - unfold self, ptr. rewrite list_lookup_middle by reflexivity. cbn. rewrite Hn. reflexivity.
      - destruct (Nat.lt_ge_cases q self).
        + unfold ptr. rewrite lookup_app_l by assumption. reflexivity.
        + unfold ptr. rewrite !lookup_ge_None_2; [reflexivity|assumption|].
          rewrite length_app. cbn. fold self. lia. }
    destruct attach as [p|].
    - rewrite (lookup_append_child n_URL) by reflexivity. apply Hsn. reflexivity.
    - apply Hsn. reflexivity. }
  split; cbn [t_nodes NodeMap Root]; fold node attach self nodes'.
  - unfold nodes'. destruct attach as [p|] eqn:E.
    + apply wf_store_attach; [exact Hs|apply Ha; reflexivity|reflexivity|reflexivity].
    + apply wf_store_snoc; [exact Hs|reflexivity|reflexivity].
  - intros url' q. specialize (Hurl q). unfold ptr in *. split.
    + destruct (decide (url = url')) as [<-|Hne].
      * rewrite lookup_insert_eq. intros [= <-].
        destruct (decide (self = self)); [|congruence].
        destruct (nodes' !! self) as [n|]; [|discriminate]. injection Hurl as Hurl. eauto.
      * rewrite lookup_insert_ne by exact Hne. intros H. apply Hm in H.
        destruct H as (n & Hn & Hu). apply lookup_lt_Some in Hn as Hlt.
        destruct (decide (q = self)); [unfold self in *; lia|].
        unfold ptr in *. rewrite Hn in Hurl. cbn in Hurl.
        destruct (nodes' !! q) as [n'|]; [|discriminate]. injection Hurl as Hurl.
        exists n'. split; [reflexivity|congruence].
    + intros (n' & Hn' & Hu). unfold ptr in *. rewrite Hn' in Hurl. cbn in Hurl.
      destruct (decide (q = self)) as [->|Hq].
      * injection Hurl as Hurl. rewrite Hu in Hurl. subst url'. apply lookup_insert_eq.
      * destruct (t_nodes tree !! q) as [n|] eqn:En; [|discriminate]. injection Hurl as Hurl.
        assert (Hq' : NodeMap tree !! url' = Some q).
        { apply Hm. exists n. split; [exact En|congruence]. }
        rewrite lookup_insert_ne; [exact Hq'|]. intros E0. rewrite E0 in Eu.
        unfold ptr in *. rewrite Eu in Hq'. discriminate.
  - intros r Hroot. destruct (Hr r Hroot) as (-> & Hp & Hl). split; [reflexivity|].
    split; [|lia]. unfold nodes'. destruct attach as [p|].
    + rewrite parent_at_append_child, parent_at_snoc.
      destruct (decide (0 = length (t_nodes tree)))%nat; [lia|exact Hp].
    + rewrite parent_at_snoc.
      destruct (decide (0 = length (t_nodes tree)))%nat; [lia|exact Hp].
Qed.

End Building.

Lemma agree_refl {A} (f : DocumentNode -> A) nodes : agree f nodes nodes.
Proof. intros q. reflexivity. Qed.

Lemma agree_trans {A} (f : DocumentNode -> A) n1 n2 n3 :
  agree f n1 n2 -> agree f n2 n3 -> agree f n1 n3.
Proof. intros H1 H2 q. rewrite H2, H1. reflexivity. Qed.

Lemma agree_set_node {A} (f : DocumentNode -> A) nodes (p : nat) n n' :
  nodes !! p = Some n -> f n' = f n -> agree f nodes (set_node nodes p n').
Proof.
  intros Hn Hf q. unfold set_node, ptr in *. destruct (decide (p = q)) as [->|Hq].
  - rewrite list_lookup_insert_eq by (apply lookup_lt_Some in Hn; exact Hn).
    rewrite Hn. cbn. rewrite Hf. reflexivity.
  - rewrite list_lookup_insert_ne by exact Hq. reflexivity.
Qed.

Lemma agree_length {A} (f : DocumentNode -> A) nodes nodes' :
  agree f nodes nodes' -> length nodes' = length nodes.
Proof.
  intros H. destruct (Nat.lt_trichotomy (length nodes') (length nodes)) as [Hl|[Hl|Hl]];
    [|exact Hl|].
  - specialize (H (length nodes')). rewrite lookup_ge_None_2 in H by lia.
    destruct (lookup_lt_is_Some_2 nodes (length nodes') Hl) as [x Hx].
    unfold ptr in *. rewrite Hx in H. discriminate.
  - specialize (H (length nodes)). rewrite (lookup_ge_None_2 nodes) in H by lia.
    destruct (lookup_lt_is_Some_2 nodes' (length nodes) Hl) as [x Hx].
    unfold ptr in *. rewrite Hx in H. discriminate.
Qed.

Lemma agree_children nodes nodes' (q : nat) :
  agree n_Children nodes nodes' -> children_of nodes' q = children_of nodes q.
Proof.
  intros H. specialize (H q). unfold children_of, ptr in *.
  destruct (nodes' !! q), (nodes !! q); cbn in H; congruence.
Qed.

Lemma agree_parent nodes nodes' (q : nat) :
  agree n_Parent nodes nodes' -> parent_at nodes' q = parent_at nodes q.
Proof.
  intros H. specialize (H q). unfold parent_at, ptr in *.
  destruct (nodes' !! q), (nodes !! q); cbn in H; congruence.
Qed.

Lemma same_links_refl nodes : same_links nodes nodes.
Proof. repeat split; intros; reflexivity. Qed.

Lemma same_links_trans n1 n2 n3 : same_links n1 n2 -> same_links n2 n3 -> same_links n1 n3.
Proof.
  intros (L1 & P1 & C1) (L2 & P2 & C2). repeat split.
  - congruence.
  - intros q. rewrite P2, P1. reflexivity.
  - intros q. rewrite C2, C1. reflexivity.
Qed.

Lemma same_links_agree nodes nodes' :
  agree n_Parent nodes nodes' -> agree n_Children nodes nodes' -> same_links nodes nodes'.
Proof.
  intros Hp Hc. repeat split.
  - exact (agree_length _ _ _ Hp).
  - intros q. apply agree_parent, Hp.
  - intros q. rewrite (agree_children _ _ q Hc). reflexivity.
Qed.

Lemma wf_store_same_links nodes nodes' : same_links nodes nodes' -> wf_store nodes -> wf_store nodes'.
Proof.
  intros (L & P & C) [F CP PC ND]. split.
  - intros p c. rewrite C, L. apply F.
  - intros p c. rewrite C, P. apply CP.
  - intros p c. rewrite C, P. apply PC.
  - intros p. rewrite C. apply ND.
Qed.

(** A loop over the children that threads a state through calls that can
    fail: when every call returns and keeps the invariant, so does the loop. *)
Lemma fold_children_inv {St : Type} (G : St -> ptr -> outcome St)
    (Inv : list ptr -> St -> Prop) (children : list ptr) (st0 : St) :
  Inv [] st0 ->
  (forall done c rest st, children = done ++ c :: rest -> Inv done st ->
     exists st', G st c = Done st' /\ Inv (done ++ [c]) st') ->
  exists st', fold_left (fun acc child => bind acc (fun st => G st child)) children (Done st0)
              = Done st' /\ Inv children st'.
Proof.
  intros H0 Hstep.
  assert (H : forall rest done st, children = done ++ rest -> Inv done st ->
            exists st', fold_left (fun acc child => bind acc (fun st => G st child)) rest (Done st)
                        = Done st' /\ Inv children st').
  { induction rest as [|c rest IH]; intros done st E Hi.
    - rewrite app_nil_r in E. subst done. exists st. split; [reflexivity|exact Hi].
    - destruct (Hstep done c rest st E Hi) as (st' & Hg & Hi').
      cbn [fold_left bind]. rewrite Hg.
      apply (IH (done ++ [c]) st'); [|exact Hi']. rewrite <- app_assoc. exact E. }
  exact (H children [] st0 eq_refl H0).
Qed.

Lemma desc_at_ge nodes (p q : nat) k :
  wf_store nodes -> desc_at nodes p q k -> (k = 0%Z /\ q = p) \/ ((0 < k)%Z /\ p < q).
Proof.
  intros Hwf H. induction H as [|q c k H IH Hc]; [left; auto|right].
  apply (wf_forward _ Hwf) in Hc. destruct IH as [[-> ->]|[Hk Hq]]; split; lia.
Qed.

Lemma desc_at_prepend nodes (p c q : nat) k :
  c ∈ children_of nodes p -> desc_at nodes c q k -> desc_at nodes p q (k + 1).
Proof.
  intros Hc H. induction H as [|q c' k H IH Hc'].
  - apply (desc_child nodes p p c 0); [constructor|exact Hc].
  - apply (desc_child nodes p q c' (k + 1)); [exact IH|exact Hc'].
Qed.

Lemma desc_at_first nodes (p q : nat) k :
  desc_at nodes p q k ->
  (q = p /\ k = 0%Z) \/ exists c, c ∈ children_of nodes p /\ desc_at nodes c q (k - 1).
Proof.
  intros H. induction H as [|q c k H IH Hc]; [left; auto|right].
  destruct IH as [[-> ->]|(c0 & Hc0 & Hd)].
  - exists c. split; [exact Hc|]. replace (0 + 1 - 1)%Z with 0%Z by lia. constructor.
  - exists c0. split; [exact Hc0|]. replace (k + 1 - 1)%Z with (k - 1 + 1)%Z by lia.
    apply (desc_child nodes c0 q c); assumption.
Qed.

Lemma desc_at_last nodes (p q : nat) k :
  desc_at nodes p q k ->
  (q = p /\ k = 0%Z) \/ exists r, q ∈ children_of nodes r /\ desc_at nodes p r (k - 1).
Proof.
  intros H. destruct H as [|r c k H Hc]; [left; auto|right].
  exists r. split; [exact Hc|]. replace (k + 1 - 1)%Z with k by lia. exact H.
Qed.

(** The subtrees below two children of a node share no node. *)
Lemma desc_at_disjoint nodes (p c1 c2 q : nat) k1 k2 :
  wf_store nodes ->
  c1 ∈ children_of nodes p -> c2 ∈ children_of nodes p -> c1 <> c2 ->
  desc_at nodes c1 q k1 -> desc_at nodes c2 q k2 -> False.
Proof.
  intros Hwf H1 H2 Hne Hd1. revert k2.
  induction Hd1 as [|q c k Hd1 IH Hc]; intros k2 Hd2.
  - destruct (desc_at_last _ _ _ _ Hd2) as [[E _]|(r & Hr & Hd)]; [congruence|].
    apply (wf_child_parent _ Hwf) in Hr. apply (wf_child_parent _ Hwf) in H1.
    assert (r = p) by congruence. subst r.
    destruct (desc_at_ge _ _ _ _ Hwf Hd) as [[_ E]|[_ Hlt]];
      apply (wf_forward _ Hwf) in H2; lia.
  - destruct (desc_at_last _ _ _ _ Hd2) as [[E _]|(r & Hr & Hd)].
    + subst c. apply (wf_child_parent _ Hwf) in Hc. apply (wf_child_parent _ Hwf) in H2.
      assert (q = p) by congruence. subst q.
      destruct (desc_at_ge _ _ _ _ Hwf Hd1) as [[_ E]|[_ Hlt]];
        apply (wf_forward _ Hwf) in H1; lia.
    + apply (wf_child_parent _ Hwf) in Hr. apply (wf_child_parent _ Hwf) in Hc.
      assert (r = q) by congruence. subst r. exact (IH _ Hd).
Qed.

Lemma desc_at_same_links nodes nodes' (p q : nat) k :
  same_links nodes nodes' -> desc_at nodes p q k -> desc_at nodes' p q k.
Proof.
  intros (_ & _ & C) H. induction H as [|q c k H IH Hc]; [constructor|].
  apply (desc_child nodes' p q c k IH). rewrite C. exact Hc.
Qed.

Lemma same_links_sym nodes nodes' : same_links nodes nodes' -> same_links nodes' nodes.
Proof.
  intros (L & P & C). repeat split; [congruence|intros q; rewrite P; reflexivity|].
  intros q. rewrite C. reflexivity.
Qed.

Lemma agree_without_levels_links nodes nodes' :
  agree without_levels nodes nodes' -> same_links nodes nodes'.
Proof.
  intros H. apply same_links_agree; intros q; specialize (H q); unfold ptr in *;
    destruct (nodes' !! q) as [n1|], (nodes !! q) as [n2|]; cbn in *;
    try discriminate; try reflexivity; injection H; intros; congruence.
Qed.

Lemma calculateNodeDepthAndLevel_spec fuel : forall nodes (p : nat) d l,
  wf_store nodes -> p < length nodes -> length nodes - p <= fuel ->
  exists nodes', calculateNodeDepthAndLevel fuel nodes p d l = Done nodes'
                 /\ levels_set nodes nodes' p d l.
Proof.
  induction fuel as [|fuel IH]; intros nodes p d l Hwf Hp Hfuel; [lia|].
  cbn [calculateNodeDepthAndLevel]. unfold ptr in *.
  destruct (nodes !! p) as [n|] eqn:En; [|apply lookup_ge_None_1 in En; lia].
  set (st0 := set_node nodes p (with_depth_level n d l)).
  assert (Hch : children_of nodes p = n_Children n) by (unfold children_of, ptr; rewrite En; reflexivity).
  set (Inv := fun (done : list ptr) (st : list DocumentNode) =>
    agree without_levels nodes st
    /\ (forall q : nat, q <> p -> (forall (c : nat) k, c ∈ done -> ~ desc_at nodes c q k) ->
          st !! q = nodes !! q)
    /\ (n_Depth <$> st !! p = Some d /\ n_Level <$> st !! p = Some l)
    /\ (forall (c q : nat) k, c ∈ done -> desc_at nodes c q k ->
          n_Depth <$> st !! q = Some (d + 1 + k)%Z /\ n_Level <$> st !! q = Some (l + 1 + k)%Z)).
  destruct (fold_children_inv
              (fun st child => calculateNodeDepthAndLevel fuel st child (d + 1) (l + 1))
              Inv (n_Children n) st0) as (nodes' & Hfold & Hinv).
  - (* the invariant holds before the loop *)
    unfold Inv, st0. split; [|split; [|split]].
    + apply (agree_set_node without_levels nodes p n); [exact En|reflexivity].
    + intros q Hq _. unfold set_node. apply list_lookup_insert_ne. congruence.
    + unfold set_node. rewrite list_lookup_insert_eq by exact Hp. split; reflexivity.
    + intros c q k Hc. inversion Hc.
  - (* one call keeps it *)
    intros done c rest st Hsplit (Ha & Hout & Hlp & Hin).
    assert (Hcin : c ∈ children_of nodes p).
    { rewrite Hch, Hsplit. apply elem_of_app. right. left. }
    assert (Hcn : c ∉ done).
    { pose proof (wf_NoDup _ Hwf p) as ND. rewrite Hch, Hsplit in ND.
      apply NoDup_app in ND. destruct ND as (_ & ND & _). intros Hd. apply (ND c Hd). left. }
    pose proof (agree_without_levels_links _ _ Ha) as Hl.
    pose proof (wf_store_same_links _ _ Hl Hwf) as Hwf'.
    pose proof (wf_forward _ Hwf _ _ Hcin) as Hc.
    destruct Hl as (Hlen & _) in Hc |- *.
    destruct (IH st c (d + 1)%Z (l + 1)%Z Hwf') as (st' & Hcall & Ha' & Hout' & Hin');
      [lia|lia|].
    exists st'. split; [exact Hcall|].
    assert (Hl' : same_links st nodes).
    { apply same_links_sym, agree_without_levels_links, Ha. }
    assert (Hkeep : forall q : nat, (forall k, ~ desc_at nodes c q k) -> st' !! q = st !! q).
    { intros q Hq. apply Hout'. intros k Hd. apply (Hq k).
      exact (desc_at_same_links _ _ _ _ _ Hl' Hd). }
    unfold Inv. split; [|split; [|split]].
    + exact (agree_trans _ _ _ _ Ha Ha').
    + intros q Hq Hnot. rewrite Hkeep.
      * apply Hout; [exact Hq|]. intros c' k Hc'. apply Hnot. apply elem_of_app. left. exact Hc'.
      * intros k. apply Hnot. apply elem_of_app. right. left.
    + rewrite Hkeep; [exact Hlp|]. intros k Hd.
      destruct (desc_at_ge _ _ _ _ Hwf Hd) as [[_ E]|[_ Hlt]]; lia.
    + intros c' q k Hc' Hd. apply elem_of_app in Hc'. destruct Hc' as [Hc'|Hc'].
      * rewrite Hkeep; [exact (Hin c' q k Hc' Hd)|]. intros k' Hd'.
        assert (Hne : c' <> c) by (intros ->; contradiction).
        assert (Hc'in : c' ∈ children_of nodes p).
        { rewrite Hch, Hsplit. apply elem_of_app. left. exact Hc'. }
        exact (desc_at_disjoint nodes p c' c q k k' Hwf Hc'in Hcin Hne Hd Hd').
      * apply list_elem_of_singleton in Hc'. subst c'.
        apply Hin'. apply (desc_at_same_links nodes st); [|exact Hd].
        apply agree_without_levels_links, Ha.
  - exists nodes'. split; [exact Hfold|].
    destruct Hinv as (Ha & Hout & Hlp & Hin). split; [exact Ha|split].
    + intros q Hq. apply Hout.
      * intros ->. apply (Hq 0%Z). constructor.
      * intros c k Hc Hd. apply (Hq (k + 1)%Z).
        apply (desc_at_prepend nodes p c q k); [rewrite Hch; exact Hc|exact Hd].
    + intros q k Hd. destruct (desc_at_first _ _ _ _ Hd) as [[-> ->]|(c & Hc & Hd')].
      * rewrite !Z.add_0_r. exact Hlp.
      * rewrite Hch in Hc. destruct (Hin c q (k - 1)%Z Hc Hd') as [H1 H2].
        replace (d + k)%Z with (d + 1 + (k - 1))%Z by lia.
        replace (l + k)%Z with (l + 1 + (k - 1))%Z by lia. auto.
Qed.

Lemma agree_compose {A B} (f : DocumentNode -> A) (g : DocumentNode -> B) (h : A -> B)
    nodes nodes' :
  (forall n, g n = h (f n)) -> agree f nodes nodes' -> agree g nodes nodes'.
Proof.
  intros Hg H q. specialize (H q). unfold ptr in *.
  destruct (nodes' !! q), (nodes !! q); cbn in *; try discriminate; try reflexivity.
  injection H as H. rewrite !Hg, H. reflexivity.
Qed.

Lemma insert_by_Permutation {A} (less : A -> A -> bool) x l : insert_by less x l ≡ₚ x :: l.
Proof.
  induction l as [|y l IH]; [reflexivity|]. cbn [insert_by].
  destruct (less x y); [reflexivity|]. rewrite IH. apply Permutation_swap.
Qed.

Lemma sort_by_Permutation {A} (less : A -> A -> bool) l : sort_by less l ≡ₚ l.
Proof.
  induction l as [|x l IH]; [reflexivity|]. unfold sort_by in *. cbn [fold_right].
  rewrite insert_by_Permutation, IH. reflexivity.
Qed.

Lemma children_sorted_links nodes nodes' p :
  children_sorted nodes nodes' p -> same_links nodes nodes'.
Proof.
  intros (Ha & Hc & _). repeat split.
  - exact (agree_length _ _ _ Ha).
  - intros q. apply agree_parent.
    apply (agree_compose without_children n_Parent n_Parent); [reflexivity|exact Ha].
  - exact Hc.
Qed.

Lemma children_of_set_node nodes (p q : nat) n' :
  p < length nodes ->
  children_of (set_node nodes p n') q
  = if decide (q = p) then n_Children n' else children_of nodes q.
Proof.
  intros Hp. unfold children_of, set_node, ptr. destruct (decide (q = p)) as [->|Hq].
  - rewrite list_lookup_insert_eq by exact Hp. reflexivity.
  - rewrite list_lookup_insert_ne by congruence. reflexivity.
Qed.

Lemma SortChildren_spec sortBy fuel : forall nodes (p : nat),
  wf_store nodes -> p < length nodes -> length nodes - p <= fuel ->
  exists nodes', SortChildren fuel nodes (Some p) sortBy = Done nodes'
                 /\ children_sorted nodes nodes' p
                 /\ children_of nodes' p
                    = (if (length (children_of nodes p) <=? 1)
                          || negb (is_sort_criterion sortBy)
                       then children_of nodes p
                       else sort_by (node_less nodes sortBy) (children_of nodes p)).
Proof.
  induction fuel as [|fuel IH]; intros nodes p Hwf Hp Hfuel; [lia|].
  cbn [SortChildren]. unfold ptr in *.
  destruct (nodes !! p) as [n|] eqn:En; [|apply lookup_ge_None_1 in En; lia].
  assert (Hch : children_of nodes p = n_Children n)
    by (unfold children_of, ptr; rewrite En; reflexivity).
  rewrite Hch.
  destruct (_ <=? 1) eqn:El.
  { exists nodes. split; [reflexivity|]. split; [|exact Hch].
    split; [apply agree_refl|]. split; intros; reflexivity. }
  cbn [orb].
  set (children := if is_sort_criterion sortBy
                   then sort_by (node_less nodes sortBy) (n_Children n)
                   else n_Children n).
  assert (Hperm : children ≡ₚ n_Children n).
  { unfold children. destruct (is_sort_criterion sortBy); [apply sort_by_Permutation|reflexivity]. }
  set (st0 := set_node nodes p (with_children n children)).
  set (Inv := fun (done : list ptr) (st : list DocumentNode) =>
    agree without_children nodes st
    /\ (forall q : nat, children_of st q ≡ₚ children_of nodes q)
    /\ (forall q : nat, q <= p -> st !! q = st0 !! q)).
  destruct (fold_children_inv (fun st child => SortChildren fuel st (Some child) sortBy)
              Inv children st0) as (nodes' & Hfold & Ha & Hc & Hk).
  - unfold Inv, st0. split; [|split].
    + apply (agree_set_node without_children nodes p n); [exact En|reflexivity].
    + intros q. rewrite children_of_set_node by exact Hp.
      destruct (decide (q = p)) as [->|]; [|reflexivity]. rewrite Hch. exact Hperm.
    + reflexivity.
  - intros done c rest st Hsplit (Ha & Hc & Hk).
    assert (Hl : same_links nodes st).
    { repeat split; [exact (agree_length _ _ _ Ha)| |exact Hc]. intros q. apply agree_parent.
      apply (agree_compose without_children n_Parent n_Parent); [reflexivity|exact Ha]. }
    pose proof (wf_store_same_links _ _ Hl Hwf) as Hwf'.
    assert (Hcin : c ∈ children_of nodes p).
    { rewrite Hch, <- Hperm, Hsplit. apply elem_of_app. right. left. }
    pose proof (wf_forward _ Hwf _ _ Hcin) as Hcl. destruct Hl as (Hlen & _).
    destruct (IH st c Hwf') as (st' & Hcall & (Ha' & Hc' & Hk') & _); [lia|lia|].
    exists st'. split; [exact Hcall|]. unfold Inv. split; [|split].
    + exact (agree_trans _ _ _ _ Ha Ha').
    + intros q. rewrite Hc', Hc. reflexivity.
    + intros q Hq. rewrite Hk' by lia. apply Hk, Hq.
  - exists nodes'. split; [exact Hfold|]. split.
    + split; [exact Ha|]. split; [exact Hc|]. intros q Hq. rewrite Hk by lia.
      unfold st0, set_node. apply list_lookup_insert_ne. lia.
    + unfold children_of at 1. unfold ptr. rewrite Hk by lia. unfold st0, set_node.
      rewrite list_lookup_insert_eq by exact Hp. cbn [with_children n_Children].
      unfold children. destruct (is_sort_criterion sortBy); reflexivity.
Qed.

Lemma autoIndexNodes_spec fuel : forall nodes (p : nat) startIndex,
  wf_store nodes -> p < length nodes -> length nodes - p <= fuel ->
  exists nodes' next, autoIndexNodes fuel nodes (Some p) startIndex = Done (nodes', next)
                      /\ agree without_index nodes nodes'.
Proof.
  induction fuel as [|fuel IH]; intros nodes p startIndex Hwf Hp Hfuel; [lia|].
  cbn [autoIndexNodes]. unfold ptr in *.
  destruct (nodes !! p) as [n|] eqn:En; [|apply lookup_ge_None_1 in En; lia].
  assert (Hch : children_of nodes p = n_Children n)
    by (unfold children_of, ptr; rewrite En; reflexivity).
  set (Inv := fun (done : list ptr) (st : list DocumentNode * Z) =>
    agree without_index nodes (fst st)).
  destruct (fold_children_inv
              (fun st child => autoIndexNodes fuel (fst st) (Some child) (snd st))
              Inv (n_Children n)
              (set_node nodes p (with_index n startIndex), (startIndex + 1)%Z))
    as ([nodes' next] & Hfold & Ha).
  - unfold Inv. cbn [fst].
    apply (agree_set_node without_index nodes p n); [exact En|reflexivity].
  - intros done c rest [st i] Hsplit Ha. unfold Inv in *. cbn [fst snd] in *.
    assert (Hl : same_links nodes st).
    { apply same_links_agree.
      - apply (agree_compose without_index n_Parent n_Parent); [reflexivity|exact Ha].
      - apply (agree_compose without_index n_Children n_Children); [reflexivity|exact Ha]. }
    pose proof (wf_store_same_links _ _ Hl Hwf) as Hwf'.
    assert (Hcin : c ∈ children_of nodes p).
    { rewrite Hch, Hsplit. apply elem_of_app. right. left. }
    pose proof (wf_forward _ Hwf _ _ Hcin) as Hcl. destruct Hl as (Hlen & _).
    destruct (IH st c i Hwf') as (st' & next & Hcall & Ha'); [lia|lia|].
    exists (st', next). split; [exact Hcall|]. exact (agree_trans _ _ _ _ Ha Ha').
  - exists nodes', next. split; [exact Hfold|exact Ha].
Qed.

Lemma calculateMaxDepth_spec fuel : forall nodes (p : nat) (a : Z),
  wf_store nodes -> p < length nodes -> length nodes - p <= fuel ->
  (forall (q : nat) k, desc_at nodes p q k -> n_Depth <$> nodes !! q = Some (a + k)%Z) ->
  (0 <= a)%Z ->
  exists v, calculateMaxDepth fuel nodes (Some p) = Done v
            /\ (forall (q : nat) k, desc_at nodes p q k -> (depth_sum2 a k <= 2 * v)%Z)
            /\ (exists (q : nat) k, desc_at nodes p q k /\ (2 * v = depth_sum2 a k)%Z).
Proof.
  induction fuel as [|fuel IH]; intros nodes p a Hwf Hp Hfuel Hdepth Ha; [lia|].
  cbn [calculateMaxDepth]. unfold ptr in *.
  destruct (nodes !! p) as [n|] eqn:En; [|apply lookup_ge_None_1 in En; lia].
  assert (Hch : children_of nodes p = n_Children n)
    by (unfold children_of, ptr; rewrite En; reflexivity).
  assert (Hdp : n_Depth n = a).
  { specialize (Hdepth p 0%Z (desc_here nodes p)). unfold ptr in *. rewrite En in Hdepth.
    cbn in Hdepth. injection Hdepth as Hdepth. lia. }
  set (G := fun (m : Z) (child : ptr) =>
              bind (calculateMaxDepth fuel nodes (Some child))
                   (fun childDepth => Done (if (m <? childDepth)%Z then childDepth else m))).
  set (Inv := fun (done : list ptr) (m : Z) =>
    (0 <= m)%Z
    /\ (forall (c q : nat) k, c ∈ done -> desc_at nodes c q k ->
          (depth_sum2 (a + 1) k <= 2 * m)%Z)
    /\ ((done = [] /\ m = 0%Z)
        \/ exists (c q : nat) k, c ∈ done /\ desc_at nodes c q k
                                 /\ (2 * m = depth_sum2 (a + 1) k)%Z)).
  destruct (fold_children_inv G Inv (n_Children n) 0%Z) as (m & Hfold & Hm0 & Hall & Hmax).
  - unfold Inv. split; [lia|]. split; [|left; auto]. intros c q k Hc. inversion Hc.
  - intros done c rest m Hsplit (Hm0 & Hall & Hmax).
    assert (Hcin : c ∈ children_of nodes p).
    { rewrite Hch, Hsplit. apply elem_of_app. right. left. }
    pose proof (wf_forward _ Hwf _ _ Hcin) as Hcl.
    destruct (IH nodes c (a + 1)%Z Hwf) as (v & Hcall & Hv1 & (q0 & k0 & Hd0 & Hv2));
      [lia|lia| |lia|].
    { intros q k Hd. rewrite (Hdepth q (k + 1)%Z); [f_equal; lia|].
      exact (desc_at_prepend nodes p c q k Hcin Hd). }
    assert (Hk0 : (0 <= k0)%Z).
    { destruct (desc_at_ge _ _ _ _ Hwf Hd0) as [[-> _]|[H _]]; lia. }
    assert (Hvpos : (0 < v)%Z) by (unfold depth_sum2 in Hv2; nia).
    exists (if (m <? v)%Z then v else m). unfold G. unfold ptr in *. rewrite Hcall. cbn [bind].
    split; [reflexivity|]. unfold Inv.
    destruct (Z.ltb_spec m v) as [Hlt|Hge].
    + split; [lia|]. split.
      * intros c' q k Hc' Hd. apply elem_of_app in Hc'. destruct Hc' as [Hc'|Hc'].
        -- specialize (Hall c' q k Hc' Hd). lia.
        -- apply list_elem_of_singleton in Hc'. subst c'. specialize (Hv1 q k Hd). lia.
      * right. exists c, q0, k0. split; [apply elem_of_app; right; left|]. auto.
    + split; [lia|]. split.
      * intros c' q k Hc' Hd. apply elem_of_app in Hc'. destruct Hc' as [Hc'|Hc'].
        -- exact (Hall c' q k Hc' Hd).
        -- apply list_elem_of_singleton in Hc'. subst c'. specialize (Hv1 q k Hd). lia.
      * right. destruct Hmax as [[_ ->]|(c' & q & k & Hc' & Hd & E)]; [lia|].
        exists c', q, k. split; [apply elem_of_app; left; exact Hc'|]. auto.
  - match goal with |- context [fold_left ?f ?l ?i] =>
      change (fold_left f l i)
        with (fold_left (fun acc child => bind acc (fun st => G st child)) l i) end.
    rewrite Hfold. cbn [bind]. rewrite Hdp.
    exists (a + m)%Z. split; [reflexivity|]. split.
    + intros q k Hd. destruct (desc_at_first _ _ _ _ Hd) as [[-> ->]|(c & Hc & Hd')].
      * unfold depth_sum2. nia.
      * rewrite Hch in Hc. specialize (Hall c q (k - 1)%Z Hc Hd'). unfold depth_sum2 in *. nia.
    + destruct Hmax as [[_ ->]|(c & q & k & Hc & Hd & E)].
      * exists p, 0%Z. split; [constructor|]. unfold depth_sum2. nia.
      * exists q, (k + 1)%Z. split.
        -- apply (desc_at_prepend nodes p c q k); [rewrite Hch; exact Hc|exact Hd].
        -- unfold depth_sum2 in *. nia.
Qed.

Section Building2.

Variable range : MapOrder.
Hypothesis range_Permutation : forall m, range m ≡ₚ map_to_list m.

(** The node [AddNode] appends for a URL that is not in [NodeMap], and what
    it leaves of the nodes before. *)
Lemma AddNode_fresh tb tree url content :
  wf_tree tree -> NodeMap tree !! url = None ->
  let tree' := snd (AddNode range tb tree url content) in
  let self := length (t_nodes tree) in
  fst (AddNode range tb tree url content) = false
  /\ length (t_nodes tree') = S self
  /\ Root tree' = Root tree
  /\ NodeMap tree' = <[url := self]> (NodeMap tree)
  /\ (forall q : nat, q <> self ->
        without_children <$> t_nodes tree' !! q = without_children <$> t_nodes tree !! q)
  /\ exists n, t_nodes tree' !! self = Some n
       /\ n = mkDocumentNode url (extractPath tb url) (sc_Title content) (sc_Content content)
               0 0 (n_Parent n) [] (sc_Metadata content) 0
       /\ n_Parent n =
            match DetermineParent range tb
                    (mkDocumentNode url (extractPath tb url) (sc_Title content)
                       (sc_Content content) 0 0 None [] (sc_Metadata content) 0) tree with
            | Some p => Some p
            | None => if FallbackToRoot (tb_config tb) then Root tree else None
            end.
Proof.
  intros Hwf Eu. cbv zeta. unfold AddNode. rewrite Eu. cbv zeta. cbn [fst snd t_nodes Root NodeMap].
  set (node := mkDocumentNode url (extractPath tb url) (sc_Title content) (sc_Content content)
                 0 0 None [] (sc_Metadata content) 0).
  set (attach := match DetermineParent range tb node tree with
                 | Some p => Some p
                 | None => if FallbackToRoot (tb_config tb) then Root tree else None
                 end).
  assert (Ha : forall p : nat, attach = Some p -> p < length (t_nodes tree)).
  { intros p. unfold attach.
    destruct (DetermineParent range tb node tree) as [p'|] eqn:E.
    - intros [= <-]. exact (DetermineParent_valid range range_Permutation tb node tree p' Hwf E).
    - destruct (FallbackToRoot (tb_config tb)); [|discriminate].
      intros H. apply Hwf in H. destruct H as (-> & _ & H). exact H. }
  split; [reflexivity|].
  split; [destruct attach; rewrite ?append_child_length, length_app; cbn; lia|].
  split; [reflexivity|]. split; [reflexivity|]. split.
  - intros q Hq.
    assert (Hsn : forall n : DocumentNode,
              without_children <$> (t_nodes tree ++ [n]) !! q
              = without_children <$> t_nodes tree !! q).
    { intros n. destruct (Nat.lt_ge_cases q (length (t_nodes tree))).
      - unfold ptr. rewrite lookup_app_l by assumption. reflexivity.
      - unfold ptr. rewrite !lookup_ge_None_2; [reflexivity|assumption|].
        rewrite length_app. cbn. lia. }
    destruct attach as [p|].
    + rewrite (lookup_append_child without_children) by reflexivity. apply Hsn.
    + apply Hsn.
  - destruct attach as [p|] eqn:Eat.
    + specialize (Ha p eq_refl). unfold append_child, set_node, ptr in *.
      rewrite lookup_app_l by exact Ha.
      destruct (t_nodes tree !! p) as [pn|] eqn:Ep; [|apply lookup_ge_None_1 in Ep; lia].
      rewrite list_lookup_insert_ne by lia. rewrite list_lookup_middle by reflexivity.
      eexists. split; [reflexivity|]. split; reflexivity.
    + unfold ptr. rewrite list_lookup_middle by reflexivity.
      eexists. split; [reflexivity|]. split; reflexivity.
Qed.

Lemma AddNode_known tb tree url content p :
  NodeMap tree !! url = Some p -> AddNode range tb tree url content = (true, tree).
Proof. intros E. unfold AddNode. rewrite E. reflexivity. Qed.

Lemma AddNode_built tb contents tree url content :
  contents !! url = Some content ->
  built tb contents tree -> built tb contents (snd (AddNode range tb tree url content)).
Proof.
  intros Hc Hb. destruct (NodeMap tree !! url) as [p0|] eqn:Eu.
  { rewrite (AddNode_known _ _ _ _ _ Eu). exact Hb. }
  pose proof (AddNode_wf range range_Permutation tb tree url content (b_wf _ _ _ Hb)) as Hwf'.
  destruct (AddNode_fresh tb tree url content (b_wf _ _ _ Hb) Eu)
    as (_ & Hlen & Hroot & Hmap & Hold & n & Hn & Hnew & Hpar).
  set (tree' := snd (AddNode range tb tree url content)) in *.
  assert (Holdn : forall (q : nat) m, q <> length (t_nodes tree) -> t_nodes tree' !! q = Some m ->
            exists m0, t_nodes tree !! q = Some m0 /\ without_children m = without_children m0).
  { intros q m Hq Hm. specialize (Hold q Hq). unfold ptr in *. rewrite Hm in Hold.
    destruct (t_nodes tree !! q) as [m0|]; [|discriminate].
    exists m0. split; [reflexivity|]. apply (inj Some). exact Hold. }
  split.
  - exact Hwf'.
  - intros q m Hm. destruct (decide (q = length (t_nodes tree))) as [->|Hq].
    + unfold ptr in *. rewrite Hn in Hm. injection Hm as <-. rewrite Hnew. cbn.
      exists content. auto.
    + destruct (Holdn q m Hq Hm) as (m0 & Hm0 & E).
      destruct (b_page _ _ _ Hb q m0 Hm0) as (c0 & H1 & H2 & H3 & H4 & H5).
      unfold without_children, with_children in E. injection E as E1 E2 E3 E4 E5 E6 E7 E8 E9.
      exists c0. rewrite E1, E2, E3, E4, E8. auto.
  - intros q m Hm. destruct (decide (q = length (t_nodes tree))) as [->|Hq].
    + unfold ptr in *. rewrite Hn in Hm. injection Hm as <-. rewrite Hnew. cbn. auto.
    + destruct (Holdn q m Hq Hm) as (m0 & Hm0 & E).
      destruct (b_zero _ _ _ Hb q m0 Hm0) as (H1 & H2 & H3).
      unfold without_children, with_children in E. injection E as E1 E2 E3 E4 E5 E6 E7 E8 E9.
      rewrite E5, E6, E9. auto.
  - rewrite Hlen, Hmap, map_size_insert_None by exact Eu. rewrite (b_size _ _ _ Hb). reflexivity.
  - intros Hf Hr q Hq. rewrite Hroot in Hr. rewrite Hlen in Hq.
    destruct (decide (q = length (t_nodes tree))) as [->|Hne].
    + unfold parent_at, ptr in *. rewrite Hn, Hpar.
      destruct (DetermineParent range tb _ tree); [eauto|]. rewrite Hf. exact Hr.
    + assert (Hlt : 0 < q < length (t_nodes tree)) by lia.
      destruct (b_attached _ _ _ Hb Hf Hr q Hlt) as [p Hp].
      specialize (Hold q Hne). unfold parent_at, ptr in *.
      destruct (t_nodes tree !! q) as [m0|]; [|discriminate].
      destruct (t_nodes tree' !! q) as [m|]; [|discriminate].
      cbn in Hold. injection Hold as E1 E2 E3 E4 E5 E6 E7 E8 E9. rewrite E7. eauto.
Qed.

Lemma AddNode_Root tb tree url content :
  Root (snd (AddNode range tb tree url content)) = Root tree.
Proof. unfold AddNode. destruct (NodeMap tree !! url); reflexivity. Qed.

Lemma AddNode_dom tb tree url content :
  dom (NodeMap (snd (AddNode range tb tree url content))) = {[url]} ∪ dom (NodeMap tree).
Proof.
  unfold AddNode. destruct (NodeMap tree !! url) as [p|] eqn:E; cbn [snd NodeMap].
  - apply (elem_of_dom_2 (NodeMap tree)) in E. set_solver.
  - apply dom_insert_L.
Qed.

(** The loop of [BuildTree] from the second URL on. *)
Lemma addAll_built tb contents urls : forall i tree,
  built tb contents tree -> built tb contents (addAll range tb contents (S i) urls tree).
Proof.
  induction urls as [|url rest IH]; intros i tree Hb; [exact Hb|].
  cbn [addAll Nat.eqb andb]. apply IH.
  destruct (contents !! url) as [content|] eqn:Ec; [|exact Hb].
  apply AddNode_built; assumption.
Qed.

Lemma addAll_Root tb contents urls : forall i tree,
  Root (addAll range tb contents (S i) urls tree) = Root tree.
Proof.
  induction urls as [|url rest IH]; intros i tree; [reflexivity|].
  cbn [addAll Nat.eqb andb]. rewrite IH.
  destruct (contents !! url); [apply AddNode_Root|reflexivity].
Qed.

Lemma addAll_dom tb contents urls : forall i tree url,
  url ∈ dom (NodeMap (addAll range tb contents (S i) urls tree))
  <-> url ∈ dom (NodeMap tree) \/ (url ∈ urls /\ is_Some (contents !! url)).
Proof.
  induction urls as [|u rest IH]; intros i tree url.
  - cbn [addAll]. split; [auto|]. intros [H|[H _]]; [exact H|inversion H].
  - cbn [addAll Nat.eqb andb]. rewrite IH, elem_of_cons.
    destruct (contents !! u) as [content|] eqn:Ec.
    + rewrite AddNode_dom, elem_of_union, elem_of_singleton. split.
      * intros [[->|H]|[H1 H2]]; [right; split; [left; reflexivity|rewrite Ec; eauto]|auto|].
        right. split; [right; exact H1|exact H2].
      * intros [H|[[->|H1] H2]]; auto.
    + split.
      * intros [H|[H1 H2]]; auto.
      * intros [H|[[->|H1] H2]]; auto. rewrite Ec in H2. destruct H2; discriminate.
Qed.

Lemma createRoot_built tb urls contents : built tb contents (createRoot tb urls contents).
Proof.
  assert (He : built tb contents (mkDocumentTree [] None ∅ 0 0)).
  { split; cbn [t_nodes NodeMap Root].
    - split; cbn [t_nodes NodeMap Root].
      + split; intros p; try intros c; unfold children_of, parent_at, ptr;
          rewrite ?lookup_nil; try discriminate; try (intros H; inversion H). constructor.
      + intros url p. rewrite lookup_empty, lookup_nil. split; [discriminate|].
        intros (n & H & _). discriminate.
      + discriminate.
    - intros q n. rewrite lookup_nil. discriminate.
    - intros q n. rewrite lookup_nil. discriminate.
    - reflexivity.
    - intros _ [r H]. discriminate. }
  unfold createRoot. destruct urls as [|rootURL rest]; [exact He|].
  destruct (contents !! rootURL) as [content|] eqn:Ec; [|exact He].
  cbn [NodeMap].
  set (root := mkDocumentNode rootURL (extractPath tb rootURL) (sc_Title content)
                 (sc_Content content) 0 0 None [] (sc_Metadata content) 0).
  assert (Hl : forall (q : nat) n, [root] !! q = Some n -> q = 0 /\ n = root).
  { intros [|q] n; cbn; [intros [= <-]; auto|discriminate]. }
  split; cbn [t_nodes NodeMap Root].
  - split; cbn [t_nodes NodeMap Root].
    + split.
      * intros [|p] c; cbn; intros H; inversion H.
      * intros [|p] c; cbn; intros H; inversion H.
      * intros p [|c]; cbn; discriminate.
      * intros [|p]; cbn; constructor.
    + intros url p. split.
      * intros H. apply lookup_insert_Some in H. destruct H as [[<- <-]|[_ H]].
        -- exists root. split; reflexivity.
        -- rewrite lookup_empty in H. discriminate.
      * intros (n & H & Hu). apply Hl in H as [-> ->]. cbn in Hu. subst url.
        apply lookup_insert_eq.
    + intros r [= <-]. split; [reflexivity|]. split; [reflexivity|cbn; lia].
  - intros q n H. apply Hl in H as [-> ->]. exists content. cbn. auto.
  - intros q n H. apply Hl in H as [-> ->]. cbn. auto.
  - rewrite map_size_insert_None by apply lookup_empty. rewrite map_size_empty. reflexivity.
  - intros _ _ q Hq. cbn in Hq. lia.
Qed.

(** The tree before the traversals of [BuildTree]. *)
Lemma addAll_createRoot_built tb urls contents :
  let pre := addAll range tb contents 0 urls (createRoot tb urls contents) in
  built tb contents pre
  /\ Root pre = Root (createRoot tb urls contents)
  /\ (forall url, url ∈ dom (NodeMap pre) <-> url ∈ urls /\ is_Some (contents !! url)).
Proof.
  cbv zeta. pose proof (createRoot_built tb urls contents) as Hb.
  destruct urls as [|rootURL rest].
  { cbn [addAll createRoot]. split; [exact Hb|]. split; [reflexivity|].
    intros url. cbn [NodeMap]. rewrite dom_empty_L. split; [intros H; inversion H|].
    intros [H _]. inversion H. }
  cbn [addAll Nat.eqb andb].
  destruct (contents !! rootURL) as [content|] eqn:Ec.
  - assert (Hr : Root (createRoot tb (rootURL :: rest) contents) = Some O)
      by (unfold createRoot; rewrite Ec; reflexivity).
    rewrite Hr. rewrite bool_decide_eq_true_2 by eauto.
    split; [apply addAll_built, Hb|]. split; [rewrite addAll_Root; exact Hr|].
    intros url. rewrite addAll_dom, elem_of_cons.
    assert (Hd : url ∈ dom (NodeMap (createRoot tb (rootURL :: rest) contents)) <-> url = rootURL).
    { unfold createRoot. rewrite Ec. cbn [NodeMap]. rewrite dom_insert_L, dom_empty_L. set_solver. }
    rewrite Hd. split.
    + intros [->|[H1 H2]]; [split; [left; reflexivity|rewrite Ec; eauto]|auto].
    + intros [[->|H1] H2]; auto.
  - assert (Hr : createRoot tb (rootURL :: rest) contents = mkDocumentTree [] None ∅ 0 0)
      by (unfold createRoot; rewrite Ec; reflexivity).
    rewrite Hr in *. cbn [Root]. rewrite bool_decide_eq_false_2 by (intros [? ?]; discriminate).
    split; [apply addAll_built, Hb|]. split; [rewrite addAll_Root; reflexivity|].
    intros url. rewrite addAll_dom, elem_of_cons. cbn [NodeMap]. rewrite dom_empty_L. split.
    + intros [H|[H1 H2]]; [inversion H|auto].
    + intros [[->|H1] H2]; [rewrite Ec in H2; destruct H2; discriminate|auto].
Qed.

Lemma reordered_refl nodes : reordered nodes nodes.
Proof. split; [apply same_links_refl|]. split; apply agree_refl. Qed.

Lemma reordered_trans n1 n2 n3 : reordered n1 n2 -> reordered n2 n3 -> reordered n1 n3.
Proof.
  intros (L1 & P1 & V1) (L2 & P2 & V2). split; [exact (same_links_trans _ _ _ L1 L2)|].
  split; [exact (agree_trans _ _ _ _ P1 P2)|exact (agree_trans _ _ _ _ V1 V2)].
Qed.

Lemma children_sorted_reordered nodes nodes' p :
  children_sorted nodes nodes' p -> reordered nodes nodes'.
Proof.
  intros H. split; [exact (children_sorted_links _ _ _ H)|]. destruct H as (Ha & _).
  split.
  - apply (agree_compose without_children payload payload); [reflexivity|exact Ha].
  - apply (agree_compose without_children levels levels); [reflexivity|exact Ha].
Qed.

Lemma without_index_reordered nodes nodes' :
  agree without_index nodes nodes' -> reordered nodes nodes'.
Proof.
  intros Ha. split; [|split].
  - apply same_links_agree.
    + apply (agree_compose without_index n_Parent n_Parent); [reflexivity|exact Ha].
    + apply (agree_compose without_index n_Children n_Children); [reflexivity|exact Ha].
  - apply (agree_compose without_index payload payload); [reflexivity|exact Ha].
  - apply (agree_compose without_index levels levels); [reflexivity|exact Ha].
Qed.

Lemma agree_lookup {A} (f : DocumentNode -> A) nodes nodes' (q : nat) n' :
  agree f nodes nodes' -> nodes' !! q = Some n' ->
  exists n, nodes !! q = Some n /\ f n' = f n.
Proof.
  intros H Hn. specialize (H q). unfold ptr in *. rewrite Hn in H.
  destruct (nodes !! q) as [n|]; [|discriminate]. exists n. split; [reflexivity|].
  apply (inj Some). exact H.
Qed.

(** [BuildTree] for a list of URLs whose first page has been scraped. *)
Lemma BuildTree_with_root tb rootURL rest contents content :
  contents !! rootURL = Some content ->
  let pre := addAll range tb contents 0 (rootURL :: rest)
               (createRoot tb (rootURL :: rest) contents) in
  exists nodes v,
    BuildTree range tb (rootURL :: rest) contents
    = Done (mkDocumentTree nodes (Some O) (NodeMap pre) v (Z.of_nat (size (NodeMap pre))))
    /\ same_links (t_nodes pre) nodes
    /\ agree payload (t_nodes pre) nodes
    /\ (forall (q : nat) k, desc_at nodes O q k ->
          exists n, nodes !! q = Some n /\ n_Depth n = k /\ n_Level n = k)
    /\ (forall (q : nat) n, nodes !! q = Some n -> (forall k, ~ desc_at nodes O q k) ->
          n_Depth n = 0%Z /\ n_Level n = 0%Z)
    /\ (forall (q : nat) k, desc_at nodes O q k -> (k * (k + 1) <= 2 * v)%Z)
    /\ (exists (q : nat) k, desc_at nodes O q k /\ (2 * v = k * (k + 1))%Z).
Proof.
  intros Ec. cbv zeta.
  destruct (addAll_createRoot_built tb (rootURL :: rest) contents) as (Hb & Hroot & _).
  unfold BuildTree. cbv zeta.
  set (pre := addAll range tb contents 0 (rootURL :: rest)
                (createRoot tb (rootURL :: rest) contents)) in *.
  assert (Hr : Root pre = Some O).
  { rewrite Hroot. unfold createRoot. rewrite Ec. reflexivity. }
  rewrite Hr. unfold CalculateDepthAndLevel. rewrite Hr.
  set (n0 := t_nodes pre) in *.
  pose proof (wf_nodes _ (b_wf _ _ _ Hb)) as Hwf0. fold n0 in Hwf0.
  destruct (wf_Root _ (b_wf _ _ _ Hb) O Hr) as (_ & _ & Hpos). fold n0 in Hpos.
  (* the levels *)
  destruct (calculateNodeDepthAndLevel_spec (S (length n0)) n0 O 0%Z 0%Z Hwf0 Hpos)
    as (n1 & E1 & Ha1 & Hout1 & Hin1); [lia|].
  rewrite E1. cbn [bind].
  pose proof (agree_without_levels_links _ _ Ha1) as Hl1.
  pose proof (wf_store_same_links _ _ Hl1 Hwf0) as Hwf1.
  assert (Hlen1 : length n1 = length n0) by apply Hl1.
  (* the order of the children *)
  assert (H2 : exists n2,
             (if SortChildren_ (tb_config tb)
              then sortTreeChildren (S (length n0)) tb n1 (Some O) else Done n1) = Done n2
             /\ reordered n1 n2).
  { destruct (SortChildren_ (tb_config tb)).
    - unfold sortTreeChildren.
      destruct (SortChildren_spec (SortBy (tb_config tb)) (S (length n0)) n1 O Hwf1)
        as (n2 & E2 & Hs & _); [lia|lia|].
      exists n2. split; [exact E2|exact (children_sorted_reordered _ _ _ Hs)].
    - exists n1. split; [reflexivity|apply reordered_refl]. }
  destruct H2 as (n2 & E2 & Hr2). rewrite E2. cbn [bind].
  pose proof (wf_store_same_links _ _ (proj1 Hr2) Hwf1) as Hwf2.
  assert (Hlen2 : length n2 = length n0) by (destruct Hr2 as ((L & _) & _); lia).
  (* the indexes *)
  assert (H3 : exists n3,
             (if AutoIndex (tb_config tb)
              then bind (autoIndexNodes (S (length n0)) n2 (Some O) 0)
                        (fun st => Done (fst st))
              else Done n2) = Done n3
             /\ reordered n2 n3).
  { destruct (AutoIndex (tb_config tb)).
    - destruct (autoIndexNodes_spec (S (length n0)) n2 O 0%Z Hwf2)
        as (n3 & next & E3 & Ha3); [lia|lia|].
      exists n3. rewrite E3. split; [reflexivity|exact (without_index_reordered _ _ Ha3)].
    - exists n2. split; [reflexivity|apply reordered_refl]. }
  destruct H3 as (n3 & E3 & Hr3). rewrite E3. cbn [bind].
  pose proof (reordered_trans _ _ _ Hr2 Hr3) as (Hl13 & Hp13 & Hv13).
  pose proof (wf_store_same_links _ _ Hl13 Hwf1) as Hwf3.
  assert (Hlen3 : length n3 = length n0) by (destruct Hl13 as (L & _); lia).
  pose proof (same_links_trans _ _ _ Hl1 Hl13) as Hl03.
  assert (Hdesc : forall (q : nat) k, desc_at n3 O q k -> desc_at n0 O q k).
  { intros q k. apply desc_at_same_links, same_links_sym, Hl03. }
  assert (Hlev : forall (q : nat) k, desc_at n3 O q k ->
            exists n, n3 !! q = Some n /\ n_Depth n = k /\ n_Level n = k).
  { intros q k Hd. destruct (Hin1 q k (Hdesc q k Hd)) as (Hd1 & Hd2).
    assert (Hq : q < length n3).
    { rewrite Hlen3, <- Hlen1. apply lookup_lt_is_Some. unfold ptr in *.
      destruct (n1 !! q); [eauto|discriminate]. }
    destruct (lookup_lt_is_Some_2 _ _ Hq) as [n Hn]. exists n. split; [exact Hn|].
    destruct (agree_lookup levels n1 n3 q n Hv13 Hn) as (m & Hm & E).
    unfold ptr in *. rewrite Hm in Hd1, Hd2. cbn in Hd1, Hd2.
    unfold levels in E. injection E as E1' E2'. injection Hd1 as Hd1. injection Hd2 as Hd2.
    split; lia. }
  (* the greatest depth *)
  destruct (calculateMaxDepth_spec (S (length n0)) n3 O 0%Z Hwf3)
    as (v & E4 & Hmax & Hatt); [lia|lia| |lia|].
  { intros q k Hd. destruct (Hlev q k Hd) as (n & Hn & Hdn & _).
    unfold ptr in *. rewrite Hn. cbn. f_equal. lia. }
  rewrite E4. cbn [bind]. exists n3, v. split; [reflexivity|].
  split; [exact Hl03|]. split.
  { apply (agree_trans _ _ n1); [|exact Hp13].
    apply (agree_compose without_levels payload payload); [reflexivity|exact Ha1]. }
  split; [exact Hlev|]. split.
  { intros q n Hn Hnot.
    destruct (agree_lookup levels n1 n3 q n Hv13 Hn) as (m & Hm & E).
    assert (Hnot0 : forall k, ~ desc_at n0 O q k).
    { intros k Hd. apply (Hnot k). exact (desc_at_same_links _ _ _ _ _ Hl03 Hd). }
    rewrite (Hout1 q Hnot0) in Hm. destruct (b_zero _ _ _ Hb q m Hm) as (Z1 & Z2 & _).
    unfold levels in E. injection E as E1' E2'. split; congruence. }
  split.
  - intros q k Hd. specialize (Hmax q k Hd). unfold depth_sum2 in Hmax. lia.
  - destruct Hatt as (q & k & Hd & E). exists q, k. split; [exact Hd|].
    unfold depth_sum2 in E. lia.
Qed.

End Building2.

End Forest.

(** ** The tree builder: traversals *)

Section Traversals.

Local Open Scope nat_scope.

Lemma visit_all_app {St E} (visitor : Visitor St E) nodes l1 l2 st :
  (forall p : nat, p ∈ l1 -> p < length nodes) ->
  visit_all visitor nodes (l1 ++ l2) st
  = match visit_all visitor nodes l1 st with
    | (st', None) => visit_all visitor nodes l2 st'
    | r => r
    end.
Proof.
  revert st. induction l1 as [|p l1 IH]; intros st Hv; [reflexivity|].
  cbn [app visit_all]. unfold ptr in *.
  destruct (nodes !! p) as [n|] eqn:En.
  - destruct (visitor st p n) as [st' [err|]]; [reflexivity|].
    apply IH. intros q Hq. apply Hv. right. exact Hq.
  - apply lookup_ge_None_1 in En. assert (p < length nodes) by (apply Hv; left). lia.
Qed.

Lemma desc_at_lt nodes (p q : nat) k :
  wf_store nodes -> p < length nodes -> desc_at nodes p q k -> q < length nodes.
Proof.
  intros Hwf Hp H. destruct H as [|r c k H Hc]; [exact Hp|].
  apply (wf_forward _ Hwf) in Hc. lia.
Qed.

(** The nodes of [preorder] are the nodes below [p]. *)
Lemma elem_of_preorder nodes fuel : forall (p q : nat),
  wf_store nodes -> p < length nodes -> length nodes - p <= fuel ->
  q ∈ preorder fuel nodes p <-> exists k, desc_at nodes p q k.
Proof.
  induction fuel as [|fuel IH]; intros p q Hwf Hp Hf; [lia|].
  cbn [preorder]. rewrite elem_of_cons, list_elem_of_bind. split.
  - intros [->|(c & Hq & Hc)]; [exists 0%Z; constructor|].
    pose proof (wf_forward _ Hwf _ _ Hc) as Hlt.
    apply IH in Hq; [|exact Hwf|lia|lia]. destruct Hq as [k Hd].
    exists (k + 1)%Z. exact (desc_at_prepend _ _ _ _ _ Hc Hd).
  - intros [k Hd]. destruct (desc_at_first _ _ _ _ Hd) as [[-> _]|(c & Hc & Hd')]; [left; reflexivity|].
    right. exists c. split; [|exact Hc].
    pose proof (wf_forward _ Hwf _ _ Hc) as Hlt.
    apply IH; [exact Hwf|lia|lia|eauto].
Qed.

Lemma NoDup_preorder nodes fuel : forall (p : nat),
  wf_store nodes -> p < length nodes -> length nodes - p <= fuel ->
  NoDup (preorder fuel nodes p).
Proof.
  induction fuel as [|fuel IH]; intros p Hwf Hp Hf; [lia|].
  cbn [preorder]. apply NoDup_cons. split.
  - rewrite list_elem_of_bind. intros (c & Hq & Hc).
    pose proof (wf_forward _ Hwf _ _ Hc) as Hlt.
    apply elem_of_preorder in Hq; [|exact Hwf|lia|lia]. destruct Hq as [k Hd].
    destruct (desc_at_ge _ _ _ _ Hwf Hd) as [[_ E]|[_ E]]; lia.
  - apply NoDup_bind.
    + intros c1 c2 q H1 H2 Hq1 Hq2.
      pose proof (wf_forward _ Hwf _ _ H1) as Hlt1.
      pose proof (wf_forward _ Hwf _ _ H2) as Hlt2.
      apply elem_of_preorder in Hq1; [|exact Hwf|lia|lia].
      apply elem_of_preorder in Hq2; [|exact Hwf|lia|lia].
      destruct Hq1 as [k1 Hd1], Hq2 as [k2 Hd2].
      destruct (decide (c1 = c2)) as [|Hne]; [assumption|].
      exfalso. exact (desc_at_disjoint nodes p c1 c2 q k1 k2 Hwf H1 H2 Hne Hd1 Hd2).
    + intros c Hc. pose proof (wf_forward _ Hwf _ _ Hc) as Hlt. apply IH; [exact Hwf|lia|lia].
    + apply (wf_NoDup _ Hwf).
Qed.

(** More fuel than the nodes after [p] does not change [preorder]. *)
Lemma preorder_fuel nodes fuel : forall fuel' (p : nat),
  wf_store nodes -> p < length nodes -> length nodes - p <= fuel -> length nodes - p <= fuel' ->
  preorder fuel nodes p = preorder fuel' nodes p.
Proof.
  induction fuel as [|fuel IH]; intros fuel' p Hwf Hp Hf Hf'; [lia|].
  destruct fuel' as [|fuel']; [lia|]. cbn [preorder]. f_equal.
  assert (H : forall c : nat, c ∈ children_of nodes p ->
            preorder fuel nodes c = preorder fuel' nodes c).
  { intros c Hc. pose proof (wf_forward _ Hwf _ _ Hc) as Hlt. apply IH; [exact Hwf|lia..]. }
  induction (children_of nodes p) as [|c cs IHc]; [reflexivity|].
  cbn. rewrite (H c) by left. f_equal. apply IHc. intros c' Hc'. apply H. right. exact Hc'.
Qed.

Lemma preorder_valid nodes fuel (p q : nat) :
  wf_store nodes -> p < length nodes -> length nodes - p <= fuel ->
  q ∈ preorder fuel nodes p -> q < length nodes.
Proof.
  intros Hwf Hp Hf Hq. apply elem_of_preorder in Hq; [|assumption..].
  destruct Hq as [k Hd]. exact (desc_at_lt _ _ _ _ Hwf Hp Hd).
Qed.

(** [traverseDepthFirstNode] calls the visitor on the nodes of [preorder],
    in this order, up to the first error. *)
Lemma traverseDepthFirstNode_spec {St E} (visitor : Visitor St E) nodes fuel :
  forall (p : nat) st,
  wf_store nodes -> p < length nodes -> length nodes - p <= fuel ->
  traverseDepthFirstNode fuel nodes p visitor st
  = Done (visit_all visitor nodes (preorder fuel nodes p) st).
Proof.
  induction fuel as [|fuel IH]; intros p st Hwf Hp Hf; [lia|].
  cbn [traverseDepthFirstNode preorder visit_all]. unfold ptr in *.
  destruct (nodes !! p) as [n|] eqn:En; [|apply lookup_ge_None_1 in En; lia].
  assert (Hch : children_of nodes p = n_Children n)
    by (unfold children_of, ptr; rewrite En; reflexivity).
  destruct (visitor st p n) as [st1 [err|]]; [reflexivity|].
  rewrite Hch.
  assert (Hc : forall c : nat, c ∈ n_Children n -> p < c < length nodes).
  { intros c Hc. apply (wf_forward _ Hwf). rewrite Hch. exact Hc. }
  clear Hch En. revert st1. induction (n_Children n) as [|c cs IHc]; intros st1; [reflexivity|].
  assert (Hcc : p < c < length nodes) by (apply Hc; left).
  cbn [fold_left bind]. rewrite IH; [|exact Hwf|lia..].
  cbn [mbind list_bind]. rewrite visit_all_app.
  2:{ intros q Hq. apply (preorder_valid nodes fuel c q Hwf); [lia|lia|exact Hq]. }
  destruct (visit_all visitor nodes (preorder fuel nodes c) st1) as [st2 [err|]].
  - clear. induction cs as [|c' cs IHcs]; [reflexivity|]. cbn [fold_left bind]. exact IHcs.
  - apply IHc. intros c' Hc'. apply Hc. right. exact Hc'.
Qed.

Lemma bind_ext_in {A B} (f g : A -> list B) (l : list A) :
  (forall x, x ∈ l -> f x = g x) -> l ≫= f = l ≫= g.
Proof.
  induction l as [|x l IH]; intros H; [reflexivity|]. cbn.
  rewrite (H x) by left. f_equal. apply IH. intros y Hy. apply H. right. exact Hy.
Qed.

Lemma preorder_unfold nodes (p : nat) :
  wf_store nodes -> p < length nodes ->
  preorder (length nodes) nodes p
  = p :: (children_of nodes p ≫= preorder (length nodes) nodes).
Proof.
  intros Hwf Hp.
  assert (E : exists F, length nodes = S F) by (destruct (length nodes); [lia|eauto]).
  destruct E as [F EF].
  transitivity (preorder (S F) nodes p); [rewrite EF; reflexivity|].
  cbn [preorder]. f_equal. apply bind_ext_in. intros c Hc.
  pose proof (wf_forward _ Hwf _ _ Hc) as Hlt.
  apply preorder_fuel; [exact Hwf|lia..].
Qed.

Lemma length_bind_app {A B} (f : A -> list B) (l1 l2 : list A) :
  length ((l1 ++ l2) ≫= f) = length (l1 ≫= f) + length (l2 ≫= f).
Proof. rewrite bind_app, length_app. reflexivity. Qed.

(** The loop of [TraverseBreadthFirst] calls the visitor on the nodes of
    [level_order], which are the nodes below the nodes of the queue. *)
Lemma breadthFirstLoop_spec {St E} (visitor : Visitor St E) nodes fuel :
  forall queue st,
  wf_store nodes -> (forall p : nat, p ∈ queue -> p < length nodes) ->
  length (queue ≫= preorder (length nodes) nodes) < fuel ->
  breadthFirstLoop fuel nodes queue visitor st
  = Done (visit_all visitor nodes (level_order fuel nodes queue) st).
Proof.
  induction fuel as [|fuel IH]; intros queue st Hwf Hq Hf; [lia|].
  destruct queue as [|p queue]; [reflexivity|].
  cbn [breadthFirstLoop level_order visit_all]. unfold ptr in *.
  assert (Hp : p < length nodes) by (apply Hq; left).
  destruct (nodes !! p) as [n|] eqn:En; [|apply lookup_ge_None_1 in En; lia].
  assert (Hch : children_of nodes p = n_Children n)
    by (unfold children_of, ptr; rewrite En; reflexivity).
  destruct (visitor st p n) as [st1 [err|]]; [reflexivity|].
  rewrite Hch. apply IH; [exact Hwf| |].
  - intros c Hc. apply elem_of_app in Hc. destruct Hc as [Hc|Hc]; [apply Hq; right; exact Hc|].
    rewrite <- Hch in Hc. apply (wf_forward _ Hwf) in Hc. lia.
  - rewrite length_bind_app. cbn [mbind list_bind] in Hf.
    rewrite length_app, (preorder_unfold nodes p Hwf Hp), Hch in Hf. cbn [length] in Hf.
    unfold ptr in *. lia.
Qed.

Lemma level_order_Permutation nodes fuel : forall queue,
  wf_store nodes -> (forall p : nat, p ∈ queue -> p < length nodes) ->
  length (queue ≫= preorder (length nodes) nodes) < fuel ->
  level_order fuel nodes queue ≡ₚ queue ≫= preorder (length nodes) nodes.
Proof.
  induction fuel as [|fuel IH]; intros queue Hwf Hq Hf; [lia|].
  destruct queue as [|p queue]; [reflexivity|].
  cbn [level_order]. unfold ptr in *.
  assert (Hp : p < length nodes) by (apply Hq; left).
  cbn [mbind list_bind] in *.
  rewrite (preorder_unfold nodes p Hwf Hp) in *. cbn [app length] in *.
  constructor. rewrite IH; [| exact Hwf | |].
  - rewrite bind_app. apply Permutation_app_comm.
  - intros c Hc. apply elem_of_app in Hc. destruct Hc as [Hc|Hc]; [apply Hq; right; exact Hc|].
    apply (wf_forward _ Hwf) in Hc. lia.
  - rewrite length_bind_app. rewrite length_app in Hf. unfold ptr in *. lia.
Qed.

(** The nodes below a node are at most the nodes of the store. *)
Lemma length_preorder nodes fuel (p : nat) :
  wf_store nodes -> p < length nodes -> length nodes - p <= fuel ->
  length (preorder fuel nodes p) <= length nodes.
Proof.
  intros Hwf Hp Hf.
  pose proof (NoDup_preorder nodes fuel p Hwf Hp Hf) as Hnd.
  assert (Hsub : preorder fuel nodes p ⊆ seq 0 (length nodes)).
  { intros q Hq. apply elem_of_seq. pose proof (preorder_valid nodes fuel p q Hwf Hp Hf Hq). lia. }
  pose proof (submseteq_length _ _ (NoDup_submseteq _ _ Hnd Hsub)) as H.
  rewrite length_seq in H. exact H.
Qed.

Lemma GetAllNodes_map range dt : GetAllNodes range dt = (range (NodeMap dt)).*2.
Proof.
  unfold GetAllNodes.
  assert (H : forall l acc, fold_left (fun nodes (entry : string * ptr) => nodes ++ [entry.2]) l acc
                            = acc ++ l.*2).
  { induction l as [|e l IH]; intros acc; cbn; [rewrite app_nil_r; reflexivity|].
    rewrite IH, <- app_assoc. reflexivity. }
  apply (H _ []).
Qed.

(** [GetAllNodes] returns every node of a tree once. *)
Lemma GetAllNodes_Permutation range dt :
  (forall m, range m ≡ₚ map_to_list m) -> wf_tree dt ->
  GetAllNodes range dt ≡ₚ seq 0 (length (t_nodes dt)).
Proof.
  intros Hrange [Hs Hm Hr]. rewrite GetAllNodes_map, Hrange.
  apply NoDup_Permutation.
  - apply NoDup_fmap_2_strong; [|apply NoDup_map_to_list].
    intros [u1 p1] [u2 p2] H1 H2 E. cbn in E. subst p2.
    apply elem_of_map_to_list in H1, H2. apply Hm in H1, H2.
    destruct H1 as (n1 & Hn1 & <-), H2 as (n2 & Hn2 & <-). congruence.
  - apply NoDup_seq.
  - intros p. rewrite elem_of_seq, list_elem_of_fmap. split.
    + intros ([u q] & -> & H). apply elem_of_map_to_list in H. apply Hm in H.
      destruct H as (n & Hn & _). apply lookup_lt_Some in Hn. cbn. lia.
    + intros [_ Hp]. destruct (lookup_lt_is_Some_2 (t_nodes dt) p) as [n Hn]; [lia|].
      exists (n_URL n, p). split; [reflexivity|]. apply elem_of_map_to_list. apply Hm. eauto.
Qed.

(** The visitor of [GetNodesByLevel] keeps the nodes of a level. *)
Lemma visit_all_level nodes level order : forall found,
  (forall p : nat, p ∈ order -> p < length nodes) ->
  visit_all (E := unit)
    (fun nodes node n => (if (n_Level n =? level)%Z then nodes ++ [node] else nodes, None))
    nodes order found
  = (found ++ filter (fun p : nat => n_Level <$> nodes !! p = Some level) order, None).
Proof.
  induction order as [|p order IH]; intros found Hv; cbn [visit_all].
  - rewrite app_nil_r. reflexivity.
  - assert (Hp : p < length nodes) by (apply Hv; left). unfold ptr in *.
    destruct (nodes !! p) as [n|] eqn:En; [|apply lookup_ge_None_1 in En; lia].
    rewrite IH by (intros q Hq; apply Hv; right; exact Hq).
    destruct (Z.eqb_spec (n_Level n) level) as [El|El].
    + rewrite filter_cons_True by (unfold ptr; rewrite En; cbn; congruence).
      rewrite <- app_assoc. reflexivity.
    + rewrite filter_cons_False; [reflexivity|]. unfold ptr. rewrite En. cbn. congruence.
Qed.

End Traversals.

(** ** The tree builder: the tree of [BuildTree] *)

Section TreeProperties.

Local Open Scope nat_scope.

Variable range : MapOrder.
Hypothesis range_Permutation : forall m, range m ≡ₚ map_to_list m.

(** The tree of [BuildTree] is well formed when the tree of its loop is. *)
Lemma wf_tree_reordered pre nodes v t :
  wf_tree pre -> same_links (t_nodes pre) nodes -> agree payload (t_nodes pre) nodes ->
  wf_tree (mkDocumentTree nodes (Root pre) (NodeMap pre) v t).
Proof.
  intros [Hs Hm Hr] Hl Hp. split; cbn [t_nodes Root NodeMap].
  - exact (wf_store_same_links _ _ Hl Hs).
  - assert (Hu : agree n_URL (t_nodes pre) nodes).
    { apply (agree_compose payload n_URL (fun x => x.1.1.1.1.1)); [reflexivity|exact Hp]. }
    intros url p. rewrite Hm. specialize (Hu p). unfold ptr in *. split.
    + intros (n & Hn & E). rewrite Hn in Hu. destruct (nodes !! p) as [n'|]; [|discriminate].
      exists n'. split; [reflexivity|]. cbn in Hu. congruence.
    + intros (n' & Hn & E). rewrite Hn in Hu.
      destruct (t_nodes pre !! p) as [n|]; [|discriminate].
      exists n. split; [reflexivity|]. cbn in Hu. congruence.
  - intros r H. destruct (Hr r H) as (-> & Hp0 & Hlen). destruct Hl as (L & P & _).
    split; [reflexivity|]. split; [rewrite P; exact Hp0|lia].
Qed.

Lemma addAll_keeps tb contents urls url (p : nat) : forall i tree,
  NodeMap tree !! url = Some p ->
  NodeMap (addAll range tb contents (S i) urls tree) !! url = Some p.
Proof.
  induction urls as [|u rest IH]; intros i tree H; [exact H|].
  cbn [addAll Nat.eqb andb]. apply IH.
  destruct (contents !! u) as [content|]; [|exact H].
  unfold AddNode. destruct (NodeMap tree !! u) as [q|] eqn:E; [exact H|].
  cbn [snd NodeMap]. rewrite lookup_insert_ne; [exact H|]. intros ->.
  unfold ptr in *. congruence.
Qed.

Lemma size_dom_urls (contents : gmap string ScrapedContent) (urls : list string)
    (m : gmap string ptr) :
  (forall url, url ∈ dom m <-> url ∈ urls /\ is_Some (contents !! url)) ->
  size m = size (dom contents ∩ list_to_set urls : gset string).
Proof.
  intros H. rewrite <- size_dom. f_equal. apply set_eq. intros url.
  rewrite H, elem_of_intersection, elem_of_dom, elem_of_list_to_set. tauto.
Qed.

(** Every node with a parent, but for the root, lies below the root. *)
Lemma all_below_root nodes :
  wf_store nodes ->
  (forall q : nat, 0 < q < length nodes -> is_Some (parent_at nodes q)) ->
  forall q : nat, q < length nodes -> exists k, desc_at nodes O q k.
Proof.
  intros Hwf Hpar q. induction q as [q IH] using lt_wf_ind. intros Hq.
  destruct q as [|q]; [exists 0%Z; constructor|].
  destruct (Hpar (S q)) as [r Hr]; [lia|].
  apply (wf_parent_child _ Hwf) in Hr. pose proof (wf_forward _ Hwf _ _ Hr) as Hlt.
  destruct (IH r) as [k Hk]; [lia|lia|].
  exists (k + 1)%Z. exact (desc_child nodes O r (S q) k Hk Hr).
Qed.

(** BuildTree, with a first URL that has a page: the tree, and all that
    the properties below read off it. *)
Lemma BuildTree_tree tb rootURL rest contents content :
  contents !! rootURL = Some content ->
  exists tree,
    BuildTree range tb (rootURL :: rest) contents = Done tree
    /\ wf_tree tree
    /\ Root tree = Some O
    /\ NodeMap tree !! rootURL = Some O
    /\ (forall url, url ∈ dom (NodeMap tree)
                    <-> url ∈ rootURL :: rest /\ is_Some (contents !! url))
    /\ (forall (q : nat) n, t_nodes tree !! q = Some n ->
          exists c, contents !! n_URL n = Some c
                    /\ n_Path n = extractPath tb (n_URL n)
                    /\ n_Title n = sc_Title c /\ n_Content n = sc_Content c
                    /\ n_Metadata n = sc_Metadata c)
    /\ TotalNodes tree = Z.of_nat (size (NodeMap tree))
    /\ length (t_nodes tree) = size (NodeMap tree)
    /\ (FallbackToRoot (tb_config tb) = true ->
        forall q : nat, q < length (t_nodes tree) -> exists k, desc_at (t_nodes tree) O q k)
    /\ (forall (q : nat) k, desc_at (t_nodes tree) O q k ->
          exists n, t_nodes tree !! q = Some n /\ n_Depth n = k /\ n_Level n = k)
    /\ (forall (q : nat) n, t_nodes tree !! q = Some n ->
          (forall k, ~ desc_at (t_nodes tree) O q k) -> n_Depth n = 0%Z /\ n_Level n = 0%Z)
    /\ (forall (q : nat) k, desc_at (t_nodes tree) O q k -> (k * (k + 1) <= 2 * MaxDepth tree)%Z)
    /\ (exists (q : nat) k, desc_at (t_nodes tree) O q k
                            /\ (2 * MaxDepth tree = k * (k + 1))%Z).
Proof.
  intros Ec.
  destruct (BuildTree_with_root range range_Permutation tb rootURL rest contents content Ec)
    as (nodes & v & Hrun & Hl & Hp & Hlev & Hzero & Hmax & Hatt).
  destruct (addAll_createRoot_built range range_Permutation tb (rootURL :: rest) contents)
    as (Hb & Hroot & Hdom).
  set (pre := addAll range tb contents 0 (rootURL :: rest)
                (createRoot tb (rootURL :: rest) contents)) in *.
  assert (Hr : Root pre = Some O).
  { rewrite Hroot. unfold createRoot. rewrite Ec. reflexivity. }
  eexists. split; [exact Hrun|]. cbn [t_nodes Root NodeMap MaxDepth TotalNodes].
  split; [rewrite <- Hr; exact (wf_tree_reordered pre nodes _ _ (b_wf _ _ _ Hb) Hl Hp)|].
  split; [reflexivity|]. split.
  { unfold pre. cbn [addAll Nat.eqb andb].
    assert (Hc : createRoot tb (rootURL :: rest) contents
                 = mkDocumentTree
                     [mkDocumentNode rootURL (extractPath tb rootURL) (sc_Title content)
                        (sc_Content content) 0 0 None [] (sc_Metadata content) 0]
                     (Some O) (<[rootURL := O]> ∅) 0 0).
    { unfold createRoot. rewrite Ec. reflexivity. }
    rewrite Hc. cbn [Root]. rewrite bool_decide_eq_true_2 by eauto.
    apply addAll_keeps. cbn [NodeMap]. apply lookup_insert_eq. }
  split; [exact Hdom|]. split.
  { intros q n Hn. destruct (agree_lookup payload _ _ q n Hp Hn) as (m & Hm & E).
    destruct (b_page _ _ _ Hb q m Hm) as (c & H1 & H2 & H3 & H4 & H5).
    unfold payload in E. injection E as E1 E2 E3 E4 E5 E6.
    exists c. rewrite E1, E2, E3, E4, E6. auto. }
  split; [reflexivity|]. split.
  { destruct Hl as (L & _). rewrite L. exact (b_size _ _ _ Hb). }
  split.
  { intros Hf. apply all_below_root.
    - exact (wf_store_same_links _ _ Hl (wf_nodes _ (b_wf _ _ _ Hb))).
    - intros q Hq. destruct Hl as (L & P & _). rewrite P. rewrite L in Hq.
      apply (b_attached _ _ _ Hb Hf); [rewrite Hr; eauto|exact Hq]. }
  auto.
Qed.

Lemma level_order_fuel nodes fuel : forall fuel' queue,
  wf_store nodes -> (forall p : nat, p ∈ queue -> p < length nodes) ->
  length (queue ≫= preorder (length nodes) nodes) < fuel ->
  length (queue ≫= preorder (length nodes) nodes) < fuel' ->
  level_order fuel nodes queue = level_order fuel' nodes queue.
Proof.
  induction fuel as [|fuel IH]; intros fuel' queue Hwf Hq Hf Hf'; [lia|].
  destruct fuel' as [|fuel']; [lia|].
  destruct queue as [|p queue]; [reflexivity|].
  cbn [level_order]. f_equal.
  assert (Hp : p < length nodes) by (apply Hq; left).
  cbn [mbind list_bind] in *.
  rewrite (preorder_unfold nodes p Hwf Hp) in *. cbn [app length] in *.
  rewrite length_app in *.
  apply IH; [exact Hwf| | |].
  - intros c Hc. apply elem_of_app in Hc. destruct Hc as [Hc|Hc]; [apply Hq; right; exact Hc|].
    apply (wf_forward _ Hwf) in Hc. lia.
  - rewrite length_bind_app. unfold ptr in *. lia.
  - rewrite length_bind_app. unfold ptr in *. lia.
Qed.

Lemma NoDup_only {A} (l : list A) (x : A) :
  NoDup l -> (forall y, y ∈ l <-> y = x) -> l = [x].
Proof.
  intros Hnd H. destruct l as [|a l].
  - assert (Hx : x ∈ []) by (apply H; reflexivity). inversion Hx.
  - assert (a = x) by (apply H; left). subst a. f_equal.
    destruct l as [|b l]; [reflexivity|].
    assert (b = x) by (apply H; right; left). subst b.
    apply NoDup_cons in Hnd as [Hn _]. exfalso. apply Hn. left.
Qed.

(** X25.  [BuildTree], for a list of URLs whose first URL has a page,
    returns a tree; its root is the node of the first URL; [FindNode]
    finds a node for exactly the listed URLs that have a page, and this
    node carries the URL, the title, the content and the metadata of the
    page; [TotalNodes] is the number of nodes, which is the number of
    distinct listed URLs with a page. *)
Theorem BuildTree_indexes_scraped_pages tb rootURL rest contents content :
  contents !! rootURL = Some content ->
  exists tree,
    BuildTree range tb (rootURL :: rest) contents = Done tree
    /\ Root tree = FindNode tree rootURL /\ is_Some (Root tree)
    /\ (forall url, is_Some (FindNode tree url)
                    <-> url ∈ rootURL :: rest /\ is_Some (contents !! url))
    /\ (forall url p, FindNode tree url = Some p ->
          exists n c, t_nodes tree !! p = Some n /\ contents !! url = Some c
                      /\ n_URL n = url /\ n_Path n = extractPath tb url
                      /\ n_Title n = sc_Title c /\ n_Content n = sc_Content c
                      /\ n_Metadata n = sc_Metadata c)
    /\ TotalNodes tree = Z.of_nat (length (t_nodes tree))
    /\ TotalNodes tree
       = Z.of_nat (size (dom contents ∩ list_to_set (rootURL :: rest) : gset string)).
Proof.
  intros Ec. destruct (BuildTree_tree tb rootURL rest contents content Ec)
    as (tree & Hrun & Hwf & Hr & Hroot & Hdom & Hpage & Ht & Hlen & _).
  exists tree. split; [exact Hrun|]. unfold FindNode.
  split; [rewrite Hr; symmetry; exact Hroot|]. split; [rewrite Hr; eauto|]. split.
  { intros url. rewrite <- Hdom, elem_of_dom. reflexivity. }
  split.
  { intros url p Hp. apply (wf_NodeMap _ Hwf) in Hp. destruct Hp as (n & Hn & <-).
    destruct (Hpage p n Hn) as (c & H1 & H2 & H3 & H4 & H5). exists n, c. auto 10. }
  split; [rewrite Ht, Hlen; reflexivity|].
  rewrite Ht. f_equal. apply size_dom_urls. exact Hdom.
Qed.

(** X26.  [BuildTree] without a page for the first URL, or without URLs,
    has no root: with [SortChildren] or [AutoIndex] configured it
    dereferences the nil root; otherwise it returns a tree whose [Root] is
    nil and whose [MaxDepth] is 0, while the other scraped pages are still
    in [NodeMap] and counted in [TotalNodes], all with level 0, and no
    traversal calls its visitor. *)
Theorem BuildTree_without_root tb urls contents :
  (forall rootURL, head urls = Some rootURL -> contents !! rootURL = None) ->
  (SortChildren_ (tb_config tb) || AutoIndex (tb_config tb) = true ->
   BuildTree range tb urls contents = Panic)
  /\ (SortChildren_ (tb_config tb) || AutoIndex (tb_config tb) = false ->
      exists tree,
        BuildTree range tb urls contents = Done tree
        /\ Root tree = None /\ MaxDepth tree = 0%Z
        /\ (forall url, is_Some (FindNode tree url)
                        <-> url ∈ urls /\ is_Some (contents !! url))
        /\ TotalNodes tree = Z.of_nat (length (t_nodes tree))
        /\ (forall (q : nat) n, t_nodes tree !! q = Some n ->
              n_Depth n = 0%Z /\ n_Level n = 0%Z)
        /\ forall (St E : Type) (visitor : Visitor St E) (st : St) (fuel : nat),
             TraverseDepthFirst fuel tree visitor st = Done (st, None)
             /\ TraverseBreadthFirst fuel tree visitor st = Done (st, None)).
Proof.
  intros Hno.
  destruct (addAll_createRoot_built range range_Permutation tb urls contents)
    as (Hb & Hroot & Hdom).
  assert (Hr : Root (createRoot tb urls contents) = None).
  { unfold createRoot. destruct urls as [|rootURL rest]; [reflexivity|].
    rewrite (Hno rootURL eq_refl). reflexivity. }
  rewrite Hr in Hroot. unfold BuildTree. cbv zeta.
  set (pre := addAll range tb contents 0 urls (createRoot tb urls contents)) in *.
  unfold CalculateDepthAndLevel. rewrite Hroot. cbn [bind]. split.
  - intros Hc. destruct (SortChildren_ (tb_config tb)); [reflexivity|].
    cbn [bind]. destruct (AutoIndex (tb_config tb)); [reflexivity|discriminate].
  - intros Hc. apply orb_false_iff in Hc as [-> ->]. cbn [bind calculateMaxDepth].
    eexists. split; [reflexivity|]. cbn [t_nodes Root NodeMap MaxDepth TotalNodes].
    split; [reflexivity|]. split; [reflexivity|]. split.
    { intros url. unfold FindNode. rewrite <- Hdom, elem_of_dom. reflexivity. }
    split; [rewrite (b_size _ _ _ Hb); reflexivity|]. split.
    { intros q n Hn. destruct (b_zero _ _ _ Hb q n Hn) as (H1 & H2 & _). auto. }
    intros St E visitor st fuel. split; reflexivity.
Qed.

(** X27.  In the tree [BuildTree] returns, [Level] and [Depth] of a node
    below the root are the number of links from the root to the node; a
    node that is not below the root has level and depth 0, whatever its
    parent; with [FallbackToRoot] every node is below the root. *)
Theorem BuildTree_levels_are_distances tb rootURL rest contents content :
  contents !! rootURL = Some content ->
  exists tree,
    BuildTree range tb (rootURL :: rest) contents = Done tree
    /\ Root tree = Some O
    /\ (forall (q : nat) k, desc_at (t_nodes tree) O q k ->
          exists n, t_nodes tree !! q = Some n /\ n_Level n = k /\ n_Depth n = k)
    /\ (forall (q : nat) n, t_nodes tree !! q = Some n ->
          (forall k, ~ desc_at (t_nodes tree) O q k) -> n_Level n = 0%Z /\ n_Depth n = 0%Z)
    /\ (FallbackToRoot (tb_config tb) = true ->
        forall q : nat, q < length (t_nodes tree) -> exists k, desc_at (t_nodes tree) O q k).
Proof.
  intros Ec. destruct (BuildTree_tree tb rootURL rest contents content Ec)
    as (tree & Hrun & Hwf & Hr & _ & _ & _ & _ & _ & Hall & Hlev & Hzero & _).
  exists tree. split; [exact Hrun|]. split; [exact Hr|]. split.
  { intros q k Hd. destruct (Hlev q k Hd) as (n & Hn & H1 & H2). eauto. }
  split; [|exact Hall].
  intros q n Hn Hnot. destruct (Hzero q n Hn Hnot). auto.
Qed.

(** X28.  [MaxDepth] of the tree [BuildTree] returns is not the depth of
    the deepest node: [calculateMaxDepth] adds up the depths along the
    path to it, so for a deepest node [deepest] links below the root
    [MaxDepth] is 0 + 1 + ... + [deepest]. *)
Theorem BuildTree_MaxDepth_adds_up_depths tb rootURL rest contents content :
  contents !! rootURL = Some content ->
  exists tree deepest,
    BuildTree range tb (rootURL :: rest) contents = Done tree
    /\ Root tree = Some O
    /\ (exists q : nat, desc_at (t_nodes tree) O q deepest)
    /\ (forall (q : nat) k, desc_at (t_nodes tree) O q k -> (k <= deepest)%Z)
    /\ (2 * MaxDepth tree = deepest * (deepest + 1))%Z.
Proof.
  intros Ec. destruct (BuildTree_tree tb rootURL rest contents content Ec)
    as (tree & Hrun & Hwf & Hr & _ & _ & _ & _ & _ & _ & _ & _ & Hmax & (q0 & k0 & Hd0 & E)).
  exists tree, k0. split; [exact Hrun|]. split; [exact Hr|]. split; [eauto|].
  split; [|exact E].
  intros q k Hd. specialize (Hmax q k Hd). rewrite E in Hmax.
  assert (0 <= k)%Z by (destruct (desc_at_ge _ _ _ _ (wf_nodes _ Hwf) Hd) as [[-> _]|[H _]]; lia).
  assert (0 <= k0)%Z
    by (destruct (desc_at_ge _ _ _ _ (wf_nodes _ Hwf) Hd0) as [[-> _]|[H' _]]; lia).
  nia.
Qed.

(** X29.  On the tree [BuildTree] returns, [TraverseDepthFirst] and
    [TraverseBreadthFirst] call the visitor, up to its first error, on
    the same nodes: the nodes below the root, each once, the root first.
    [GetAllNodes] returns every node once: the visited ones and those
    that are not below the root; with [FallbackToRoot] there are none of
    the latter. *)
Theorem traversals_visit_nodes_below_root tb rootURL rest contents content :
  contents !! rootURL = Some content ->
  exists tree depth_first breadth_first,
    BuildTree range tb (rootURL :: rest) contents = Done tree
    /\ head depth_first = Root tree /\ head breadth_first = Root tree
    /\ NoDup depth_first /\ depth_first ≡ₚ breadth_first
    /\ (forall q : nat, q ∈ depth_first <-> exists k, desc_at (t_nodes tree) O q k)
    /\ NoDup (GetAllNodes range tree)
    /\ Z.of_nat (length (GetAllNodes range tree)) = TotalNodes tree
    /\ depth_first ⊆ GetAllNodes range tree
    /\ (FallbackToRoot (tb_config tb) = true -> depth_first ≡ₚ GetAllNodes range tree)
    /\ forall (St E : Type) (visitor : Visitor St E) (st : St) (fuel : nat),
         length (t_nodes tree) < fuel ->
         TraverseDepthFirst fuel tree visitor st
         = Done (visit_all visitor (t_nodes tree) depth_first st)
         /\ TraverseBreadthFirst fuel tree visitor st
            = Done (visit_all visitor (t_nodes tree) breadth_first st).
Proof.
  intros Ec. destruct (BuildTree_tree tb rootURL rest contents content Ec)
    as (tree & Hrun & Hwf & Hr & _ & _ & _ & Ht & Hlen & Hall & _).
  pose proof (wf_nodes _ Hwf) as Hs.
  destruct (wf_Root _ Hwf O Hr) as (_ & _ & Hpos).
  set (nodes := t_nodes tree) in *.
  assert (Hq0 : forall p : nat, p ∈ [O] -> p < length nodes).
  { intros p Hp. apply list_elem_of_singleton in Hp. subst p. exact Hpos. }
  assert (Hbind : [O] ≫= preorder (length nodes) nodes = preorder (length nodes) nodes O).
  { cbn. apply app_nil_r. }
  assert (Hbound : length ([O] ≫= preorder (length nodes) nodes) <= length nodes).
  { rewrite Hbind. apply length_preorder; [exact Hs|exact Hpos|lia]. }
  pose proof (GetAllNodes_Permutation range tree range_Permutation Hwf) as Hget.
  fold nodes in Hget.
  assert (Hnd : NoDup (preorder (length nodes) nodes O))
    by (apply NoDup_preorder; [exact Hs|exact Hpos|lia]).
  assert (Hel : forall q : nat, q ∈ preorder (length nodes) nodes O
                                <-> exists k, desc_at nodes O q k)
    by (intros q; apply elem_of_preorder; [exact Hs|exact Hpos|lia]).
  exists tree, (preorder (length nodes) nodes O), (level_order (S (length nodes)) nodes [O]).
  split; [exact Hrun|]. split.
  { rewrite Hr. rewrite (preorder_unfold nodes O Hs Hpos). reflexivity. }
  split; [rewrite Hr; reflexivity|]. split; [exact Hnd|]. split.
  { rewrite level_order_Permutation;
      [rewrite Hbind; reflexivity|exact Hs|exact Hq0|unfold ptr in *; lia]. }
  split; [exact Hel|]. split; [rewrite Hget; apply NoDup_seq|]. split.
  { rewrite Hget, length_seq, Ht. f_equal. exact Hlen. }
  split.
  { intros q Hq. rewrite Hget. apply elem_of_seq.
    pose proof (preorder_valid nodes (length nodes) O q Hs Hpos) as H.
    specialize (H ltac:(lia) Hq). lia. }
  split.
  { intros Hf. rewrite Hget. apply NoDup_Permutation; [exact Hnd|apply NoDup_seq|].
    intros q. rewrite Hel, elem_of_seq. split.
    - intros [k Hd]. pose proof (desc_at_lt _ _ _ _ Hs Hpos Hd). lia.
    - intros [_ Hq]. apply (Hall Hf). exact Hq. }
  intros St E visitor st fuel Hfuel. fold nodes in Hfuel.
  unfold TraverseDepthFirst, TraverseBreadthFirst. rewrite Hr. fold nodes. split.
  - rewrite traverseDepthFirstNode_spec; [|exact Hs|exact Hpos|lia].
    rewrite (preorder_fuel nodes fuel (length nodes) O Hs Hpos); [reflexivity|lia|lia].
  - rewrite breadthFirstLoop_spec; [|exact Hs|exact Hq0|unfold ptr in *; lia].
    do 2 f_equal.
    apply (level_order_fuel nodes fuel (S (length nodes)) [O] Hs Hq0); unfold ptr in *; lia.
Qed.

(** X30.  On the tree [BuildTree] returns, [GetNodesByLevel] returns,
    each once, the nodes that many links below the root; for level 0 it
    returns the root alone, and not the nodes outside the tree of the
    root, whose level is 0 as well. *)
Theorem GetNodesByLevel_below_root tb rootURL rest contents content :
  contents !! rootURL = Some content ->
  exists tree,
    BuildTree range tb (rootURL :: rest) contents = Done tree
    /\ Root tree = Some O
    /\ forall fuel : nat, length (t_nodes tree) < fuel ->
         GetNodesByLevel fuel tree 0 = Done [O]
         /\ forall level, exists found,
              GetNodesByLevel fuel tree level = Done found
              /\ NoDup found
              /\ forall q : nat, q ∈ found <-> desc_at (t_nodes tree) O q level.
Proof.
  intros Ec. destruct (BuildTree_tree tb rootURL rest contents content Ec)
    as (tree & Hrun & Hwf & Hr & _ & _ & _ & _ & _ & _ & Hlev & _).
  pose proof (wf_nodes _ Hwf) as Hs.
  destruct (wf_Root _ Hwf O Hr) as (_ & _ & Hpos).
  exists tree. split; [exact Hrun|]. split; [exact Hr|]. intros fuel Hfuel.
  set (nodes := t_nodes tree) in *.
  assert (Hgen : forall level, exists found,
            GetNodesByLevel fuel tree level = Done found
            /\ NoDup found
            /\ forall q : nat, q ∈ found <-> desc_at nodes O q level).
  { intros level. unfold GetNodesByLevel, TraverseDepthFirst. rewrite Hr. fold nodes.
    rewrite traverseDepthFirstNode_spec; [|exact Hs|exact Hpos|lia].
    rewrite visit_all_level
      by (intros p Hp; apply (preorder_valid nodes fuel O p Hs Hpos); [lia|exact Hp]).
    cbn [bind fst app]. eexists. split; [reflexivity|]. split.
    - apply NoDup_filter, NoDup_preorder; [exact Hs|exact Hpos|lia].
    - intros q. rewrite list_elem_of_filter, elem_of_preorder; [|exact Hs|exact Hpos|lia].
      split.
      + intros (Hl & k & Hd). destruct (Hlev q k Hd) as (n & Hn & _ & Hk).
        unfold nodes, ptr in *. rewrite Hn in Hl. cbn in Hl. injection Hl as Hl.
        replace level with k by lia. exact Hd.
      + intros Hd. destruct (Hlev q level Hd) as (n & Hn & _ & Hk). split; [|eauto].
        unfold nodes, ptr in *. rewrite Hn. cbn. f_equal. exact Hk. }
  split; [|exact Hgen].
  destruct (Hgen 0%Z) as (found & Hf & Hnd & Hel). rewrite Hf. f_equal.
  apply NoDup_only; [exact Hnd|]. intros q. rewrite Hel. split.
  - intros Hd. destruct (desc_at_ge _ _ _ _ Hs Hd) as [[_ E]|[E _]]; [exact E|lia].
  - intros ->. constructor.
Qed.

End TreeProperties.

(** X24.  [AddNode] returns an error exactly when [FindNode] finds the
    URL already, and then leaves the tree as it is; otherwise [FindNode]
    finds the new node afterwards, which carries the URL, the title, the
    content and the metadata of the page, the other URLs are found as
    before, and adding the URL again is an error. *)
Theorem AddNode_then_FindNode (range : MapOrder) tb tree url content :
  let result := AddNode range tb tree url content in
  (fst result = true <-> is_Some (FindNode tree url))
  /\ (fst result = true -> snd result = tree)
  /\ (fst result = false ->
      FindNode (snd result) url = Some (length (t_nodes tree))
      /\ length (t_nodes (snd result)) = S (length (t_nodes tree))
      /\ (exists n, t_nodes (snd result) !! length (t_nodes tree) = Some n
                    /\ n_URL n = url /\ n_Path n = extractPath tb url
                    /\ n_Title n = sc_Title content /\ n_Content n = sc_Content content
                    /\ n_Metadata n = sc_Metadata content)
      /\ forall url', url' <> url -> FindNode (snd result) url' = FindNode tree url')
  /\ AddNode range tb (snd result) url content = (true, snd result).
Proof.
  cbv zeta. unfold FindNode. destruct (NodeMap tree !! url) as [p|] eqn:Eu.
  - assert (E : AddNode range tb tree url content = (true, tree))
      by (unfold AddNode; rewrite Eu; reflexivity).
    rewrite E. cbn [fst snd]. split; [split; eauto|]. split; [reflexivity|].
    split; [discriminate|exact E].
  - set (node := mkDocumentNode url (extractPath tb url) (sc_Title content)
                   (sc_Content content) 0 0 None [] (sc_Metadata content) 0).
    set (attach := match DetermineParent range tb node tree with
                   | Some p => Some p
                   | None => if FallbackToRoot (tb_config tb) then Root tree else None
                   end).
    set (nodes' := match attach with
                   | Some p => append_child (t_nodes tree ++ [with_parent node (Some p)])
                                 p (length (t_nodes tree))
                   | None => t_nodes tree ++ [node]
                   end).
    assert (E : AddNode range tb tree url content
                = (false, mkDocumentTree nodes' (Root tree)
                            (<[url := length (t_nodes tree)]> (NodeMap tree))
                            (MaxDepth tree) (TotalNodes tree)))
      by (unfold AddNode; rewrite Eu; reflexivity).
    rewrite E. cbn [fst snd t_nodes NodeMap].
    split; [split; [discriminate|intros [? ?]; discriminate]|].
    split; [discriminate|]. split.
    + intros _. split; [apply lookup_insert_eq|].
      split; [unfold nodes'; destruct attach;
              rewrite ?append_child_length, length_app; cbn; lia|].
      split.
      * assert (H : (fun n => (n_URL n, n_Path n, n_Title n, n_Content n, n_Metadata n))
                    <$> nodes' !! length (t_nodes tree)
                    = Some (url, extractPath tb url, sc_Title content, sc_Content content,
                            sc_Metadata content)).
        { unfold nodes'. destruct attach as [p|].
          - rewrite lookup_append_child by reflexivity.
            unfold ptr. rewrite list_lookup_middle by reflexivity. reflexivity.
          - unfold ptr. rewrite list_lookup_middle by reflexivity. reflexivity. }
        unfold ptr in *. destruct (nodes' !! length (t_nodes tree)) as [n|]; [|discriminate].
        exists n. split; [reflexivity|]. cbn in H. injection H as H1 H2 H3 H4 H5. auto.
      * intros url' Hne. apply lookup_insert_ne. congruence.
    + unfold AddNode. cbn [NodeMap]. rewrite lookup_insert_eq. reflexivity.
Qed.

Lemma BuildTree_indexes_scraped_pages_witness :
  exists tree,
    BuildTree map_to_list (NewTreeBuilder hierarchy_with_fallback) scenario_urls
      scenario_contents = Done tree
    /\ TotalNodes tree = Z.of_nat (length (t_nodes tree)).
Proof.
  destruct (BuildTree_indexes_scraped_pages map_to_list (fun m => reflexivity _)
              (NewTreeBuilder hierarchy_with_fallback)
              "https://example.com/" (tail scenario_urls) scenario_contents
              (snd (page "https://example.com/" "Home")) ltac:(vm_compute; reflexivity))
    as (tree & Hrun & _ & _ & _ & _ & Ht & _).
  exists tree. split; [exact Hrun|exact Ht].
Defined.

Lemma BuildTree_without_root_witness :
  exists tree,
    BuildTree map_to_list (NewTreeBuilder hierarchy_with_fallback)
      ("https://example.com/missing" :: scenario_urls) scenario_contents = Done tree
    /\ Root tree = None /\ MaxDepth tree = 0%Z.
Proof.
  destruct (proj2 (BuildTree_without_root map_to_list (fun m => reflexivity _)
                     (NewTreeBuilder hierarchy_with_fallback)
                     ("https://example.com/missing" :: scenario_urls) scenario_contents
                     (fun rootURL H =>
                        ltac:(injection H as <-; vm_compute; reflexivity)))
              eq_refl)
    as (tree & Hrun & Hr & Hm & _).
  exists tree. split; [exact Hrun|]. split; [exact Hr|exact Hm].
Defined.

Lemma BuildTree_levels_are_distances_witness :
  exists tree,
    BuildTree map_to_list (NewTreeBuilder hierarchy_with_fallback) scenario_urls
      scenario_contents = Done tree
    /\ forall q : nat, (q < length (t_nodes tree))%nat ->
         exists k, desc_at (t_nodes tree) O q k.
Proof.
  destruct (BuildTree_levels_are_distances map_to_list (fun m => reflexivity _)
              (NewTreeBuilder hierarchy_with_fallback)
              "https://example.com/" (tail scenario_urls) scenario_contents
              (snd (page "https://example.com/" "Home")) ltac:(vm_compute; reflexivity))
    as (tree & Hrun & _ & _ & _ & Hall).
  exists tree. split; [exact Hrun|exact (Hall eq_refl)].
Defined.

Lemma BuildTree_MaxDepth_adds_up_depths_witness :
  exists tree deepest,
    BuildTree map_to_list (NewTreeBuilder hierarchy_with_fallback) scenario_urls
      scenario_contents = Done tree
    /\ (2 * MaxDepth tree = deepest * (deepest + 1))%Z.
Proof.
  destruct (BuildTree_MaxDepth_adds_up_depths map_to_list (fun m => reflexivity _)
              (NewTreeBuilder hierarchy_with_fallback)
              "https://example.com/" (tail scenario_urls) scenario_contents
              (snd (page "https://example.com/" "Home")) ltac:(vm_compute; reflexivity))
    as (tree & deepest & Hrun & _ & _ & _ & E).
  exists tree, deepest. split; [exact Hrun|exact E].
Defined.

Lemma traversals_visit_nodes_below_root_witness :
  exists tree depth_first breadth_first,
    BuildTree map_to_list (NewTreeBuilder hierarchy_with_fallback) scenario_urls
      scenario_contents = Done tree
    /\ depth_first ≡ₚ breadth_first
    /\ depth_first ≡ₚ GetAllNodes map_to_list tree.
Proof.
  destruct (traversals_visit_nodes_below_root map_to_list (fun m => reflexivity _)
              (NewTreeBuilder hierarchy_with_fallback)
              "https://example.com/" (tail scenario_urls) scenario_contents
              (snd (page "https://example.com/" "Home")) ltac:(vm_compute; reflexivity))
    as (tree & depth_first & breadth_first & Hrun & _ & _ & _ & Hp & _ & _ & _ & _ & Hall & _).
  exists tree, depth_first, breadth_first.
  split; [exact Hrun|]. split; [exact Hp|exact (Hall eq_refl)].
Defined.

Lemma GetNodesByLevel_below_root_witness :
  exists tree,
    BuildTree map_to_list (NewTreeBuilder hierarchy_with_fallback) scenario_urls
      scenario_contents = Done tree
    /\ GetNodesByLevel (S (length (t_nodes tree))) tree 0 = Done [O].
Proof.
  destruct (GetNodesByLevel_below_root map_to_list (fun m => reflexivity _)
              (NewTreeBuilder hierarchy_with_fallback)
              "https://example.com/" (tail scenario_urls) scenario_contents
              (snd (page "https://example.com/" "Home")) ltac:(vm_compute; reflexivity))
    as (tree & Hrun & _ & H).
  exists tree. split; [exact Hrun|]. exact (proj1 (H _ (Nat.lt_succ_diag_r _))).
Defined.
